(** * Verification of the package-management scripts

    Shallow embedding of two scripts of the repository:

    - [archive/pip-cleanup-versions.py], the retention pruner of the pip
      mirror (filename patterns, grouping, version sort, deletion);
    - [archive/stata-print-csv.py], the inventory reporter of the shared ado
      tree (header scraping, row formatting, integrity manifest lookup).

    Python [str] values are modelled by [string]: a sequence of code points
    below 256.  This is exact for the ado files, which the reporter decodes as
    latin-1, and covers file names and manifest strings within that range. *)

From Stdlib Require Import String Ascii List Bool Arith Lia Permutation Sorted.
From Stdlib Require Import OrderedTypeEx.
From stdpp Require Import base option list gmap strings pretty.
Import ListNotations.

Set Warnings "-register-all".
Local Open Scope string_scope.
Local Open Scope list_scope.
Local Open Scope nat_scope.

(** ** Python string primitives *)

Module Py.

(** [str.isspace] on one code point below 256: the characters that
    [str.strip()] and [str.split()] treat as white space. *)
Definition isspace (c : ascii) : bool :=
  let n := nat_of_ascii c in
  ((9 <=? n) && (n <=? 13)) || ((28 <=? n) && (n <=? 32))
  || (n =? 133) || (n =? 160).

(** [str.lower] on one code point below 256: A-Z and the accented capitals
    0xC0-0xDE (without the multiplication sign 0xD7) move up by 32. *)
Definition lower_char (c : ascii) : ascii :=
  let n := nat_of_ascii c in
  if ((65 <=? n) && (n <=? 90))
     || ((192 <=? n) && (n <=? 222) && negb (n =? 215))
  then ascii_of_nat (n + 32) else c.

(** [s.lower()] *)
Fixpoint lower (s : string) : string :=
  match s with
  | EmptyString => EmptyString
  | String c s' => String (lower_char c) (lower s')
  end.

(** [s.lstrip()] *)
Fixpoint lstrip (s : string) : string :=
  match s with
  | EmptyString => EmptyString
  | String c s' => if isspace c then lstrip s' else s
  end.

(** [s.rstrip()] *)
Fixpoint rstrip (s : string) : string :=
  match s with
  | EmptyString => EmptyString
  | String c s' =>
      match rstrip s' with
      | EmptyString => if isspace c then EmptyString else String c EmptyString
      | r => String c r
      end
  end.

(** [s.strip()] *)
Definition strip (s : string) : string := rstrip (lstrip s).

(** [s.lstrip(c)] for a one-character argument. *)
Fixpoint lstrip_char (c : ascii) (s : string) : string :=
  match s with
  | EmptyString => EmptyString
  | String d s' => if Ascii.eqb d c then lstrip_char c s' else s
  end.

(** [s.startswith(p)] *)
Definition startswith (p s : string) : bool := String.prefix p s.

(** [s.endswith(p)] *)
Fixpoint endswith (p s : string) : bool :=
  String.eqb p s
  || match s with
     | EmptyString => false
     | String _ s' => endswith p s'
     end.

(** [sub in s] *)
Fixpoint contains (sub s : string) : bool :=
  String.prefix sub s
  || match s with
     | EmptyString => false
     | String _ s' => contains sub s'
     end.

(** [s.split()]: the maximal runs of characters that are not white space.
    [cur] is the run being read, in reverse. *)
Fixpoint split_from (cur : list ascii) (s : string) : list string :=
  let flush :=
    match cur with
    | [] => []
    | _ => [string_of_list_ascii (rev cur)]
    end in
  match s with
  | EmptyString => flush
  | String c s' =>
      if isspace c then flush ++ split_from [] s' else split_from (c :: cur) s'
  end.

Definition split (s : string) : list string := split_from [] s.

(** [s.replace(a, b)] for one-character arguments. *)
Fixpoint replace_char (a b : ascii) (s : string) : string :=
  match s with
  | EmptyString => EmptyString
  | String c s' =>
      String (if Ascii.eqb c a then b else c) (replace_char a b s')
  end.

(** [sep.join(parts)] *)
Definition join (sep : string) (parts : list string) : string :=
  String.concat sep parts.

(** Truth value of an optional string: [None] and [""] are false. *)
Definition truthy (o : option string) : bool :=
  match o with
  | Some (String _ _) => true
  | _ => false
  end.

(** [o or ""] *)
Definition or_empty (o : option string) : string :=
  if truthy o then default "" o else "".

End Py.

(** ** Regular expressions, as [re] runs them

    A backtracking matcher over the constructs the two filename patterns use.
    Alternatives are tried left to right, greedy quantifiers longest first,
    lazy ones shortest first; the first complete match wins and fixes the
    groups.  Quantifiers range over single-character classes, which is all
    the patterns need. *)

Module Re.

Inductive cclass : Type :=
| Dot      (* [.]  : anything but a newline *)
| Digit.   (* [\d] : a decimal digit *)

Definition in_class (k : cclass) (c : ascii) : bool :=
  match k with
  | Dot => negb (Ascii.eqb c "010")
  | Digit => let n := nat_of_ascii c in (48 <=? n) && (n <=? 57)
  end.

Inductive regex : Type :=
| Bol                             (* [^] *)
| Eol                             (* [$] *)
| Lit (s : string)                (* literal text *)
| Plus (k : cclass)               (* [k+] *)
| PlusLazy (k : cclass)           (* [k+?] *)
| StarLazy (k : cclass)           (* [k*?] *)
| Seq (r1 r2 : regex)
| Alt (r1 r2 : regex)
| Group (n : nat) (r : regex).    (* capturing group number [n] *)

(** Captured groups: group number to text. *)
Definition groups : Type := list (nat * string).

Definition set_group (n : nat) (s : string) (g : groups) : groups :=
  (n, s) :: filter (fun p => negb (fst p =? n)) g.

Fixpoint group (n : nat) (g : groups) : option string :=
  match g with
  | [] => None
  | (m, s) :: g' => if m =? n then Some s else group n g'
  end.

Section Exec.
Context {A : Type}.

(** [k*?] then [cont]: the shortest run first. *)
Fixpoint star_lazy (p : ascii -> bool) (s : string)
         (cont : string -> option A) : option A :=
  match cont s with
  | Some r => Some r
  | None =>
      match s with
      | String c s' => if p c then star_lazy p s' cont else None
      | EmptyString => None
      end
  end.

(** [k*] then [cont]: the longest run first. *)
Fixpoint star_greedy (p : ascii -> bool) (s : string)
         (cont : string -> option A) : option A :=
  match s with
  | String c s' =>
      if p c then
        match star_greedy p s' cont with
        | Some r => Some r
        | None => cont s
        end
      else cont s
  | EmptyString => cont s
  end.

(** One character of the class, then [rest]. *)
Definition one (p : ascii -> bool) (s : string)
           (rest : string -> option A) : option A :=
  match s with
  | String c s' => if p c then rest s' else None
  | EmptyString => None
  end.

(** Literal text, then [cont]. *)
Fixpoint lit (t s : string) (cont : string -> option A) : option A :=
  match t with
  | EmptyString => cont s
  | String a t' =>
      match s with
      | String c s' => if Ascii.eqb a c then lit t' s' cont else None
      | EmptyString => None
      end
  end.
End Exec.

(** [exec input r s g cont]: match [r] at the suffix [s] of [input] with the
    groups [g] set so far, then hand the rest and the groups to [cont];
    [None] makes the matcher backtrack. *)
Fixpoint exec {A : Type} (input : string) (r : regex) (s : string)
         (g : groups) (cont : string -> groups -> option A) : option A :=
  match r with
  | Bol => if String.length s =? String.length input then cont s g else None
  | Eol =>
      match s with
      | EmptyString => cont s g
      | String "010" EmptyString => cont s g
      | _ => None
      end
  | Lit t => lit t s (fun s' => cont s' g)
  | Plus k =>
      one (in_class k) s
          (fun s1 => star_greedy (in_class k) s1 (fun s' => cont s' g))
  | PlusLazy k =>
      one (in_class k) s
          (fun s1 => star_lazy (in_class k) s1 (fun s' => cont s' g))
  | StarLazy k => star_lazy (in_class k) s (fun s' => cont s' g)
  | Seq r1 r2 => exec input r1 s g (fun s' g' => exec input r2 s' g' cont)
  | Alt r1 r2 =>
      match exec input r1 s g cont with
      | Some x => Some x
      | None => exec input r2 s g cont
      end
  | Group n r1 =>
      exec input r1 s g
           (fun s' g' =>
              let start := String.length input - String.length s in
              let len := String.length s - String.length s' in
              cont s' (set_group n (substring start len input) g'))
  end.

(** [pattern.match(input)]: anchored at the start, the groups of the first
    match found. *)
Definition rmatch (r : regex) (input : string) : option groups :=
  exec input r input [] (fun _ g => Some g).

Fixpoint cat (rs : list regex) : regex :=
  match rs with
  | [] => Lit ""
  | [r] => r
  | r :: rs' => Seq r (cat rs')
  end.

End Re.

(** ** Exceptions and the script monad *)

Inductive exn : Type :=
| FileNotFoundError (file : string)
| SystemExit (msg : string)
| AttributeError
| TypeError
| ValueError
| UnicodeDecodeError
| PermissionError (file : string)
| RecursionError.

(** The exceptions that [except OSError] catches. *)
Definition is_oserror (e : exn) : bool :=
  match e with
  | FileNotFoundError _ | PermissionError _ => true
  | _ => false
  end.

Inductive result (A : Type) : Type :=
| Ok (a : A)
| Raise (e : exn).
Arguments Ok {A} a.
Arguments Raise {A} e.

(** ** [archive/pip-cleanup-versions.py] *)

Module Cleanup.
Import Re.

Definition keep_versions : nat := 3.

(** [^(.+?)-(\d+\.\d+\.\d+.*?)-(cp\d+|py\d+|py2\.py3)-.+\.whl$] *)
Definition wheel_pattern : regex :=
  cat [ Bol; Group 1 (PlusLazy Dot); Lit "-";
        Group 2 (cat [Plus Digit; Lit "."; Plus Digit; Lit "."; Plus Digit;
                      StarLazy Dot]);
        Lit "-";
        Group 3 (Alt (Seq (Lit "cp") (Plus Digit))
                     (Alt (Seq (Lit "py") (Plus Digit)) (Lit "py2.py3")));
        Lit "-"; Plus Dot; Lit ".whl"; Eol ].

(** [^(.+?)-(\d+\.\d+\.\d+.*?)\.(tar\.gz|tar\.bz2|zip)$] *)
Definition sdist_pattern : regex :=
  cat [ Bol; Group 1 (PlusLazy Dot); Lit "-";
        Group 2 (cat [Plus Digit; Lit "."; Plus Digit; Lit "."; Plus Digit;
                      StarLazy Dot]);
        Lit ".";
        Group 3 (Alt (Lit "tar.gz") (Alt (Lit "tar.bz2") (Lit "zip")));
        Eol ].

(** The mirror directory: the names of its entries, in the order the
    operating system lists them; those of them that cannot be deleted (a
    directory, which the globs select like a file, a read-only file, a file
    in use); and what the script has printed. *)
Record state : Type := {
  listing : list string;
  undeletable : list string;
  stdout : list string
}.

Definition M (A : Type) : Type := state -> result (A * state).

Global Instance M_ret : MRet M := fun A a st => Ok (a, st).

Global Instance M_bind : MBind M :=
  fun A B f m st =>
    match m st with
    | Ok (a, st') => f a st'
    | Raise e => Raise e
    end.

Fixpoint for_each {X} (xs : list X) (body : X -> M unit) : M unit :=
  match xs with
  | [] => mret tt
  | x :: xs' => _ ← body x; for_each xs' body
  end.

Definition print (line : string) : M unit :=
  fun st => Ok (tt, {| listing := listing st;
                       undeletable := undeletable st;
                       stdout := stdout st ++ [line] |}).

Definition string_in (x : string) (l : list string) : bool :=
  existsb (String.eqb x) l.

(** [file_path.unlink()]: a missing entry raises, and so does, on Windows,
    one that cannot be deleted; nothing in the script catches either. *)
Definition unlink (file : string) : M unit :=
  fun st =>
    if string_in file (listing st)
    then
      if string_in file (undeletable st) then Raise (PermissionError file)
      else Ok (tt, {| listing := filter (fun f => negb (String.eqb f file))
                                        (listing st);
                      undeletable := undeletable st;
                      stdout := stdout st |})
    else Raise (FileNotFoundError file).

(** The names a pattern ['*' + suffix] selects; the mirror lives on Windows,
    where globbing ignores letter case. *)
Definition globbed (suffix : string) (dir : list string) : list string :=
  filter (fun name => Py.endswith suffix (Py.lower name)) dir.

(** [packages_dir.glob('*' + suffix)] *)
Definition glob (suffix : string) : M (list string) :=
  fun st => Ok (globbed suffix (listing st), st).

(** [d[k].append(v)] on a [defaultdict(list)]; the keys keep the order of
    their first insertion. *)
Fixpoint dict_append {K V : Type} `{EqDecision K} (k : K) (v : V)
         (d : list (K * list V)) : list (K * list V) :=
  match d with
  | [] => [(k, [v])]
  | (k', vs) :: d' =>
      if decide (k' = k) then (k', vs ++ [v]) :: d'
      else (k', vs) :: dict_append k v d'
  end.

(** An entry of a retention group: (version, file). *)
Definition entry : Type := string * string.

(** The three groups of a match. *)
Definition match_groups (r : regex) (name : string)
  : option (string * string * string) :=
  match rmatch r name with
  | Some m =>
      match group 1 m, group 2 m, group 3 m with
      | Some a, Some b, Some c => Some (a, b, c)
      | _, _, _ => None
      end
  | None => None
  end.

Definition add_wheel (packages : list ((string * string) * list entry))
           (file : string) : list ((string * string) * list entry) :=
  match match_groups wheel_pattern file with
  | Some (pkg_name, pkg_version, py_version) =>
      dict_append (pkg_name, py_version) (pkg_version, file) packages
  | None => packages
  end.

Definition add_sdist (sdist_packages : list (string * list entry))
           (file : string) : list (string * list entry) :=
  match match_groups sdist_pattern file with
  | Some (pkg_name, pkg_version, _) =>
      dict_append pkg_name (pkg_version, file) sdist_packages
  | None => sdist_packages
  end.

(** [sorted(files, key=lambda x: x[0], reverse=True)]: by version, greatest
    first; entries with equal versions keep their order (the sort is stable,
    so any stable sort computes the same list). *)
Fixpoint insert_desc (x : entry) (l : list entry) : list entry :=
  match l with
  | [] => [x]
  | y :: l' =>
      if String.ltb (fst x) (fst y) then y :: insert_desc x l' else x :: l
  end.

Definition sorted_desc (files : list entry) : list entry :=
  foldr insert_desc [] files.

(** [enumerate(d.items(), 1)] *)
Definition enumerate1 {X} (xs : list X) : list (nat * X) :=
  zip (seq 1 (length xs)) xs.

(** The body of both pruning loops, after the progress line. *)
Definition prune (keep : nat) (files : list entry) : M unit :=
  let sorted_files := sorted_desc files in
  for_each (skipn keep sorted_files)
           (fun '(version, file_path) =>
              _ ← print ("  Deleting " ++ file_path); unlink file_path).

Definition cleanup (keep : nat) : M unit :=
  whl ← glob ".whl";
  let packages := fold_left add_wheel whl [] in
  tgz ← glob ".tar.gz";
  tbz ← glob ".tar.bz2";
  zip ← glob ".zip";
  let sdist_packages := fold_left add_sdist (tgz ++ tbz ++ zip) [] in
  let total := length packages in
  _ ← for_each (enumerate1 packages)
        (fun '(index, ((pkg_name, py_version), files)) =>
           _ ← print ("[" ++ pretty index ++ "/" ++ pretty total
                      ++ "] Processing " ++ pkg_name
                      ++ " (" ++ py_version ++ ")...");
           prune keep files);
  _ ← print "Wheel cleanup complete.";
  let total_sdist := length sdist_packages in
  _ ← for_each (enumerate1 sdist_packages)
        (fun '(index, (pkg_name, files)) =>
           _ ← print ("[" ++ pretty index ++ "/" ++ pretty total_sdist
                      ++ "] Processing source distributions for "
                      ++ pkg_name ++ "...");
           prune keep files);
  print "Source distribution cleanup complete.".

(** The script as written, with [keep_versions = 3]. *)
Definition main : M unit := cleanup keep_versions.

(** The retention groups of a directory, wheels first. *)
Definition wheel_groups (dir : list string)
  : list ((string * string) * list entry) :=
  fold_left add_wheel (globbed ".whl" dir) [].

(** The names the three source patterns select, in the order of the loop. *)
Definition sdist_candidates (dir : list string) : list string :=
  globbed ".tar.gz" dir ++ globbed ".tar.bz2" dir ++ globbed ".zip" dir.

Definition sdist_groups (dir : list string) : list (string * list entry) :=
  fold_left add_sdist (sdist_candidates dir) [].

Definition retention_groups (dir : list string) : list (list entry) :=
  map snd (wheel_groups dir) ++ map snd (sdist_groups dir).

(** The files the two pruning loops unlink, in order. *)
Definition planned_deletions (keep : nat) (dir : list string) : list string :=
  concat (map (fun files => map snd (skipn keep (sorted_desc files)))
              (retention_groups dir)).

(** A run from the directory [dir], of whose entries [und] cannot be
    deleted. *)
Definition run (keep : nat) (dir und : list string) : result (unit * state) :=
  cleanup keep {| listing := dir; undeletable := und; stdout := [] |}.

End Cleanup.

(** ** [archive/stata-print-csv.py] *)

Global Instance result_ret : MRet result := fun A a => Ok a.

Global Instance result_bind : MBind result :=
  fun A B f m =>
    match m with
    | Ok a => f a
    | Raise e => Raise e
    end.

Module Report.

Definition SUMMARY_LINE_LIMIT : nat := 30.

(** *** Values of the parsed manifest *)

(** What [json.loads] returns.  An object is a [dict]: its items in insertion
    order, the keys distinct.  Of a float the script can only observe whether
    it is zero. *)
Inductive json : Type :=
| JNull
| JBool (b : bool)
| JInt (n : Z)
| JFloat (nonzero : bool)
| JString (s : string)
| JArray (items : list json)
| JObject (fields : list (string * json)).

(** A value the script holds: [None] or something that came out of the
    manifest. *)
Definition is_true (v : json) : bool :=
  match v with
  | JNull => false
  | JBool b => b
  | JInt n => negb (Z.eqb n 0)
  | JFloat nonzero => nonzero
  | JString s => negb (String.eqb s "")
  | JArray items => negb (Nat.eqb (length items) 0)
  | JObject fields => negb (Nat.eqb (length fields) 0)
  end.

(** [x or y] *)
Definition py_or (x y : json) : json := if is_true x then x else y.

Fixpoint assoc (key : string) (fields : list (string * json)) : option json :=
  match fields with
  | [] => None
  | (k, v) :: fields' => if String.eqb k key then Some v else assoc key fields'
  end.

(** [obj.get(key)]: only a [dict] has the method. *)
Definition py_get (obj : json) (key : string) : result json :=
  match obj with
  | JObject fields => Ok (default JNull (assoc key fields))
  | _ => Raise AttributeError
  end.

Fixpoint chars (s : string) : list string :=
  match s with
  | EmptyString => []
  | String c s' => String c EmptyString :: chars s'
  end.

(** [for entry in v]: a list gives its items, a dict its keys, a string its
    characters; nothing else can be iterated. *)
Definition py_iter (v : json) : result (list json) :=
  match v with
  | JArray items => Ok items
  | JObject fields => Ok (map (fun kv => JString (fst kv)) fields)
  | JString s => Ok (map JString (chars s))
  | _ => Raise TypeError
  end.

(** [v.lower()]: only a [str] has the method. *)
Definition py_lower (v : json) : result string :=
  match v with
  | JString s => Ok (Py.lower s)
  | _ => Raise AttributeError
  end.

(** *** Paths *)

(** A Windows path with a drive: [C:\a\b] is [{| drive := "C:"; parts :=
    ["a"; "b"] |}]. *)
Record path : Type := { drive : string; parts : list string }.

(** [p / name] *)
Definition joinpath (p : path) (name : string) : path :=
  {| drive := drive p; parts := parts p ++ [name] |}.

(** [p.name] *)
Definition name (p : path) : string := List.last (parts p) "".

(** [p.parent] *)
Definition parent (p : path) : path :=
  {| drive := drive p; parts := removelast (parts p) |}.

(** [s.rfind(c)] *)
Fixpoint rfind (c : ascii) (s : string) : option nat :=
  match s with
  | EmptyString => None
  | String d s' =>
      match rfind c s' with
      | Some i => Some (S i)
      | None => if Ascii.eqb d c then Some 0 else None
      end
  end.

(** [p.stem]: the name without its last suffix. *)
Definition stem (p : path) : string :=
  let nm := name p in
  match rfind "." nm with
  | Some i =>
      if (0 <? i) && (i <? String.length nm - 1) then substring 0 i nm else nm
  | None => nm
  end.

(** [str(p)] *)
Definition path_str (p : path) : string :=
  drive p ++ "\" ++ Py.join "\" (parts p).

Definition is_sep (c : ascii) : bool := Ascii.eqb c "/" || Ascii.eqb c "\".

(** The pieces of [s] between path separators. *)
Fixpoint pieces_from (cur : list ascii) (s : string) : list string :=
  match s with
  | EmptyString => [string_of_list_ascii (rev cur)]
  | String c s' =>
      if is_sep c then string_of_list_ascii (rev cur) :: pieces_from [] s'
      else pieces_from (c :: cur) s'
  end.

(** [Path(s)] for a string that names a path with a drive; both separators
    are accepted, empty and ["."] components dropped. *)
Definition Path (s : string) : path :=
  match pieces_from [] s with
  | [] => {| drive := ""; parts := [] |}
  | d :: rest =>
      {| drive := d;
         parts := filter (fun c => negb (String.eqb c "" || String.eqb c "."))
                         rest |}
  end.

(** [os.path.normpath] on the components: [".."] steps back, and stays at
    the root. *)
Fixpoint normparts (acc ps : list string) : list string :=
  match ps with
  | [] => rev acc
  | p :: ps' =>
      if String.eqb p ".." then normparts (tail acc) ps'
      else normparts (p :: acc) ps'
  end.

(** How many leading components two paths share, letter case ignored. *)
Fixpoint common (xs ys : list string) : nat :=
  match xs, ys with
  | x :: xs', y :: ys' =>
      if String.eqb (Py.lower x) (Py.lower y) then S (common xs' ys') else 0
  | _, _ => 0
  end.

(** [os.path.relpath(p, start)] on Windows: the result is joined with
    backslashes; paths on different drives raise [ValueError]. *)
Definition relpath (p start : path) : result string :=
  if String.eqb (Py.lower (drive start)) (Py.lower (drive p)) then
    let start_list := normparts [] (parts start) in
    let path_list := normparts [] (parts p) in
    let i := common start_list path_list in
    let rel_list := repeat ".." (length start_list - i) ++ skipn i path_list in
    match rel_list with
    | [] => Ok "."
    | _ => Ok (Py.join "\" rel_list)
    end
  else Raise ValueError.

(** *** The host *)

(** A file of the ado tree: [open]/[readlines] raise [OSError], or give the
    bytes, decoded as latin-1. *)
Inductive file : Type :=
| Unreadable
| Content (text : string).

(** A directory: its files and its subdirectories, as listed. *)
Inductive tree : Type :=
| Dir (files : list (string * file)) (dirs : list (string * tree)).

(** What opening [integrity-baseline.json] leads to. *)
Inductive manifest_file : Type :=
| Missing                 (* [exists()] is false *)
| ReadError               (* [read_text] raises [OSError] *)
| BadEncoding             (* the bytes are not utf-8 *)
| BadJson                 (* [json.loads] raises [JSONDecodeError] *)
| Parsed (manifest : json)
| OtherFailure (e : exn). (* reading or parsing raises something else, as
                             [RecursionError] for nesting beyond the
                             recursion limit *)

Record host : Type := {
  os_name : string;                (* [os.name] *)
  shared_ado : option tree;        (* the tree at the root, if it exists *)
  baseline : manifest_file;
  py_repr : json -> string         (* [str] of a value that is not a [str] *)
}.

(** [str(v)] *)
Definition py_str (h : host) (v : json) : string :=
  match v with
  | JString s => s
  | _ => py_repr h v
  end.

(** *** [scan_ado_files] *)

Definition is_ado (filename : string) : bool :=
  Py.endswith ".ado" (Py.lower filename).

(** [os.walk], top down: the files of a directory, then each subdirectory
    in turn.  Every [.ado] file comes with what reading it gives. *)
Fixpoint scan_ado_files (root : path) (t : tree) : list (path * file) :=
  match t with
  | Dir files dirs =>
      map (fun nf => (joinpath root (fst nf), snd nf))
          (filter (fun nf => is_ado (fst nf)) files)
      ++ (fix walk (ds : list (string * tree)) : list (path * file) :=
            match ds with
            | [] => []
            | (d, sub) :: ds' => scan_ado_files (joinpath root d) sub ++ walk ds'
            end) dirs
  end.

(** *** [extract_local_metadata] *)

(** [handle.readlines()] in text mode: [\n], [\r] and [\r\n] all end a
    line and are read as [\n]. *)
Fixpoint readlines_from (cur : list ascii) (s : string) : list string :=
  let line := string_of_list_ascii (rev ("010"%char :: cur)) in
  match s with
  | EmptyString =>
      match cur with
      | [] => []
      | _ => [string_of_list_ascii (rev cur)]
      end
  | String c s' =>
      if Ascii.eqb c "010" then line :: readlines_from [] s'
      else if Ascii.eqb c "013" then
        match s' with
        | String "010" s'' => line :: readlines_from [] s''
        | _ => line :: readlines_from [] s'
        end
      else readlines_from (c :: cur) s'
  end.

Definition readlines (text : string) : list string := readlines_from [] text.

Record metadata : Type := {
  version : option string;
  description : option string
}.

(** The inner loop: the token after the first ["version"] token that has
    one. *)
Fixpoint find_version (tokens : list string) : option string :=
  match tokens with
  | [] => None
  | token :: rest =>
      if String.eqb token "version" then
        match rest with
        | next :: _ => Some next
        | [] => find_version rest
        end
      else find_version rest
  end.

(** The body of the loop over the lines, up to the [break] test. *)
Definition scan_line (line : string) (md : metadata) : metadata :=
  let stripped := Py.strip line in
  let lower := Py.lower stripped in
  let md1 :=
    if Py.startswith "*" stripped && negb (Py.truthy (description md))
    then {| version := version md;
            description := Some (Py.strip (Py.lstrip_char "*" stripped)) |}
    else md in
  if Py.contains "version" lower && negb (Py.startswith "*" stripped)
  then
    match find_version (Py.split lower) with
    | Some v => {| version := Some v; description := description md1 |}
    | None => md1
    end
  else md1.

Fixpoint scan_lines (lines : list string) (md : metadata) : metadata :=
  match lines with
  | [] => md
  | line :: rest =>
      let md' := scan_line line md in
      if Py.truthy (version md') && Py.truthy (description md') then md'
      else scan_lines rest md'
  end.

Definition extract_local_metadata (f : file) : metadata :=
  let md := {| version := None; description := None |} in
  match f with
  | Unreadable => md
  | Content text => scan_lines (firstn SUMMARY_LINE_LIMIT (readlines text)) md
  end.

(** *** [format_row] *)

Definition sanitize (field : string) : string :=
  Py.replace_char "009" " " field.

Definition TAB : string := String "009" EmptyString.

(** The row, with the default [source="Stata"]; [location] is a path, which
    [sanitize] turns into text with [str]. *)
Definition format_row (package version description url : string)
           (location : path) (ssc_found ssc_url file_hash : string) : string :=
  let source := "Stata" in
  let columns :=
    [ sanitize package; sanitize version; sanitize source;
      sanitize "Reviewer"; sanitize "Installer"; sanitize description;
      sanitize url; sanitize (path_str location); sanitize ssc_found;
      sanitize ssc_url; sanitize file_hash ] in
  Py.join TAB columns.

Definition resolve_location (shared_root : path) (ado_path : option path)
  : path :=
  match ado_path with
  | Some p => parent p
  | None => shared_root
  end.

(** *** [load_hash_index] *)

(** The body of the loop over the manifest entries. *)
Definition add_entry (index : gmap string json) (entry : json)
  : result (gmap string json) :=
  relative ← py_get entry "RelativePath";
  hash_value ← py_get entry "Hash";
  if negb (is_true relative) || negb (is_true hash_value) then Ok index
  else
    key ← py_lower relative;
    Ok (<[key := hash_value]> index).

Fixpoint add_entries (index : gmap string json) (entries : list json)
  : result (gmap string json) :=
  match entries with
  | [] => Ok index
  | entry :: rest =>
      index' ← add_entry index entry;
      add_entries index' rest
  end.

(** [Path(mirror.get("RootPath", shared_root))] *)
Definition root_path (mirror : json) (shared_root : path) : result path :=
  match mirror with
  | JObject fields =>
      match assoc "RootPath" fields with
      | None => Ok shared_root
      | Some (JString s) => Ok (Path s)
      | Some _ => Raise TypeError
      end
  | _ => Raise AttributeError
  end.

Definition load_hash_index (h : host) (shared_root : path)
  : result (path * gmap string json) :=
  match baseline h with
  | Missing => Ok (shared_root, ∅)
  | ReadError | BadJson => Ok (shared_root, ∅)
  | BadEncoding => Raise UnicodeDecodeError
  | OtherFailure e => if is_oserror e then Ok (shared_root, ∅) else Raise e
  | Parsed manifest =>
      m ← py_get manifest "Mirror";
      let mirror := py_or m (JObject []) in
      root ← root_path mirror shared_root;
      fs ← py_get mirror "Files";
      entries ← py_iter (py_or fs (JArray []));
      index ← add_entries ∅ entries;
      Ok (root, index)
  end.

(** *** [print_report] *)

(** The lookup key of a file: its path relative to the manifest root, or its
    name when there is none. *)
Definition relative_key (hash_root ado_path : path) : string :=
  let relative :=
    match relpath ado_path hash_root with
    | Ok r => r
    | Raise _ => name ado_path
    end in
  Py.lower relative.

(** [hashes.get(relative.lower(), "")] *)
Definition hash_value_of (hash_root : path) (hashes : gmap string json)
           (ado_path : path) : json :=
  default (JString "") (hashes !! relative_key hash_root ado_path).

(** The body of the loop over the ado files: the line printed. *)
Definition report_row (h : host) (shared_root hash_root : path)
           (hashes : gmap string json) (ado : path * file) : string :=
  let '(ado_path, f) := ado in
  let name := stem ado_path in
  let meta := extract_local_metadata f in
  let version := Py.or_empty (version meta) in
  let description := Py.or_empty (description meta) in
  let location := resolve_location shared_root (Some ado_path) in
  let hash_value := hash_value_of hash_root hashes ado_path in
  format_row name version description "" location "" "" (py_str h hash_value).

(** The lines the run prints, or the exception that ends it. *)
Definition print_report (h : host) (shared_root : path)
  : result (list string) :=
  if negb (String.eqb (os_name h) "nt") then
    Raise (SystemExit "This script is intended to run on Windows hosts only.")
  else
    match shared_ado h with
    | None =>
        Raise (SystemExit ("Shared ado directory not found at "
                           ++ path_str shared_root
                           ++ ". Run stata-install-baseline.do first."))
    | Some t =>
        '(hash_root, hashes) ← load_hash_index h shared_root;
        Ok (map (report_row h shared_root hash_root hashes)
                (scan_ado_files shared_root t))
    end.

Definition DEFAULT_SHARED_ADO : path :=
  Path "C:/Program Files/Stata18/shared_ado".

(** The fields of a printed row. *)
Fixpoint fields_from (cur : list ascii) (s : string) : list string :=
  match s with
  | EmptyString => [string_of_list_ascii (rev cur)]
  | String c s' =>
      if Ascii.eqb c "009" then
        string_of_list_ascii (rev cur) :: fields_from [] s'
      else fields_from (c :: cur) s'
  end.

Definition fields (row : string) : list string := fields_from [] row.

Fixpoint count_tabs (s : string) : nat :=
  match s with
  | EmptyString => 0
  | String c s' => (if Ascii.eqb c "009" then 1 else 0) + count_tabs s'
  end.

End Report.

(** * Vocabulary of the statements *)

Import Re Cleanup Report.

(** ** The pruner *)

(** The values a dictionary holds under a key, none if the key is absent. *)
Fixpoint dict_get {K V : Type} `{EqDecision K} (k : K)
         (d : list (K * list V)) : list V :=
  match d with
  | [] => []
  | (k', vs) :: d' => if decide (k' = k) then vs else dict_get k d'
  end.

(** One step of a grouping loop: [classify] gives the key and the entry of a
    file name, or nothing. *)
Definition group_step {K : Type} `{EqDecision K}
           (classify : string -> option (K * entry))
           (d : list (K * list entry)) (file : string)
  : list (K * list entry) :=
  match classify file with
  | Some (k, e) => dict_append k e d
  | None => d
  end.

Definition classify_wheel (file : string)
  : option ((string * string) * entry) :=
  match match_groups wheel_pattern file with
  | Some (pkg_name, pkg_version, py_version) =>
      Some ((pkg_name, py_version), (pkg_version, file))
  | None => None
  end.

Definition classify_sdist (file : string) : option (string * entry) :=
  match match_groups sdist_pattern file with
  | Some (pkg_name, pkg_version, _) => Some (pkg_name, (pkg_version, file))
  | None => None
  end.

(** The entry of a file if it belongs under the key. *)
Definition select {K : Type} `{EqDecision K}
           (classify : string -> option (K * entry)) (k : K) (file : string)
  : option entry :=
  match classify file with
  | Some (k', e) => if decide (k' = k) then Some e else None
  | None => None
  end.

(** The files of all retention groups. *)
Definition all_files (dir : list string) : list string :=
  map snd (concat (retention_groups dir)).

(** The files the pruning loops keep. *)
Definition kept_files (keep : nat) (dir : list string) : list string :=
  concat (map (fun files => map snd (firstn keep (sorted_desc files)))
              (retention_groups dir)).

(** The body of the deletion loop. *)
Definition delete_entry (e : entry) : M unit :=
  _ ← print ("  Deleting " ++ snd e); unlink (snd e).

(** The lines the deletion loop prints for a group. *)
Definition deleting_lines (keep : nat) (files : list entry) : list string :=
  map (fun e => "  Deleting " +:+ snd e) (skipn keep (sorted_desc files)).

(** The progress line of a wheel group and of an sdist group. *)
Definition wheel_header (total : nat)
           (it : nat * ((string * string) * list entry)) : string :=
  "[" +:+ pretty (fst it) +:+ "/" +:+ pretty total +:+ "] Processing "
  +:+ fst (fst (snd it)) +:+ " (" +:+ snd (fst (snd it)) +:+ ")...".

Definition sdist_header (total : nat) (it : nat * (string * list entry))
  : string :=
  "[" +:+ pretty (fst it) +:+ "/" +:+ pretty total
  +:+ "] Processing source distributions for " +:+ fst (snd it) +:+ "...".

(** What a complete run prints. *)
Definition expected_stdout (keep : nat) (dir : list string) : list string :=
  concat (map (fun it => wheel_header (length (wheel_groups dir)) it
                         :: deleting_lines keep (snd (snd it)))
              (enumerate1 (wheel_groups dir)))
  ++ ["Wheel cleanup complete."]
  ++ concat (map (fun it => sdist_header (length (sdist_groups dir)) it
                            :: deleting_lines keep (snd (snd it)))
                 (enumerate1 (sdist_groups dir)))
  ++ ["Source distribution cleanup complete."].

(** [x] may stand before [y] in a list sorted by version, greatest first. *)
Definition version_ge (x y : entry) : Prop :=
  String.leb (fst y) (fst x) = true.

Fixpoint last_char (s : string) : option ascii :=
  match s with
  | EmptyString => None
  | String c s' =>
      match last_char s' with
      | Some d => Some d
      | None => Some c
      end
  end.

(** *** What a match is *)

Fixpoint all_in (k : cclass) (c : string) : bool :=
  match c with
  | EmptyString => true
  | String a c' => in_class k a && all_in k c'
  end.

(** [matches input r s g s' g']: [r] matches the text between the suffixes
    [s] and [s'] of [input] and turns the groups [g] into [g']. *)
Fixpoint matches (input : string) (r : regex) (s : string) (g : groups)
         (s' : string) (g' : groups) : Prop :=
  match r with
  | Bol => s' = s /\ g' = g /\ String.length s = String.length input
  | Eol => s' = s /\ g' = g /\ (s = "" \/ s = String "010" "")
  | Lit t => s = t +:+ s' /\ g' = g
  | Plus k | PlusLazy k =>
      exists c, s = c +:+ s' /\ c <> "" /\ all_in k c = true /\ g' = g
  | StarLazy k => exists c, s = c +:+ s' /\ all_in k c = true /\ g' = g
  | Seq r1 r2 =>
      exists s1 g1, matches input r1 s g s1 g1 /\ matches input r2 s1 g1 s' g'
  | Alt r1 r2 => matches input r1 s g s' g' \/ matches input r2 s g s' g'
  | Group n r1 =>
      exists g1,
        matches input r1 s g s' g1
        /\ g' = set_group n
                 (substring (String.length input - String.length s)
                            (String.length s - String.length s') input) g1
  end.

(** An interpreter tag: [cp] or [py] and digits, or [py2.py3]. *)
Definition is_interp_tag (t : string) : bool :=
  String.eqb t "py2.py3"
  || match t with
     | String c1 (String c2 d) =>
         (String.eqb (String c1 (String c2 "")) "cp"
          || String.eqb (String c1 (String c2 "")) "py")
         && negb (String.eqb d "") && all_in Digit d
     | _ => false
     end.

(** An archive extension of the sdist pattern. *)
Definition is_sdist_ext (t : string) : bool :=
  String.eqb t "tar.gz" || String.eqb t "tar.bz2" || String.eqb t "zip".

(** What [$] lets follow a match: nothing, or one final newline. *)
Definition is_tail (s : string) : bool :=
  String.eqb s "" || String.eqb s (String "010" "").

(** A version that begins with three runs of digits separated by dots. *)
Definition is_digit (c : ascii) : bool := in_class Digit c.

Fixpoint skip_digits (s : string) : string :=
  match s with
  | EmptyString => EmptyString
  | String c s' => if is_digit c then skip_digits s' else s
  end.

Definition digits_then (s : string) : option string :=
  match s with
  | String c s' => if is_digit c then Some (skip_digits s') else None
  | EmptyString => None
  end.

Definition three_numeric (v : string) : bool :=
  match digits_then v with
  | Some (String "." r1) =>
      match digits_then r1 with
      | Some (String "." r2) =>
          match digits_then r2 with
          | Some _ => true
          | None => false
          end
      | _ => false
      end
  | _ => false
  end.

(** The mirror of the example: four wheels of one package and a file that
    is no archive. *)
Definition example_mirror : list string :=
  [ "foo-1.0.0-cp311-cp311-win_amd64.whl";
    "foo-1.1.0-cp311-cp311-win_amd64.whl";
    "foo-1.2.0-cp311-cp311-win_amd64.whl";
    "foo-0.9.0-cp311-cp311-win_amd64.whl";
    "README.txt" ].

(** ** The reporter *)

(** [file_at t comps f]: in the tree [t], the directory names and the file
    name [comps] lead to the file [f]. *)
Inductive file_at : tree -> list string -> file -> Prop :=
| file_here (files : list (string * file)) (dirs : list (string * tree))
            (nm : string) (f : file) :
    In (nm, f) files -> file_at (Dir files dirs) [nm] f
| file_below (files : list (string * file)) (dirs : list (string * tree))
             (d : string) (sub : tree) (comps : list string) (f : file) :
    In (d, sub) dirs -> file_at sub comps f ->
    file_at (Dir files dirs) (d :: comps) f.

(** A tree in which the names listed in a directory are distinct. *)
Fixpoint tree_ok (t : tree) : Prop :=
  match t with
  | Dir files dirs =>
      NoDup (map fst files) /\ NoDup (map fst dirs)
      /\ (fix all (ds : list (string * tree)) : Prop :=
            match ds with
            | [] => True
            | (_, sub) :: ds' => tree_ok sub /\ all ds'
            end) dirs
  end.

(** The path [comps] below [root]. *)
Definition below (root : path) (comps : list string) : path :=
  {| drive := drive root; parts := parts root ++ comps |}.

(** The text of a comment line, markers and blanks stripped. *)
Definition comment_text (line : string) : option string :=
  let stripped := Py.strip line in
  if Py.startswith "*" stripped
  then Some (Py.strip (Py.lstrip_char "*" stripped))
  else None.

(** The version a line gives, if it is not a comment and has the token. *)
Definition version_of (line : string) : option string :=
  let stripped := Py.strip line in
  if Py.contains "version" (Py.lower stripped)
     && negb (Py.startswith "*" stripped)
  then find_version (Py.split (Py.lower stripped))
  else None.

(** The text of the first comment line that has any, or nothing. *)
Fixpoint first_text (lines : list string) : string :=
  match lines with
  | [] => ""
  | line :: rest =>
      match comment_text line with
      | Some (String c d) => String c d
      | _ => first_text rest
      end
  end.

(** A line a version can come from: not a comment, and holding the version
    right after the token ["version"]. *)
Definition version_from (line v : string) : Prop :=
  Py.startswith "*" (Py.strip line) = false
  /\ find_version (Py.split (Py.lower (Py.strip line))) = Some v.


(** A manifest of the expected shape: a root path and (relative path, hash)
    entries. *)
Definition entry_json (e : string * string) : json :=
  JObject [("RelativePath", JString (fst e)); ("Hash", JString (snd e))].

Definition manifest_json (root : string) (es : list (string * string)) : json :=
  JObject [("Mirror", JObject [("RootPath", JString root);
                               ("Files", JArray (map entry_json es))])].





(** Whether a parsed manifest has the expected shape: an object whose
    ["Mirror"] is an object with a string ["RootPath"] and a list ["Files"] of
    objects with string ["RelativePath"] and ["Hash"]. *)
Definition is_string (o : option json) : bool :=
  match o with
  | Some (JString _) => true
  | _ => false
  end.

Definition entry_shape (entry : json) : bool :=
  match entry with
  | JObject fs =>
      is_string (assoc "RelativePath" fs) && is_string (assoc "Hash" fs)
  | _ => false
  end.

Definition expected_shape (manifest : json) : bool :=
  match manifest with
  | JObject fields =>
      match assoc "Mirror" fields with
      | Some (JObject mirror) =>
          is_string (assoc "RootPath" mirror)
          && match assoc "Files" mirror with
             | Some (JArray entries) => forallb entry_shape entries
             | _ => false
             end
      | _ => false
      end
  | _ => false
  end.

(** The manifests the loader reads as no manifest at all: the file is
    absent, unreadable or not JSON; or it is an object whose ["Mirror"] is
    absent or false; or whose ["Mirror"] is an object with ["RootPath"]
    absent or a string and with ["Files"] absent, false, or a list of
    objects that each lack a true ["RelativePath"] or a true ["Hash"]. *)
Definition absent_or_false (o : option json) : bool :=
  match o with
  | None => true
  | Some v => negb (is_true v)
  end.

Definition skipped (entry : json) : bool :=
  match entry with
  | JObject fs =>
      absent_or_false (assoc "RelativePath" fs)
      || absent_or_false (assoc "Hash" fs)
  | _ => false
  end.

Definition reads_as_empty (b : manifest_file) : bool :=
  match b with
  | Missing | ReadError | BadJson => true
  | BadEncoding => false
  | OtherFailure e => is_oserror e
  | Parsed (JObject fields) =>
      match assoc "Mirror" fields with
      | Some (JObject []) => true
      | Some (JObject mirror) =>
          match assoc "RootPath" mirror with
          | None | Some (JString _) =>
              match assoc "Files" mirror with
              | Some (JArray entries) => forallb skipped entries
              | o => absent_or_false o
              end
          | Some _ => false
          end
      | o => absent_or_false o
      end
  | Parsed _ => false
  end.

(** A manifest without ["RootPath"], and a host that holds it. *)
Definition rootless_manifest : json :=
  JObject [("Mirror",
            JObject [("Files",
                      JArray [JObject [("RelativePath", JString "a.ado");
                                       ("Hash", JString "abc")]])])].

Definition rootless_host : host :=
  {| os_name := "nt";
     shared_ado := Some (Dir [("a.ado", Content "")] []);
     baseline := Parsed rootless_manifest;
     py_repr := fun _ => "" |}.


(** What the manifest holds under ["RootPath"] of its mirror object, if
    anything. *)
Definition declared_root (b : manifest_file) : option json :=
  match b with
  | Parsed (JObject fields) =>
      match py_or (default JNull (assoc "Mirror" fields)) (JObject []) with
      | JObject mirror => assoc "RootPath" mirror
      | _ => None
      end
  | _ => None
  end.

(** The text holds no white space. *)
Definition no_space (s : string) : bool :=
  forallb (fun c => negb (Py.isspace c)) (list_ascii_of_string s).


(** * Properties *)

(** ** Strings *)

Section StringFacts.
Local Open Scope string_scope.

Lemma append_cons (c : ascii) (s t : string) :
  String c s ++ t = String c (s ++ t).
Proof. reflexivity. Qed.

Lemma append_nil_l (s : string) : "" ++ s = s.
Proof. reflexivity. Qed.

Lemma append_nil_r (s : string) : s ++ "" = s.
Proof.
  induction s as [|c s IH]; [reflexivity|]. rewrite append_cons. congruence.
Qed.

Lemma append_assoc (s t u : string) : (s ++ t) ++ u = s ++ t ++ u.
Proof.
  induction s as [|c s IH]; [reflexivity|]. rewrite !append_cons. congruence.
Qed.

Lemma length_append (s t : string) :
  String.length (s ++ t) = String.length s + String.length t.
Proof.
  induction s as [|c s IH]; [reflexivity|]. rewrite append_cons. simpl.
  congruence.
Qed.

Lemma of_list_app (l k : list ascii) :
  string_of_list_ascii (l ++ k)
  = string_of_list_ascii l ++ string_of_list_ascii k.
Proof.
  induction l as [|c l IH]; [reflexivity|]. simpl. rewrite append_cons.
  congruence.
Qed.

Lemma of_list_rev_cons (c : ascii) (cur : list ascii) :
  string_of_list_ascii (rev (c :: cur))
  = string_of_list_ascii (rev cur) ++ String c "".
Proof. simpl. now rewrite of_list_app. Qed.

Lemma count_tabs_app (s t : string) :
  count_tabs (s ++ t) = count_tabs s + count_tabs t.
Proof.
  induction s as [|c s IH]; [reflexivity|]. rewrite append_cons. simpl.
  rewrite IH. lia.
Qed.

Lemma count_tabs_sanitize (s : string) : count_tabs (sanitize s) = 0.
Proof.
  unfold sanitize. induction s as [|c s IH]; simpl; [reflexivity|].
  rewrite IH. destruct (Ascii.eqb c "009") eqn:E; [reflexivity|].
  now rewrite E.
Qed.

(** Reading fields off a text without tabs just accumulates it. *)
Lemma fields_from_no_tab (s rest : string) (cur : list ascii) :
  count_tabs s = 0 ->
  fields_from cur (s ++ rest)
  = fields_from (rev (list_ascii_of_string s) ++ cur)%list rest.
Proof.
  revert cur. induction s as [|c s IH]; intros cur H.
  - reflexivity.
  - rewrite append_cons. simpl in *.
    destruct (Ascii.eqb c "009") eqn:E; [discriminate|].
    rewrite IH by lia. now rewrite <- app_assoc.
Qed.

Lemma fields_from_end (s : string) (cur : list ascii) :
  count_tabs s = 0 ->
  fields_from cur s
  = [string_of_list_ascii (rev cur) ++ s].
Proof.
  intros H. rewrite <- (append_nil_r s) at 1.
  rewrite fields_from_no_tab by exact H. simpl.
  rewrite rev_app_distr, rev_involutive, of_list_app.
  now rewrite string_of_list_ascii_of_string.
Qed.

Lemma fields_join (cols : list string) (cur : list ascii) :
  cols <> [] ->
  Forall (fun c => count_tabs c = 0) cols ->
  fields_from cur (Py.join TAB cols)
  = match cols with
    | [] => []
    | c :: cols' => (string_of_list_ascii (rev cur) ++ c) :: cols'
    end.
Proof.
  intros Hne Hall. revert cur.
  induction Hall as [|c cols Hc Hall IH]; [contradiction|]. intros cur.
  destruct cols as [|d cols].
  - simpl. now apply fields_from_end.
  - change (Py.join TAB (c :: d :: cols))
      with (c ++ TAB ++ Py.join TAB (d :: cols)).
    rewrite fields_from_no_tab by exact Hc.
    change (TAB ++ Py.join TAB (d :: cols))
      with (String "009" (Py.join TAB (d :: cols))).
    cbn [fields_from]. change (Ascii.eqb "009" "009") with true. cbn iota.
    rewrite rev_app_distr, rev_involutive, of_list_app.
    rewrite string_of_list_ascii_of_string.
    rewrite (IH ltac:(discriminate) []). simpl. reflexivity.
Qed.

Lemma count_tabs_join (cols : list string) :
  Forall (fun c => count_tabs c = 0) cols ->
  count_tabs (Py.join TAB cols) = length cols - 1.
Proof.
  induction 1 as [|c cols Hc Hall IH]; [reflexivity|].
  destruct cols as [|d cols]; [simpl; lia|].
  change (Py.join TAB (c :: d :: cols))
    with (c ++ TAB ++ Py.join TAB (d :: cols)).
  rewrite !count_tabs_app, Hc, IH. simpl. lia.
Qed.

End StringFacts.

(** ** The row formatter *)

Lemma sanitized_columns (cols : list string) :
  Forall (fun c => count_tabs c = 0) (map sanitize cols).
Proof.
  induction cols; constructor; [apply count_tabs_sanitize|assumption].
Qed.

Lemma format_row_fields
  (package version description url : string) (location : path)
  (ssc_found ssc_url file_hash : string) :
  fields (format_row package version description url location
                     ssc_found ssc_url file_hash)
  = [ sanitize package; sanitize version; "Stata"; "Reviewer";
      "Installer"; sanitize description; sanitize url;
      sanitize (path_str location); sanitize ssc_found;
      sanitize ssc_url; sanitize file_hash ].
Proof.
  unfold fields, format_row.
  rewrite fields_join; [reflexivity|discriminate|].
  apply (sanitized_columns
           [package; version; "Stata"; "Reviewer"; "Installer"; description;
            url; path_str location; ssc_found; ssc_url; file_hash]).
Qed.

Lemma format_row_tabs
  (package version description url : string) (location : path)
  (ssc_found ssc_url file_hash : string) :
  count_tabs (format_row package version description url location
                         ssc_found ssc_url file_hash) = 10.
Proof.
  unfold format_row. rewrite count_tabs_join; [reflexivity|].
  apply (sanitized_columns
           [package; version; "Stata"; "Reviewer"; "Installer"; description;
            url; path_str location; ssc_found; ssc_url; file_hash]).
Qed.

(** C8: every row built by [format_row] holds exactly ten tabs and reads
    back as exactly eleven fields, whatever the field values are: each field
    is the value with its tabs turned into spaces. *)
Theorem format_row_eleven_fields
  (package version description url : string) (location : path)
  (ssc_found ssc_url file_hash : string) :
  let row := format_row package version description url location
                        ssc_found ssc_url file_hash in
  count_tabs row = 10
  /\ length (fields row) = 11
  /\ fields row
     = [ sanitize package; sanitize version; "Stata"; "Reviewer";
         "Installer"; sanitize description; sanitize url;
         sanitize (path_str location); sanitize ssc_found;
         sanitize ssc_url; sanitize file_hash ]
  /\ Forall (fun f => count_tabs f = 0) (fields row).
Proof.
  intros row. subst row. rewrite format_row_fields, format_row_tabs.
  split; [reflexivity|split; [reflexivity|split; [reflexivity|]]].
  apply (sanitized_columns
           [package; version; "Stata"; "Reviewer"; "Installer"; description;
            url; path_str location; ssc_found; ssc_url; file_hash]).
Qed.

(** ** The metadata extractor *)

Section Metadata.

Lemma lower_char_idem (c : ascii) :
  Py.lower_char (Py.lower_char c) = Py.lower_char c.
Proof. destruct c as [[] [] [] [] [] [] [] []]; reflexivity. Qed.

Lemma lower_idem (s : string) : Py.lower (Py.lower s) = Py.lower s.
Proof.
  induction s as [|c s IH]; simpl; [reflexivity|].
  now rewrite lower_char_idem, IH.
Qed.

Lemma lower_of_list (l : list ascii) :
  Py.lower (string_of_list_ascii l)
  = string_of_list_ascii (map Py.lower_char l).
Proof. induction l as [|c l IH]; simpl; congruence. Qed.

Lemma lower_fixed_of_list (l : list ascii) :
  Forall (fun c => Py.lower_char c = c) l ->
  Py.lower (string_of_list_ascii l) = string_of_list_ascii l.
Proof.
  intros H. rewrite lower_of_list. f_equal.
  induction H as [|c l Hc Hl IH]; simpl; congruence.
Qed.

(** The tokens of a lower-cased text are lower-cased. *)
Lemma split_from_lower (s : string) (cur : list ascii) :
  Forall (fun c => Py.lower_char c = c) cur ->
  Py.lower s = s ->
  Forall (fun t => Py.lower t = t) (Py.split_from cur s).
Proof.
  revert cur. induction s as [|c s IH]; intros cur Hcur Hs.
  - simpl. destruct cur; constructor; [|constructor].
    apply lower_fixed_of_list. now apply Forall_rev.
  - simpl in Hs. injection Hs as Hc Hs'. simpl.
    destruct (Py.isspace c).
    + apply Forall_app. split; [|apply IH; [constructor|exact Hs']].
      destruct cur; constructor; [|constructor].
      apply lower_fixed_of_list. now apply Forall_rev.
    + apply IH; [constructor; assumption|exact Hs'].
Qed.

Lemma split_lower (s : string) :
  Forall (fun t => Py.lower t = t) (Py.split (Py.lower s)).
Proof. apply split_from_lower; [constructor|apply lower_idem]. Qed.

(** [find_version] returns the token that follows the first ["version"]. *)
Lemma find_version_spec (tokens : list string) (v : string) :
  find_version tokens = Some v <->
  exists pre post,
    tokens = pre ++ "version" :: v :: post /\ ~ In "version" pre.
Proof.
  split.
  - induction tokens as [|t rest IH]; simpl; [discriminate|].
    destruct (String.eqb_spec t "version") as [->|Hne].
    + destruct rest as [|next rest']; [discriminate|].
      intros [= ->]. exists [], rest'. split; [reflexivity|intros []].
    + intros H. destruct (IH H) as (pre & post & -> & Hpre).
      exists (t :: pre), post. split; [reflexivity|].
      intros [E|Hin]; [congruence|contradiction].
  - intros (pre & post & -> & Hpre).
    induction pre as [|t pre IH]; simpl.
    + reflexivity.
    + destruct (String.eqb_spec t "version") as [->|Hne].
      * exfalso. apply Hpre. now left.
      * apply IH. intros Hin. apply Hpre. now right.
Qed.

Lemma find_version_in (tokens : list string) (v : string) :
  find_version tokens = Some v -> In v tokens.
Proof.
  intros H. apply find_version_spec in H as (pre & post & -> & _).
  apply in_or_app. right. right. now left.
Qed.

Lemma scan_line_version (line : string) (md : metadata) (v : string) :
  version (scan_line line md) = Some v ->
  version md = Some v \/ version_from line v.
Proof.
  unfold scan_line, version_from.
  set (md1 := if _ : bool then _ else md).
  assert (Hmd1 : version md1 = version md).
  { subst md1. now destruct (_ && _). }
  destruct (Py.contains _ _); simpl.
  - destruct (Py.startswith "*" (Py.strip line)); simpl.
    + rewrite Hmd1. now left.
    + destruct (find_version _) eqn:E; simpl.
      * intros [= ->]. now right.
      * rewrite Hmd1. now left.
  - rewrite Hmd1. now left.
Qed.

Lemma scan_lines_version (lines : list string) (md : metadata) (v : string) :
  version (scan_lines lines md) = Some v ->
  version md = Some v \/ exists line, In line lines /\ version_from line v.
Proof.
  revert md. induction lines as [|line rest IH]; intros md; simpl.
  - now left.
  - destruct (_ && _).
    + intros H. apply scan_line_version in H as [H|H]; [now left|].
      right. exists line. split; [now left|exact H].
    + intros H. apply IH in H as [H|(l & Hin & Hl)].
      * apply scan_line_version in H as [H|H]; [now left|].
        right. exists line. split; [now left|exact H].
      * right. exists l. split; [now right|exact Hl].
Qed.

Lemma extract_version_from (f : file) (v : string) :
  version (extract_local_metadata f) = Some v ->
  exists text line,
    f = Content text
    /\ In line (firstn SUMMARY_LINE_LIMIT (readlines text))
    /\ version_from line v.
Proof.
  destruct f as [|text]; simpl; [discriminate|].
  intros H. apply scan_lines_version in H as [H|(line & Hin & Hl)].
  - discriminate.
  - now exists text, line.
Qed.

End Metadata.




(** C10: a version reported by the extractor is lower-cased text, since the
    token is taken from the lower-cased line; a header line
    ["version 2.1B"] gives ["2.1b"]. *)
Theorem version_is_lower_case :
  (forall (f : file) (v : string),
      version (extract_local_metadata f) = Some v -> Py.lower v = v)
  /\ version (extract_local_metadata
                (Content ("version 2.1B" +:+ String "010" "")))
     = Some "2.1b".
Proof.
  split; [|vm_compute; reflexivity].
  intros f v H.
  apply extract_version_from in H as (text & line & _ & _ & _ & Hv).
  apply find_version_in in Hv.
  pose proof (split_lower (Py.strip line)) as Hall.
  rewrite List.Forall_forall in Hall. now apply Hall.
Qed.

Lemma version_is_lower_case_witness :
  Py.lower "2.1b" = "2.1b".
Proof.
  apply (proj1 version_is_lower_case
               (Content ("version 2.1B" +:+ String "010" ""))).
  vm_compute. reflexivity.
Defined.

(** ** The inventory report *)

Section ReportFacts.

Lemma print_report_rows (h : host) (shared_root hash_root : path)
      (hashes : gmap string json) (t : tree) :
  os_name h = "nt" ->
  shared_ado h = Some t ->
  load_hash_index h shared_root = Ok (hash_root, hashes) ->
  print_report h shared_root
  = Ok (map (report_row h shared_root hash_root hashes)
            (scan_ado_files shared_root t)).
Proof.
  intros Hos Ht Hload. unfold print_report.
  rewrite Hos, Ht. simpl. rewrite Hload. reflexivity.
Qed.

Lemma report_row_fields (h : host) (shared_root hash_root : path)
      (hashes : gmap string json) (p : path) (f : file) :
  fields (report_row h shared_root hash_root hashes (p, f))
  = [ sanitize (stem p);
      sanitize (Py.or_empty (version (extract_local_metadata f)));
      "Stata"; "Reviewer"; "Installer";
      sanitize (Py.or_empty (description (extract_local_metadata f)));
      ""; sanitize (path_str (parent p)); ""; "";
      sanitize (py_str h (hash_value_of hash_root hashes p)) ].
Proof. unfold report_row. now rewrite format_row_fields. Qed.

Lemma hash_value_of_empty (hash_root p : path) :
  hash_value_of hash_root ∅ p = JString "".
Proof. unfold hash_value_of. now rewrite lookup_empty. Qed.

Lemma absent_or_false_get (o : option json) :
  absent_or_false o = true -> is_true (default JNull o) = false.
Proof. destruct o as [v|]; simpl; [|reflexivity]. now destruct (is_true v). Qed.

Lemma add_entry_skipped (index : gmap string json) (entry : json) :
  skipped entry = true -> add_entry index entry = Ok index.
Proof.
  destruct entry as [| | | | |items|fs]; simpl; try discriminate.
  intros H. unfold add_entry. simpl.
  apply orb_true_iff in H as [H|H]; apply absent_or_false_get in H;
    rewrite H; simpl; [reflexivity|].
  now rewrite orb_true_r.
Qed.

Lemma add_entries_skipped (index : gmap string json) (entries : list json) :
  forallb skipped entries = true -> add_entries index entries = Ok index.
Proof.
  induction entries as [|e rest IH]; simpl; [reflexivity|].
  intros H. apply andb_true_iff in H as [He Hrest].
  rewrite add_entry_skipped by exact He. simpl. now apply IH.
Qed.

Lemma load_mirror_empty (mf : list (string * json)) (shared_root : path) :
  match assoc "RootPath" mf with
  | None | Some (JString _) =>
      match assoc "Files" mf with
      | Some (JArray entries) => forallb skipped entries
      | o => absent_or_false o
      end
  | Some _ => false
  end = true ->
  exists root,
    (root ← root_path (JObject mf) shared_root;
     fs ← py_get (JObject mf) "Files";
     entries ← py_iter (py_or fs (JArray []));
     index ← add_entries ∅ entries;
     Ok (root, index)) = Ok (root, ∅).
Proof.
  unfold root_path, py_get.
  assert (Hfiles : forall root : path,
    match assoc "Files" mf with
    | Some (JArray entries) => forallb skipped entries
    | o => absent_or_false o
    end = true ->
    (entries ← py_iter (py_or (default JNull (assoc "Files" mf)) (JArray []));
     index ← add_entries ∅ entries;
     Ok (root, index)) = Ok (root, ∅)).
  { intros root. destruct (assoc "Files" mf) as [fs|]; [|reflexivity].
    unfold py_or.
    destruct fs as [|b|n|nz|s|entries|o]; simpl;
      try (intros H; try apply negb_true_iff in H; rewrite ?H; reflexivity).
    intros H. destruct entries as [|e es]; [reflexivity|].
    simpl negb. cbv iota. simpl py_iter.
    change (add_entries ∅ (e :: es) ≫= (fun index => Ok (root, index))
            = Ok (root, ∅)).
    now rewrite add_entries_skipped. }
  destruct (assoc "RootPath" mf) as [r|].
  - destruct r as [| | | |s| |]; try discriminate.
    intros H. exists (Path s). simpl. now apply Hfiles.
  - intros H. exists shared_root. simpl. now apply Hfiles.
Qed.

Lemma load_reads_as_empty (h : host) (shared_root : path) :
  reads_as_empty (baseline h) = true ->
  exists root, load_hash_index h shared_root = Ok (root, ∅).
Proof.
  unfold load_hash_index.
  destruct (baseline h) as [| | | |manifest|e]; simpl; try discriminate;
    try (intros _; now exists shared_root).
  2: { intros H. rewrite H. now exists shared_root. }
  destruct manifest as [| | | | | |fields]; try discriminate.
  simpl. destruct (assoc "Mirror" fields) as [m|]; simpl;
    [|intros _; now exists shared_root].
  destruct m as [|b|n|nz|s|items|mirror]; simpl;
    try (intros H; try apply negb_true_iff in H; simpl in H;
         unfold py_or; simpl; rewrite ?H; simpl;
         now exists shared_root).
  destruct mirror as [|kv mirror]; [intros _; now exists shared_root|].
  remember (kv :: mirror) as mf eqn:Hmf.
  intros H. apply (load_mirror_empty mf shared_root) in H as [root H].
  assert (Ht : is_true (JObject mf) = true) by (now subst mf).
  exists root. unfold py_or. rewrite Ht. exact H.
Qed.

End ReportFacts.

(** Deviations the loader does not absorb: a manifest that is a list, bytes
    that are not utf-8, or a text nested beyond the recursion limit of the
    parser, end the run with an exception. *)
Remark wrongly_typed_manifest_raises (shared_root : path) :
  load_hash_index {| os_name := "nt"; shared_ado := None;
                     baseline := Parsed (JArray []);
                     py_repr := fun _ => "" |} shared_root
  = Raise AttributeError
  /\ load_hash_index {| os_name := "nt"; shared_ado := None;
                        baseline := BadEncoding;
                        py_repr := fun _ => "" |} shared_root
     = Raise UnicodeDecodeError
  /\ load_hash_index {| os_name := "nt"; shared_ado := None;
                        baseline := OtherFailure RecursionError;
                        py_repr := fun _ => "" |} shared_root
     = Raise RecursionError.
Proof. repeat split; reflexivity. Qed.

(** C4, as stated, fails: a manifest that deviates from the expected shape
    (it has no ["RootPath"]) is not read as empty; its entry is indexed and
    its hash is printed. *)
Lemma rootless_manifest_is_indexed :
  expected_shape rootless_manifest = false
  /\ ~ (exists root,
         load_hash_index rootless_host DEFAULT_SHARED_ADO = Ok (root, ∅))
  /\ exists row,
      print_report rootless_host DEFAULT_SHARED_ADO = Ok [row]
      /\ nth_error (fields row) 10 = Some "abc".
Proof.
  split; [reflexivity|split].
  - intros [root H]. vm_compute in H. discriminate H.
  - eexists. split; vm_compute; reflexivity.
Qed.

(** C4, amended: when the manifest file is absent, cannot be read
    ([OSError]) or is rejected by the parser with [JSONDecodeError], the
    loader returns the shared root and an empty mapping; and for every
    manifest the loader reads as empty (those three, another [OSError], an
    object without a true ["Mirror"], or a mirror object whose ["RootPath"]
    is absent or a string and whose ["Files"] is absent, false or holds only
    objects without a true ["RelativePath"] or ["Hash"]) it returns an empty
    mapping, and the run on a Windows host with the root present completes
    with one row per ado file, each with an empty hash field.  Any other
    exception of reading or parsing, as [RecursionError] for a text nested
    beyond the recursion limit, is not absorbed. *)
Theorem manifest_degrades_to_empty (h : host) (shared_root : path) :
  reads_as_empty (baseline h) = true ->
  (In (baseline h) [Missing; ReadError; BadJson] ->
   load_hash_index h shared_root = Ok (shared_root, ∅))
  /\ (exists root, load_hash_index h shared_root = Ok (root, ∅))
  /\ forall t : tree,
      os_name h = "nt" ->
      shared_ado h = Some t ->
      exists rows,
        print_report h shared_root = Ok rows
        /\ length rows = length (scan_ado_files shared_root t)
        /\ forall row, In row rows -> nth_error (fields row) 10 = Some "".
Proof.
  intros Hempty. split; [|split].
  - unfold load_hash_index.
    intros [<-|[<-|[<-|[]]]]; reflexivity.
  - now apply load_reads_as_empty.
  - intros t Hos Ht.
    destruct (load_reads_as_empty h shared_root Hempty) as [root Hload].
    eexists. split; [now apply (print_report_rows h _ root ∅ t)|].
    split; [now rewrite length_map|].
    intros row Hin. apply in_map_iff in Hin as ([p f] & <- & _).
    rewrite report_row_fields, hash_value_of_empty. reflexivity.
Qed.

Lemma manifest_degrades_to_empty_witness :
  exists rows,
    print_report {| os_name := "nt";
                    shared_ado := Some (Dir [("a.ado", Content "")] []);
                    baseline := BadJson;
                    py_repr := fun _ => "" |} DEFAULT_SHARED_ADO = Ok rows
    /\ length rows = 1
    /\ forall row, In row rows -> nth_error (fields row) 10 = Some "".
Proof.
  refine (proj2 (proj2 (manifest_degrades_to_empty
            {| os_name := "nt";
               shared_ado := Some (Dir [("a.ado", Content "")] []);
               baseline := BadJson;
               py_repr := fun _ => "" |} DEFAULT_SHARED_ADO _))
            (Dir [("a.ado", Content "")] []) _ _);
    reflexivity.
Defined.

(** C7: on a Windows host with the root present and a manifest that loads,
    the run completes with one row per ado file of the walk, in walk order,
    whatever can or cannot be read; the row of a file that cannot be read
    carries the file's stem and empty version and description fields. *)
Theorem unreadable_file_is_reported
  (h : host) (shared_root hash_root : path) (hashes : gmap string json)
  (t : tree) :
  os_name h = "nt" ->
  shared_ado h = Some t ->
  load_hash_index h shared_root = Ok (hash_root, hashes) ->
  exists rows,
    print_report h shared_root = Ok rows
    /\ length rows = length (scan_ado_files shared_root t)
    /\ forall (i : nat) (p : path),
        scan_ado_files shared_root t !! i = Some (p, Unreadable) ->
        exists row,
          rows !! i = Some row
          /\ nth_error (fields row) 0 = Some (sanitize (stem p))
          /\ nth_error (fields row) 1 = Some ""
          /\ nth_error (fields row) 5 = Some "".
Proof.
  intros Hos Ht Hload.
  eexists. split; [now apply (print_report_rows h _ hash_root hashes t)|].
  split; [now rewrite length_map|].
  intros i p Hi.
  exists (report_row h shared_root hash_root hashes (p, Unreadable)).
  split; [now rewrite list_lookup_fmap, Hi|].
  rewrite report_row_fields. now repeat split.
Qed.

Lemma unreadable_file_is_reported_witness :
  exists rows,
    print_report {| os_name := "nt";
                    shared_ado :=
                      Some (Dir [("a.ado", Unreadable)]
                                [("sub", Dir [("b.ado", Content "* x")] [])]);
                    baseline := Missing;
                    py_repr := fun _ => "" |} DEFAULT_SHARED_ADO = Ok rows
    /\ length rows = 2
    /\ forall (i : nat) (p : path),
        [ (joinpath DEFAULT_SHARED_ADO "a.ado", Unreadable);
          (joinpath (joinpath DEFAULT_SHARED_ADO "sub") "b.ado",
           Content "* x") ] !! i = Some (p, Unreadable) ->
        exists row,
          rows !! i = Some row
          /\ nth_error (fields row) 0 = Some (sanitize (stem p))
          /\ nth_error (fields row) 1 = Some ""
          /\ nth_error (fields row) 5 = Some "".
Proof.
  refine (unreadable_file_is_reported
            {| os_name := "nt";
               shared_ado :=
                 Some (Dir [("a.ado", Unreadable)]
                           [("sub", Dir [("b.ado", Content "* x")] [])]);
               baseline := Missing;
               py_repr := fun _ => "" |}
            DEFAULT_SHARED_ADO DEFAULT_SHARED_ADO ∅
            (Dir [("a.ado", Unreadable)]
                 [("sub", Dir [("b.ado", Content "* x")] [])]) _ _ _);
    reflexivity.
Defined.

(** ** The manifest lookup *)

Section Lookup.







End Lookup.




(** ** The version sort *)

Section VersionSort.

Lemma leb_iff (a b : string) :
  String.leb a b = true <-> a = b \/ String_as_OT.lt a b.
Proof.
  unfold String.leb. split.
  - destruct (String.compare a b) eqn:E; intros H.
    + left. now apply String_as_OT.cmp_eq.
    + right. now apply String_as_OT.cmp_lt.
    + discriminate.
  - intros [->|H].
    + replace (String.compare b b) with Eq; [reflexivity|].
      symmetry. now apply String_as_OT.cmp_eq.
    + apply String_as_OT.cmp_lt in H. unfold String_as_OT.cmp in H.
      now rewrite H.
Qed.

Lemma leb_trans (a b c : string) :
  String.leb a b = true -> String.leb b c = true -> String.leb a c = true.
Proof.
  rewrite !leb_iff. intros [->|Hab] [->|Hbc]; auto.
  right. eapply String_as_OT.lt_trans; eassumption.
Qed.

Lemma ltb_leb (a b : string) : String.ltb a b = true -> String.leb a b = true.
Proof.
  unfold String.ltb, String.leb. now destruct (String.compare a b).
Qed.

Lemma not_ltb_leb (a b : string) :
  String.ltb a b = false -> String.leb b a = true.
Proof.
  unfold String.ltb, String.leb. rewrite (String.compare_antisym b a).
  now destruct (String.compare a b).
Qed.

Lemma version_ge_trans (x y z : entry) :
  version_ge x y -> version_ge y z -> version_ge x z.
Proof. unfold version_ge. intros Hxy Hyz. eapply leb_trans; eassumption. Qed.

Lemma insert_desc_perm (x : entry) (l : list entry) :
  insert_desc x l ≡ₚ x :: l.
Proof.
  induction l as [|y l IH]; simpl; [reflexivity|].
  destruct (String.ltb (fst x) (fst y)); [|reflexivity].
  rewrite IH. apply Permutation_swap.
Qed.

Lemma sorted_desc_perm (l : list entry) : sorted_desc l ≡ₚ l.
Proof.
  induction l as [|x l IH]; simpl; [reflexivity|].
  fold (sorted_desc l). now rewrite insert_desc_perm, IH.
Qed.

Lemma sorted_desc_length (l : list entry) :
  length (sorted_desc l) = length l.
Proof. apply Permutation_length, sorted_desc_perm. Qed.

Lemma insert_desc_sorted (x : entry) (l : list entry) :
  StronglySorted version_ge l -> StronglySorted version_ge (insert_desc x l).
Proof.
  induction 1 as [|y l Hl IH Hy]; simpl.
  - repeat constructor.
  - destruct (String.ltb (fst x) (fst y)) eqn:E.
    + constructor; [exact IH|].
      rewrite List.Forall_forall. intros z Hz.
      apply (Permutation_in _ (insert_desc_perm x l)) in Hz as [<-|Hz].
      * now apply ltb_leb.
      * rewrite List.Forall_forall in Hy. now apply Hy.
    + assert (Hxy : version_ge x y) by now apply not_ltb_leb.
      constructor; [now constructor|].
      constructor; [exact Hxy|].
      eapply List.Forall_impl; [|exact Hy].
      intros z Hz. eapply version_ge_trans; eassumption.
Qed.

Lemma sorted_desc_sorted (l : list entry) :
  StronglySorted version_ge (sorted_desc l).
Proof.
  induction l as [|x l IH]; simpl; [constructor|].
  now apply insert_desc_sorted.
Qed.

Lemma sorted_app_ge (l1 l2 : list entry) :
  StronglySorted version_ge (l1 ++ l2) ->
  forall a b, In a l1 -> In b l2 -> version_ge a b.
Proof.
  induction l1 as [|x l1 IH]; simpl; intros Hs a b Ha Hb; [contradiction|].
  inversion Hs as [|? ? Hs' Hx]; subst.
  destruct Ha as [<-|Ha].
  - rewrite List.Forall_forall in Hx. apply Hx, in_or_app. now right.
  - now apply IH.
Qed.

(** The entries kept stand before the entries dropped. *)
Lemma kept_ge_dropped (keep : nat) (files : list entry) (a b : entry) :
  In a (firstn keep (sorted_desc files)) ->
  In b (skipn keep (sorted_desc files)) ->
  version_ge a b.
Proof.
  apply sorted_app_ge. rewrite firstn_skipn. apply sorted_desc_sorted.
Qed.

End VersionSort.

(** ** Grouping *)

Section Dict.
Context {K V : Type} `{EqDecision K}.
Implicit Types (k : K) (v : V) (d : list (K * list V)).

Lemma dict_get_append_eq k v d :
  dict_get k (dict_append k v d) = dict_get k d ++ [v].
Proof.
  induction d as [|[k' vs] d IH]; simpl.
  - now rewrite decide_True.
  - destruct (decide (k' = k)) as [->|Hne]; simpl.
    + now rewrite decide_True.
    + now rewrite decide_False.
Qed.

Lemma dict_get_append_ne k k' v d :
  k <> k' -> dict_get k' (dict_append k v d) = dict_get k' d.
Proof.
  intros Hne. induction d as [|[k0 vs] d IH]; simpl.
  - now rewrite decide_False.
  - destruct (decide (k0 = k)) as [->|Hne0]; simpl.
    + now rewrite !decide_False.
    + destruct (decide (k0 = k')); [reflexivity|exact IH].
Qed.

Lemma dict_append_values k v d :
  concat (map snd (dict_append k v d)) ≡ₚ v :: concat (map snd d).
Proof.
  induction d as [|[k' vs] d IH]; simpl; [reflexivity|].
  destruct (decide (k' = k)); simpl.
  - rewrite <- app_assoc. simpl.
    now rewrite <- Permutation_middle.
  - rewrite IH. now rewrite <- Permutation_middle.
Qed.

Lemma dict_get_elem k d :
  dict_get k d <> [] -> (k, dict_get k d) ∈ d.
Proof.
  induction d as [|[k' vs] d IH]; simpl; [congruence|].
  destruct (decide (k' = k)) as [->|Hne]; intros Hget.
  - apply list_elem_of_here.
  - apply list_elem_of_further. now apply IH.
Qed.

Lemma dict_append_keys k v d :
  NoDup (map fst d) -> NoDup (map fst (dict_append k v d)).
Proof.
  induction d as [|[k' vs] d IH]; simpl; intros Hnd.
  - apply NoDup_singleton.
  - destruct (decide (k' = k)) as [->|Hne]; simpl; [exact Hnd|].
    apply NoDup_cons in Hnd as [Hk' Hnd].
    apply NoDup_cons. split; [|now apply IH].
    clear IH Hnd. induction d as [|[k0 vs0] d IH]; simpl in *.
    + apply not_elem_of_cons. split; [exact Hne|apply not_elem_of_nil].
    + apply not_elem_of_cons in Hk' as [Hk0 Hk'].
      destruct (decide (k0 = k)); simpl;
        apply not_elem_of_cons; (split; [exact Hk0|]); auto.
Qed.

Lemma dict_get_unique k vs d :
  NoDup (map fst d) -> (k, vs) ∈ d -> dict_get k d = vs.
Proof.
  induction d as [|[k' vs'] d IH]; simpl; intros Hnd Hin.
  - now apply elem_of_nil in Hin.
  - apply NoDup_cons in Hnd as [Hk' Hnd].
    apply elem_of_cons in Hin as [[= -> ->]|Hin].
    + now rewrite decide_True.
    + destruct (decide (k' = k)) as [->|Hne]; [|now apply IH].
      exfalso. apply Hk'. apply list_elem_of_fmap. now exists (k, vs).
Qed.

End Dict.

Section Grouping.
Context {K : Type} `{EqDecision K}.
Variable classify : string -> option (K * entry).
Implicit Types (k : K) (d : list (K * list entry)) (l : list string).

Lemma group_keys l d :
  NoDup (map fst d) -> NoDup (map fst (fold_left (group_step classify) l d)).
Proof.
  revert d. induction l as [|x l IH]; intros d Hnd; simpl; [exact Hnd|].
  apply IH. unfold group_step.
  destruct (classify x) as [[k e]|]; [now apply dict_append_keys|exact Hnd].
Qed.

Lemma group_get k l d :
  dict_get k (fold_left (group_step classify) l d)
  = dict_get k d ++ omap (select classify k) l.
Proof.
  revert d. induction l as [|x l IH]; intros d; simpl.
  - now rewrite app_nil_r.
  - rewrite IH. unfold group_step, select.
    destruct (classify x) as [[k' e]|]; [|reflexivity].
    destruct (decide (k' = k)) as [->|Hne].
    + rewrite dict_get_append_eq, <- app_assoc. reflexivity.
    + now rewrite dict_get_append_ne.
Qed.

Lemma group_values l d :
  concat (map snd (fold_left (group_step classify) l d))
  ≡ₚ concat (map snd d) ++ omap (fun x => snd <$> classify x) l.
Proof.
  revert d. induction l as [|x l IH]; intros d; simpl.
  - now rewrite app_nil_r.
  - rewrite IH. unfold group_step.
    destruct (classify x) as [[k e]|]; simpl; [|reflexivity].
    rewrite dict_append_values. now rewrite <- Permutation_middle.
Qed.

(** A file that is not classified leaves the groups as they are. *)
Lemma group_skip (name : string) l d :
  classify name = None ->
  fold_left (group_step classify) (filter (fun f => f <> name) l) d
  = fold_left (group_step classify) l d.
Proof.
  intros Hnone. revert d. induction l as [|x l IH]; intros d; [reflexivity|].
  destruct (decide (x = name)) as [->|Hne].
  - rewrite filter_cons_False by tauto. simpl.
    replace (group_step classify d name) with d; [apply IH|].
    unfold group_step. now rewrite Hnone.
  - rewrite filter_cons_True by exact Hne. simpl. apply IH.
Qed.

(** Every group of a grouping from scratch is what [select] picks. *)
Lemma group_elem k (g : list entry) l :
  (k, g) ∈ fold_left (group_step classify) l [] ->
  g = omap (select classify k) l.
Proof.
  intros Hin.
  rewrite <- (dict_get_unique k g _ (group_keys l [] (NoDup_nil_2)) Hin).
  now rewrite group_get.
Qed.

End Grouping.

(** ** The retention groups *)

Section Groups.

Lemma fold_left_ext {A B : Type} (f g : A -> B -> A) (l : list B) (a : A) :
  (forall a x, f a x = g a x) -> fold_left f l a = fold_left g l a.
Proof.
  intros Hfg. revert a. induction l as [|x l IH]; intros a; simpl;
    [reflexivity|]. now rewrite Hfg, IH.
Qed.

Lemma wheel_groups_step (dir : list string) :
  wheel_groups dir
  = fold_left (group_step classify_wheel) (globbed ".whl" dir) [].
Proof.
  apply fold_left_ext. intros d x.
  unfold add_wheel, group_step, classify_wheel.
  now destruct (match_groups wheel_pattern x) as [[[a b] c]|].
Qed.

Lemma sdist_groups_step (dir : list string) :
  sdist_groups dir
  = fold_left (group_step classify_sdist) (sdist_candidates dir) [].
Proof.
  apply fold_left_ext. intros d x.
  unfold add_sdist, group_step, classify_sdist.
  now destruct (match_groups sdist_pattern x) as [[[a b] c]|].
Qed.

Lemma classify_wheel_file (x : string) k (e : entry) :
  classify_wheel x = Some (k, e) -> snd e = x.
Proof.
  unfold classify_wheel.
  destruct (match_groups wheel_pattern x) as [[[a b] c]|]; [|discriminate].
  now intros [= <- <-].
Qed.

Lemma classify_sdist_file (x : string) k (e : entry) :
  classify_sdist x = Some (k, e) -> snd e = x.
Proof.
  unfold classify_sdist.
  destruct (match_groups sdist_pattern x) as [[[a b] c]|]; [|discriminate].
  now intros [= <- <-].
Qed.

Lemma classified_files {K : Type} (classify : string -> option (K * entry))
      (l : list string) :
  (forall x k e, classify x = Some (k, e) -> snd e = x) ->
  map snd (omap (fun x => snd <$> classify x) l)
  = filter (fun x => is_Some (classify x)) l.
Proof.
  intros Hfile. induction l as [|x l IH]; [reflexivity|]. simpl.
  destruct (classify x) as [[k e]|] eqn:E; simpl.
  - rewrite filter_cons_True by (rewrite E; eauto).
    f_equal; [now apply (Hfile x k)|exact IH].
  - rewrite filter_cons_False; [exact IH|].
    rewrite E. now intros [? ?].
Qed.

Lemma all_files_perm (dir : list string) :
  all_files dir
  ≡ₚ filter (fun x => is_Some (classify_wheel x)) (globbed ".whl" dir)
     ++ filter (fun x => is_Some (classify_sdist x)) (sdist_candidates dir).
Proof.
  unfold all_files, retention_groups.
  rewrite concat_app, map_app.
  rewrite wheel_groups_step, sdist_groups_step.
  rewrite <- (classified_files classify_wheel) by apply classify_wheel_file.
  rewrite <- (classified_files classify_sdist) by apply classify_sdist_file.
  apply Permutation_app; apply Permutation_map.
  - apply (group_values classify_wheel _ []).
  - apply (group_values classify_sdist _ []).
Qed.

(** *** The four patterns select disjoint sets of names *)

Lemma endswith_last (p s : string) (c : ascii) :
  Py.endswith p s = true -> last_char p = Some c -> last_char s = Some c.
Proof.
  intros H Hp. induction s as [|a s IH]; simpl in H.
  - rewrite orb_false_r in H. apply String.eqb_eq in H. now subst.
  - apply orb_true_iff in H as [H|H].
    + apply String.eqb_eq in H. now subst.
    + simpl. now rewrite (IH H).
Qed.

Lemma globbed_disjoint (p q : string) (c d : ascii) (dir : list string)
      (x : string) :
  last_char p = Some c -> last_char q = Some d -> c <> d ->
  x ∈ globbed p dir -> x ∉ globbed q dir.
Proof.
  intros Hp Hq Hcd Hx Hx'.
  apply list_elem_of_filter in Hx as [Hx _].
  apply list_elem_of_filter in Hx' as [Hx' _].
  apply Is_true_true in Hx, Hx'.
  pose proof (endswith_last _ _ _ Hx Hp) as H1.
  pose proof (endswith_last _ _ _ Hx' Hq) as H2.
  congruence.
Qed.

Lemma globbed_elem (p : string) (dir : list string) (x : string) :
  x ∈ globbed p dir -> x ∈ dir.
Proof. intros H. now apply list_elem_of_filter in H as [_ H]. Qed.

Lemma candidates_NoDup (dir : list string) :
  NoDup dir -> NoDup (globbed ".whl" dir ++ sdist_candidates dir).
Proof.
  intros Hnd. unfold sdist_candidates.
  repeat (apply NoDup_app; split; [now apply NoDup_filter|split]);
    try now apply NoDup_filter.
  - intros x Hx Hx'. repeat (apply elem_of_app in Hx' as [Hx'|Hx']);
      revert Hx'; eapply globbed_disjoint; try exact Hx;
      try reflexivity; discriminate.
  - intros x Hx Hx'. repeat (apply elem_of_app in Hx' as [Hx'|Hx']);
      revert Hx'; eapply globbed_disjoint; try exact Hx;
      try reflexivity; discriminate.
  - intros x Hx Hx'.
    revert Hx'; eapply globbed_disjoint; try exact Hx;
      try reflexivity; discriminate.
Qed.

Lemma candidates_elem (dir : list string) (x : string) :
  x ∈ globbed ".whl" dir ++ sdist_candidates dir -> x ∈ dir.
Proof.
  unfold sdist_candidates. intros Hx.
  repeat (apply elem_of_app in Hx as [Hx|Hx]);
    eapply globbed_elem; exact Hx.
Qed.

Lemma all_files_NoDup (dir : list string) :
  NoDup dir -> NoDup (all_files dir).
Proof.
  intros Hnd. rewrite all_files_perm.
  apply candidates_NoDup in Hnd.
  apply NoDup_app in Hnd as (Hw & Hdis & Hs).
  apply NoDup_app. split; [now apply NoDup_filter|split].
  - intros x Hx Hx'.
    apply list_elem_of_filter in Hx as [_ Hx].
    apply list_elem_of_filter in Hx' as [_ Hx'].
    now apply (Hdis x).
  - now apply NoDup_filter.
Qed.

Lemma all_files_elem (dir : list string) (x : string) :
  x ∈ all_files dir ->
  x ∈ dir /\ (is_Some (classify_wheel x) \/ is_Some (classify_sdist x)).
Proof.
  rewrite all_files_perm. intros Hx.
  apply elem_of_app in Hx as [Hx|Hx];
    apply list_elem_of_filter in Hx as [Hc Hx].
  - split; [|now left]. apply candidates_elem, elem_of_app. now left.
  - split; [|now right]. apply candidates_elem, elem_of_app. now right.
Qed.

End Groups.

(** ** The pruning run *)

Section Run.

Lemma kept_planned_perm (keep : nat) (dir : list string) :
  kept_files keep dir ++ planned_deletions keep dir ≡ₚ all_files dir.
Proof.
  unfold kept_files, planned_deletions, all_files.
  induction (retention_groups dir) as [|g gs IH]; simpl; [reflexivity|].
  rewrite map_app, <- IH.
  rewrite <- (Permutation_map snd (sorted_desc_perm g)).
  rewrite <- (firstn_skipn keep (sorted_desc g)) at 3.
  rewrite map_app, <- !app_assoc.
  apply Permutation_app_head.
  rewrite !app_assoc. apply Permutation_app_tail, Permutation_app_comm.
Qed.

Lemma planned_NoDup (keep : nat) (dir : list string) :
  NoDup dir -> NoDup (planned_deletions keep dir).
Proof.
  intros Hnd. apply all_files_NoDup in Hnd.
  rewrite <- (kept_planned_perm keep) in Hnd.
  now apply NoDup_app in Hnd as (_ & _ & H).
Qed.

Lemma planned_elem (keep : nat) (dir : list string) (x : string) :
  x ∈ planned_deletions keep dir -> x ∈ all_files dir.
Proof.
  intros Hx. rewrite <- (kept_planned_perm keep).
  apply elem_of_app. now right.
Qed.

Lemma kept_not_planned (keep : nat) (dir : list string) (x : string) :
  NoDup dir -> x ∈ kept_files keep dir -> x ∉ planned_deletions keep dir.
Proof.
  intros Hnd. apply all_files_NoDup in Hnd.
  rewrite <- (kept_planned_perm keep) in Hnd.
  apply NoDup_app in Hnd as (_ & H & _). apply H.
Qed.

Lemma string_in_elem (x : string) (l : list string) :
  x ∈ l -> string_in x l = true.
Proof.
  intros Hx. unfold string_in. apply existsb_exists.
  exists x. split; [now apply list_elem_of_In|apply String.eqb_refl].
Qed.

Lemma string_in_spec (x : string) (l : list string) :
  string_in x l = true <-> x ∈ l.
Proof.
  split; [|apply string_in_elem].
  unfold string_in. intros H. apply existsb_exists in H as (y & Hy & E).
  apply String.eqb_eq in E. subst y. now apply list_elem_of_In.
Qed.

Lemma filter_neq (file : string) (l : list string) :
  filter (fun f => negb (String.eqb f file)) l = filter (fun f => f <> file) l.
Proof.
  apply list_filter_iff. intros f.
  rewrite Is_true_true, negb_true_iff. apply String.eqb_neq.
Qed.

Lemma unlink_ok (file : string) (st : state) :
  file ∈ listing st ->
  file ∉ undeletable st ->
  unlink file st
  = Ok (tt, {| listing := filter (fun f => f <> file) (listing st);
               undeletable := undeletable st;
               stdout := stdout st |}).
Proof.
  intros Hin Hun. unfold unlink. rewrite string_in_elem by exact Hin.
  destruct (string_in file (undeletable st)) eqn:E.
  - apply string_in_spec in E. contradiction.
  - now rewrite filter_neq.
Qed.

(** An unlink that returns has removed the entry, which could be deleted. *)
Lemma unlink_inv (file : string) (st st' : state) :
  unlink file st = Ok (tt, st') ->
  st' = {| listing := filter (fun f => f <> file) (listing st);
           undeletable := undeletable st;
           stdout := stdout st |}
  /\ file ∉ undeletable st.
Proof.
  unfold unlink. destruct (string_in file (listing st)); [|discriminate].
  destruct (string_in file (undeletable st)) eqn:E; [discriminate|].
  intros [= <-]. split.
  - now rewrite filter_neq.
  - intros Hin. apply string_in_elem in Hin. congruence.
Qed.

Lemma filter_all {A : Type} (P : A -> Prop) `{forall x, Decision (P x)}
      (l : list A) :
  (forall x, x ∈ l -> P x) -> filter P l = l.
Proof.
  induction l as [|x l IH]; intros Hall; [reflexivity|].
  rewrite filter_cons_True by (apply Hall, list_elem_of_here).
  f_equal. apply IH. intros y Hy. now apply Hall, list_elem_of_further.
Qed.

Lemma filter_none (l : list string) : filter (fun f => f ∉ []) l = l.
Proof. apply filter_all. intros x _. apply not_elem_of_nil. Qed.

Lemma for_each_cons {X : Type} (x : X) (xs : list X) (body : X -> M unit)
      (st : state) :
  for_each (x :: xs) body st
  = match body x st with
    | Ok (_, st') => for_each xs body st'
    | Raise e => Raise e
    end.
Proof. reflexivity. Qed.

Lemma delete_entry_ok (e : entry) (st : state) :
  snd e ∈ listing st ->
  snd e ∉ undeletable st ->
  delete_entry e st
  = Ok (tt, {| listing := filter (fun f => f <> snd e) (listing st);
               undeletable := undeletable st;
               stdout := stdout st ++ ["  Deleting " +:+ snd e] |}).
Proof.
  intros Hin Hun. unfold delete_entry, mbind, M_bind, print.
  now rewrite unlink_ok.
Qed.

Lemma delete_entry_inv (e : entry) (st st' : state) :
  delete_entry e st = Ok (tt, st') ->
  st' = {| listing := filter (fun f => f <> snd e) (listing st);
           undeletable := undeletable st;
           stdout := stdout st ++ ["  Deleting " +:+ snd e] |}
  /\ snd e ∉ undeletable st.
Proof.
  unfold delete_entry, mbind, M_bind, print. intros H.
  apply unlink_inv in H as [-> Hun]. now split.
Qed.

Lemma delete_loop_ok (es : list entry) (st : state) :
  NoDup (map snd es) ->
  (forall f, f ∈ map snd es -> f ∈ listing st) ->
  (forall f, f ∈ map snd es -> f ∉ undeletable st) ->
  exists st', for_each es delete_entry st = Ok (tt, st').
Proof.
  revert st. induction es as [|e es IH]; intros st Hnd Hin Hun.
  - now exists st.
  - simpl in Hnd. apply NoDup_cons in Hnd as [Hf Hnd].
    rewrite for_each_cons, delete_entry_ok.
    + apply IH; [exact Hnd| |].
      * intros g Hg. simpl. apply list_elem_of_filter. split.
        -- intros ->. contradiction.
        -- apply Hin. simpl. now apply list_elem_of_further.
      * intros g Hg. simpl. apply Hun. simpl. now apply list_elem_of_further.
    + apply Hin. simpl. apply list_elem_of_here.
    + apply Hun. simpl. apply list_elem_of_here.
Qed.

(** A deletion loop that returns has removed its entries, none of which was
    undeletable, and printed one line for each. *)
Lemma delete_loop_inv (es : list entry) (st st' : state) :
  for_each es delete_entry st = Ok (tt, st') ->
  st' = {| listing := filter (fun f => f ∉ map snd es) (listing st);
           undeletable := undeletable st;
           stdout := stdout st
                     ++ map (fun e => "  Deleting " +:+ snd e) es |}
  /\ forall f, f ∈ map snd es -> f ∉ undeletable st.
Proof.
  revert st. induction es as [|e es IH]; intros st.
  - simpl. unfold mret, M_ret. intros [= <-]. split.
    + destruct st as [l u o]. simpl. now rewrite app_nil_r, filter_none.
    + intros f Hf. now apply elem_of_nil in Hf.
  - rewrite for_each_cons.
    destruct (delete_entry e st) as [[[] st1]|x] eqn:He; [|discriminate].
    apply delete_entry_inv in He as [-> Hun].
    intros H. apply IH in H as [-> Hrest]. split.
    + simpl. f_equal.
      * rewrite list_filter_filter. apply list_filter_iff.
        intros x. rewrite not_elem_of_cons. tauto.
      * now rewrite <- app_assoc.
    + intros f Hf. simpl in Hf. apply elem_of_cons in Hf as [->|Hf].
      * exact Hun.
      * now apply Hrest.
Qed.

Lemma for_each_ext {X : Type} (xs : list X) (body body' : X -> M unit) :
  (forall x st, body x st = body' x st) ->
  forall st, for_each xs body st = for_each xs body' st.
Proof.
  intros Hb. induction xs as [|x xs IH]; intros st; [reflexivity|].
  rewrite !for_each_cons, Hb.
  destruct (body' x st) as [[[] st']|e]; [apply IH|reflexivity].
Qed.

Lemma prune_delete_loop (keep : nat) (files : list entry) (st : state) :
  prune keep files st
  = for_each (skipn keep (sorted_desc files)) delete_entry st.
Proof. unfold prune. apply for_each_ext. now intros [v f] st'. Qed.

Lemma prune_ok (keep : nat) (files : list entry) (st : state) :
  NoDup (map snd (skipn keep (sorted_desc files))) ->
  (forall f, f ∈ map snd (skipn keep (sorted_desc files)) -> f ∈ listing st) ->
  (forall f, f ∈ map snd (skipn keep (sorted_desc files)) ->
             f ∉ undeletable st) ->
  exists st', prune keep files st = Ok (tt, st').
Proof.
  intros Hnd Hin Hun. rewrite prune_delete_loop. now apply delete_loop_ok.
Qed.

Lemma prune_inv (keep : nat) (files : list entry) (st st' : state) :
  prune keep files st = Ok (tt, st') ->
  st' = {| listing :=
             filter (fun f => f ∉ map snd (skipn keep (sorted_desc files)))
                    (listing st);
           undeletable := undeletable st;
           stdout := stdout st ++ deleting_lines keep files |}
  /\ forall f, f ∈ map snd (skipn keep (sorted_desc files)) ->
               f ∉ undeletable st.
Proof. rewrite prune_delete_loop. apply delete_loop_inv. Qed.

End Run.

Section RunLoops.

Lemma groups_loop_inv {X : Type} (items : list X) (hdr : X -> string)
      (files : X -> list entry) (keep : nat) (st st' : state) :
  let dels :=
    concat (map (fun it => map snd (skipn keep (sorted_desc (files it))))
                items) in
  for_each items (fun it => _ ← print (hdr it); prune keep (files it)) st
  = Ok (tt, st') ->
  st' = {| listing := filter (fun f => f ∉ dels) (listing st);
           undeletable := undeletable st;
           stdout :=
             stdout st
             ++ concat (map (fun it => hdr it
                                       :: deleting_lines keep (files it))
                            items) |}
  /\ forall f, f ∈ dels -> f ∉ undeletable st.
Proof.
  revert st. induction items as [|x items IH]; intros st dels.
  - simpl. unfold mret, M_ret. intros [= <-]. split.
    + destruct st as [l u o]. subst dels. simpl.
      now rewrite app_nil_r, filter_none.
    + intros f Hf. now apply elem_of_nil in Hf.
  - subst dels. rewrite for_each_cons.
    unfold mbind at 1, M_bind at 1, print at 1.
    destruct (prune keep (files x) _) as [[[] st1]|e] eqn:Hp; [|discriminate].
    apply prune_inv in Hp as [-> Hun1].
    intros H. apply IH in H as [-> Hun2]. split.
    + simpl. f_equal.
      * rewrite list_filter_filter. apply list_filter_iff.
        intros y. rewrite elem_of_app. tauto.
      * now rewrite <- !app_assoc.
    + intros f Hf. simpl in Hf. apply elem_of_app in Hf as [Hf|Hf].
      * now apply Hun1.
      * now apply Hun2.
Qed.

Lemma groups_loop_ok {X : Type} (items : list X) (hdr : X -> string)
      (files : X -> list entry) (keep : nat) (st : state) :
  let dels :=
    concat (map (fun it => map snd (skipn keep (sorted_desc (files it))))
                items) in
  NoDup dels ->
  (forall f, f ∈ dels -> f ∈ listing st) ->
  (forall f, f ∈ dels -> f ∉ undeletable st) ->
  exists st',
    for_each items (fun it => _ ← print (hdr it); prune keep (files it)) st
    = Ok (tt, st').
Proof.
  revert st. induction items as [|x items IH]; intros st dels Hnd Hin Hun.
  - now exists st.
  - subst dels. simpl in Hnd, Hin, Hun.
    apply NoDup_app in Hnd as (Hnd1 & Hdis & Hnd2).
    rewrite for_each_cons. unfold mbind at 1, M_bind at 1, print at 1.
    destruct (prune_ok keep (files x)
                {| listing := listing st;
                   undeletable := undeletable st;
                   stdout := stdout st ++ [hdr x] |}
                Hnd1) as [st1 H1].
    { intros f Hf. simpl. apply Hin, elem_of_app. now left. }
    { intros f Hf. simpl. apply Hun, elem_of_app. now left. }
    rewrite H1. apply prune_inv in H1 as [-> _].
    apply IH; [exact Hnd2| |].
    + intros f Hf. simpl. apply list_elem_of_filter. split.
      * intros Hf1. now apply (Hdis f).
      * apply Hin, elem_of_app. now right.
    + intros f Hf. simpl. apply Hun, elem_of_app. now right.
Qed.

Lemma enumerate1_map {X Y : Type} (G : X -> Y) (xs : list X) :
  map (fun it => G (snd it)) (enumerate1 xs) = map G xs.
Proof.
  unfold enumerate1. generalize 1.
  induction xs as [|x xs IH]; intros n; [reflexivity|].
  simpl. f_equal. apply IH.
Qed.

Lemma planned_split (keep : nat) (dir : list string) :
  planned_deletions keep dir
  = concat (map (fun it => map snd (skipn keep (sorted_desc (snd (snd it)))))
                (enumerate1 (wheel_groups dir)))
    ++ concat (map (fun it => map snd (skipn keep (sorted_desc (snd (snd it)))))
                   (enumerate1 (sdist_groups dir))).
Proof.
  rewrite !(enumerate1_map
              (fun g => map snd (skipn keep (sorted_desc (snd g))))).
  unfold planned_deletions, retention_groups.
  now rewrite map_app, concat_app, !map_map.
Qed.

(** The run as its two loops, each followed by its closing line. *)
Lemma run_loops (keep : nat) (dir und : list string) :
  run keep dir und
  = match
      for_each (enumerate1 (wheel_groups dir))
        (fun it => _ ← print (wheel_header (length (wheel_groups dir)) it);
                   prune keep (snd (snd it)))
        {| listing := dir; undeletable := und; stdout := [] |}
    with
    | Ok (_, st1) =>
        match
          for_each (enumerate1 (sdist_groups dir))
            (fun it => _ ← print (sdist_header (length (sdist_groups dir)) it);
                       prune keep (snd (snd it)))
            {| listing := listing st1;
               undeletable := undeletable st1;
               stdout := stdout st1 ++ ["Wheel cleanup complete."] |}
        with
        | Ok (_, st2) =>
            Ok (tt, {| listing := listing st2;
                       undeletable := undeletable st2;
                       stdout := stdout st2
                                 ++ ["Source distribution cleanup complete."] |})
        | Raise e => Raise e
        end
    | Raise e => Raise e
    end.
Proof.
  unfold run, cleanup, mbind, M_bind, glob. simpl listing.
  fold (sdist_candidates dir). fold (wheel_groups dir). fold (sdist_groups dir).
  set (wbody := fun '(index, (pkg_name, py_version, files)) => _).
  set (sbody := fun '(index, (pkg_name, files)) => _).
  rewrite (for_each_ext _ wbody
             (fun it => _ ← print (wheel_header (length (wheel_groups dir)) it);
                        prune keep (snd (snd it))))
    by (now intros [i [[n p] fs]] st').
  destruct (for_each (enumerate1 (wheel_groups dir)) _ _) as [[[] st1]|e];
    [|reflexivity].
  unfold print at 1.
  rewrite (for_each_ext _ sbody
             (fun it => _ ← print (sdist_header (length (sdist_groups dir)) it);
                        prune keep (snd (snd it))))
    by (now intros [i [n fs]] st').
  destruct (for_each (enumerate1 (sdist_groups dir)) _ _) as [[[] st2]|e];
    reflexivity.
Qed.

(** A run that returns has removed exactly the planned deletions, none of
    which was undeletable, and printed its progress in full. *)
Lemma run_inv (keep : nat) (dir und : list string) (st : state) :
  run keep dir und = Ok (tt, st) ->
  st = {| listing := filter (fun f => f ∉ planned_deletions keep dir) dir;
          undeletable := und;
          stdout := expected_stdout keep dir |}
  /\ forall f, f ∈ planned_deletions keep dir -> f ∉ und.
Proof.
  rewrite run_loops, planned_split.
  destruct (for_each (enumerate1 (wheel_groups dir)) _ _)
    as [[[] st1]|e] eqn:H1; [|discriminate].
  apply groups_loop_inv in H1 as [-> Hun1]. simpl listing. simpl undeletable.
  simpl stdout.
  destruct (for_each (enumerate1 (sdist_groups dir)) _ _)
    as [[[] st2]|e] eqn:H2; [|discriminate].
  apply groups_loop_inv in H2 as [-> Hun2]. simpl.
  intros [= <-]. split.
  - f_equal.
    + rewrite list_filter_filter. apply list_filter_iff.
      intros y. rewrite elem_of_app. tauto.
    + unfold expected_stdout. now rewrite <- !app_assoc.
  - intros f Hf. apply elem_of_app in Hf as [Hf|Hf].
    + now apply Hun1.
    + now apply Hun2.
Qed.

(** The run from a directory of distinct names completes when none of the
    planned deletions is undeletable. *)
Lemma run_ok (keep : nat) (dir und : list string) :
  NoDup dir ->
  (forall f, f ∈ planned_deletions keep dir -> f ∉ und) ->
  exists st, run keep dir und = Ok (tt, st).
Proof.
  intros Hnd Hun.
  pose proof (planned_NoDup keep dir Hnd) as Hpl.
  assert (Hin : forall f, f ∈ planned_deletions keep dir -> f ∈ dir).
  { intros f Hf. now apply planned_elem, all_files_elem in Hf as [Hf _]. }
  rewrite run_loops. rewrite planned_split in Hpl, Hin, Hun.
  apply NoDup_app in Hpl as (Hw & Hdis & Hs).
  destruct (groups_loop_ok (enumerate1 (wheel_groups dir))
              (wheel_header (length (wheel_groups dir)))
              (fun it => snd (snd it)) keep
              {| listing := dir; undeletable := und; stdout := [] |} Hw)
    as [st1 H1].
  { intros f Hf. apply Hin, elem_of_app. now left. }
  { intros f Hf. apply Hun, elem_of_app. now left. }
  rewrite H1. apply groups_loop_inv in H1 as [-> _].
  simpl listing. simpl undeletable. simpl stdout.
  match goal with
  | |- context [for_each _ _ ?st0] =>
      destruct (groups_loop_ok (enumerate1 (sdist_groups dir))
                  (sdist_header (length (sdist_groups dir)))
                  (fun it => snd (snd it)) keep st0 Hs) as [st2 H2]
  end.
  { intros f Hf. simpl. apply list_elem_of_filter. split.
    - intros Hf1. now apply (Hdis f).
    - apply Hin, elem_of_app. now right. }
  { intros f Hf. simpl. apply Hun, elem_of_app. now right. }
  rewrite H2. now eexists.
Qed.

(** What a run that returns has left. *)
Lemma run_listing (keep : nat) (dir und : list string) (st : state) :
  run keep dir und = Ok (tt, st) ->
  listing st = filter (fun f => f ∉ planned_deletions keep dir) dir.
Proof. intros H. now apply run_inv in H as [-> _]. Qed.

End RunLoops.

(** A deletion that fails ends the run: with the oldest wheel of the example
    undeletable, the run raises at it, and with a kept wheel undeletable it
    completes. *)
Remark undeletable_entry_ends_the_run :
  run 3 example_mirror ["foo-0.9.0-cp311-cp311-win_amd64.whl"]
  = Raise (PermissionError "foo-0.9.0-cp311-cp311-win_amd64.whl")
  /\ exists st,
      run 3 example_mirror ["foo-1.2.0-cp311-cp311-win_amd64.whl"]
      = Ok (tt, st).
Proof. split; [|eexists]; vm_compute; reflexivity. Qed.

(** ** Retention *)

Section Retention.

Lemma group_files_elem (dir : list string) (g : list entry) (e : entry) :
  g ∈ retention_groups dir -> e ∈ g -> snd e ∈ all_files dir.
Proof.
  intros Hg He. unfold all_files.
  apply list_elem_of_In, in_map, in_concat.
  exists g. split; now apply list_elem_of_In.
Qed.

Lemma planned_of_group (keep : nat) (dir : list string) (g : list entry)
      (f : string) :
  g ∈ retention_groups dir ->
  f ∈ map snd (skipn keep (sorted_desc g)) ->
  f ∈ planned_deletions keep dir.
Proof.
  intros Hg Hf. unfold planned_deletions.
  apply list_elem_of_In, in_concat.
  exists (map snd (skipn keep (sorted_desc g))).
  split; [|now apply list_elem_of_In].
  apply (in_map (fun files => map snd (skipn keep (sorted_desc files)))).
  now apply list_elem_of_In.
Qed.

Lemma kept_of_group (keep : nat) (dir : list string) (g : list entry)
      (f : string) :
  g ∈ retention_groups dir ->
  f ∈ map snd (firstn keep (sorted_desc g)) ->
  f ∈ kept_files keep dir.
Proof.
  intros Hg Hf. unfold kept_files.
  apply list_elem_of_In, in_concat.
  exists (map snd (firstn keep (sorted_desc g))).
  split; [|now apply list_elem_of_In].
  apply (in_map (fun files => map snd (firstn keep (sorted_desc files)))).
  now apply list_elem_of_In.
Qed.

Lemma group_files_NoDup (dir : list string) (g : list entry) :
  NoDup dir -> g ∈ retention_groups dir -> NoDup (map snd g).
Proof.
  intros Hnd Hg. apply all_files_NoDup in Hnd. unfold all_files in Hnd.
  apply list_elem_of_In, in_split in Hg as (l1 & l2 & Hg).
  rewrite Hg, concat_app, map_app in Hnd. simpl in Hnd.
  rewrite map_app in Hnd.
  apply NoDup_app in Hnd as (_ & _ & Hnd).
  now apply NoDup_app in Hnd as (Hnd & _ & _).
Qed.

Lemma unmatched_not_grouped (dir : list string) (name : string) :
  match_groups wheel_pattern name = None ->
  match_groups sdist_pattern name = None ->
  name ∉ all_files dir.
Proof.
  intros Hw Hs Hin. apply all_files_elem in Hin as [_ [[x Hx]|[x Hx]]].
  - unfold classify_wheel in Hx. now rewrite Hw in Hx.
  - unfold classify_sdist in Hx. now rewrite Hs in Hx.
Qed.

Lemma globbed_filter (p : string) (Q : string -> Prop)
      `{forall x, Decision (Q x)} (dir : list string) :
  globbed p (filter Q dir) = filter Q (globbed p dir).
Proof.
  unfold globbed. rewrite !list_filter_filter.
  apply list_filter_iff. intros x. tauto.
Qed.

Lemma unmatched_not_counted (dir : list string) (name : string) :
  match_groups wheel_pattern name = None ->
  match_groups sdist_pattern name = None ->
  retention_groups (filter (fun f => f <> name) dir) = retention_groups dir.
Proof.
  intros Hw Hs. unfold retention_groups.
  rewrite !wheel_groups_step, !sdist_groups_step. unfold sdist_candidates.
  rewrite !globbed_filter, <- !filter_app.
  rewrite !group_skip; [reflexivity| |].
  - unfold classify_sdist. now rewrite Hs.
  - unfold classify_wheel. now rewrite Hw.
Qed.

Lemma omap_NoDup (f : string -> option entry) (l : list string) :
  (forall x e, f x = Some e -> snd e = x) ->
  NoDup l -> NoDup (omap f l).
Proof.
  intros Hf. induction 1 as [|x l Hx Hl IH]; [apply NoDup_nil_2|].
  simpl. destruct (f x) as [e|] eqn:E; [|exact IH].
  apply NoDup_cons. split; [|exact IH].
  intros He. apply list_elem_of_omap in He as (y & Hy & Hfy).
  apply Hf in E, Hfy. congruence.
Qed.

Lemma select_file {K : Type} `{EqDecision K}
      (classify : string -> option (K * entry)) (k : K) :
  (forall x k e, classify x = Some (k, e) -> snd e = x) ->
  forall x e, select classify k x = Some e -> snd e = x.
Proof.
  intros Hc x e. unfold select.
  destruct (classify x) as [[k' e']|] eqn:E; [|discriminate].
  destruct (decide (k' = k)); [|discriminate].
  intros [= <-]. now apply (Hc x k').
Qed.

(** Grouping what a run has left: no group exceeds the retention count. *)
Lemma regroup_small {K : Type} `{EqDecision K}
      (classify : string -> option (K * entry)) (L L' planned : list string)
      (keep : nat) :
  (forall x k e, classify x = Some (k, e) -> snd e = x) ->
  NoDup L' ->
  (forall x, x ∈ L' -> x ∈ L /\ x ∉ planned) ->
  (forall k g, (k, g) ∈ fold_left (group_step classify) L [] ->
     forall f, f ∈ map snd (skipn keep (sorted_desc g)) -> f ∈ planned) ->
  forall k g', (k, g') ∈ fold_left (group_step classify) L' [] ->
    length g' <= keep.
Proof.
  intros Hc Hnd HL Hpl k g' Hg'.
  apply group_elem in Hg'. subst g'.
  set (g := omap (select classify k) L).
  transitivity (length (firstn keep (sorted_desc g)));
    [|rewrite length_take; lia].
  apply submseteq_length, NoDup_submseteq.
  - apply omap_NoDup; [now apply select_file|exact Hnd].
  - intros e He. apply list_elem_of_omap in He as (x & Hx & Hsel).
    destruct (HL x Hx) as [HxL Hxp].
    assert (Heg : e ∈ g) by (apply list_elem_of_omap; eauto).
    assert (Hkg : (k, g) ∈ fold_left (group_step classify) L []).
    { replace g with (dict_get k (fold_left (group_step classify) L [])).
      - apply dict_get_elem. rewrite group_get. simpl. fold g.
        intros Hnil. rewrite Hnil in Heg. now apply elem_of_nil in Heg.
      - now rewrite group_get. }
    assert (Hes : e ∈ sorted_desc g) by now rewrite sorted_desc_perm.
    rewrite <- (firstn_skipn keep (sorted_desc g)) in Hes.
    apply elem_of_app in Hes as [Hes|Hes]; [exact Hes|].
    exfalso. apply Hxp. apply (Hpl k g Hkg).
    apply (select_file classify k Hc) in Hsel. subst x.
    apply list_elem_of_In, in_map. now apply list_elem_of_In.
Qed.

Lemma concat_map_nil {A B : Type} (f : A -> list B) (l : list A) :
  (forall x, x ∈ l -> f x = []) -> concat (map f l) = [].
Proof.
  induction l as [|x l IH]; intros Hall; [reflexivity|]. simpl.
  rewrite Hall by apply list_elem_of_here. simpl.
  apply IH. intros y Hy. now apply Hall, list_elem_of_further.
Qed.

Lemma snd_group_elem {K : Type} (g : list entry) (d : list (K * list entry)) :
  g ∈ map snd d -> exists k, (k, g) ∈ d.
Proof.
  intros Hg. apply list_elem_of_In, in_map_iff in Hg as ([k g0] & <- & Hin).
  exists k. now apply list_elem_of_In.
Qed.

Lemma group_snd_elem {K : Type} (k : K) (g : list entry)
      (d : list (K * list entry)) :
  (k, g) ∈ d -> g ∈ map snd d.
Proof.
  intros Hin. apply list_elem_of_In.
  apply (in_map snd _ (k, g)). now apply list_elem_of_In.
Qed.

(** After a run, what is left plans no deletion. *)
Lemma rerun_plans_nothing (keep : nat) (dir dir' : list string) :
  NoDup dir ->
  dir' ≡ₚ filter (fun f => f ∉ planned_deletions keep dir) dir ->
  planned_deletions keep dir' = [].
Proof.
  intros Hnd Hperm.
  assert (Hnd' : NoDup dir').
  { rewrite Hperm. now apply NoDup_filter. }
  assert (Hsub : forall x, x ∈ dir' ->
                   x ∈ dir /\ x ∉ planned_deletions keep dir).
  { intros x Hx. rewrite Hperm in Hx.
    apply list_elem_of_filter in Hx. tauto. }
  pose proof (candidates_NoDup dir' Hnd') as Hcand.
  apply NoDup_app in Hcand as (Hcw & _ & Hcs).
  unfold planned_deletions. apply concat_map_nil. intros g' Hg'.
  assert (Hlen : length g' <= keep).
  { unfold retention_groups in Hg'.
    apply elem_of_app in Hg' as [Hg'|Hg']; apply snd_group_elem in Hg' as [k Hk].
    - rewrite wheel_groups_step in Hk.
      apply (regroup_small classify_wheel (globbed ".whl" dir)
               (globbed ".whl" dir') (planned_deletions keep dir) keep
               classify_wheel_file Hcw) with (k := k); [| |exact Hk].
      + intros x Hx. apply list_elem_of_filter in Hx as [Hp Hx].
        destruct (Hsub x Hx) as [Hxd Hxp]. split; [|exact Hxp].
        now apply list_elem_of_filter.
      + intros k0 g Hg f Hf. apply (planned_of_group keep dir g); [|exact Hf].
        unfold retention_groups. apply elem_of_app. left.
        apply (group_snd_elem k0). now rewrite wheel_groups_step.
    - rewrite sdist_groups_step in Hk.
      apply (regroup_small classify_sdist (sdist_candidates dir)
               (sdist_candidates dir') (planned_deletions keep dir) keep
               classify_sdist_file Hcs) with (k := k); [| |exact Hk].
      + intros x Hx. unfold sdist_candidates in *.
        rewrite !elem_of_app in Hx. rewrite !elem_of_app.
        destruct Hx as [Hx|[Hx|Hx]];
          apply list_elem_of_filter in Hx as [Hp Hx];
          destruct (Hsub x Hx) as [Hxd Hxp]; (split; [|exact Hxp]).
        * left. now apply list_elem_of_filter.
        * right. left. now apply list_elem_of_filter.
        * right. right. now apply list_elem_of_filter.
      + intros k0 g Hg f Hf. apply (planned_of_group keep dir g); [|exact Hf].
        unfold retention_groups. apply elem_of_app. right.
        apply (group_snd_elem k0). now rewrite sdist_groups_step. }
  rewrite drop_ge; [reflexivity|]. now rewrite sorted_desc_length.
Qed.

End Retention.

(** C1: in a run that completes, from a directory of distinct names, for
    every retention group of N entries and retention count K, with the group
    sorted by version string, greatest first: the entries kept are the first
    K and the entries deleted the rest, together a permutation of the group,
    whose files are distinct; if N <= K nothing of the group is deleted; if
    N > K exactly N-K are deleted and K kept; the kept files are still in the
    directory, the deleted ones are gone, and no deleted entry has a version
    string greater than a kept one.  (A run does not complete when an entry
    it has to delete cannot be deleted: the exception of [unlink] ends it.) *)
Theorem retention_keeps_greatest_versions
        (keep : nat) (dir und : list string) (st : state) :
  NoDup dir ->
  run keep dir und = Ok (tt, st) ->
  forall g : list entry,
    g ∈ retention_groups dir ->
    let kept := firstn keep (sorted_desc g) in
    let deleted := skipn keep (sorted_desc g) in
    kept ++ deleted ≡ₚ g
    /\ NoDup (map snd g)
    /\ (length g <= keep ->
        deleted = [] /\ forall e, e ∈ g -> snd e ∈ listing st)
    /\ (keep < length g ->
        length deleted = length g - keep /\ length kept = keep)
    /\ (forall e, e ∈ kept -> snd e ∈ listing st)
    /\ (forall e, e ∈ deleted -> snd e ∉ listing st)
    /\ (forall k d, k ∈ kept -> d ∈ deleted ->
                    String.leb (fst d) (fst k) = true).
Proof.
  intros Hnd Hrun. rewrite (run_listing keep dir und st Hrun).
  intros g Hg kept deleted.
  assert (Hperm : kept ++ deleted ≡ₚ g).
  { subst kept deleted. rewrite firstn_skipn. apply sorted_desc_perm. }
  assert (Hkept : forall e, e ∈ kept ->
            snd e ∈ filter (fun f => f ∉ planned_deletions keep dir) dir).
  { intros e He. apply list_elem_of_filter. split.
    - apply kept_not_planned; [exact Hnd|].
      apply (kept_of_group keep dir g _ Hg).
      apply list_elem_of_In, in_map. now apply list_elem_of_In.
    - apply (all_files_elem dir), (group_files_elem dir g); [exact Hg|].
      rewrite <- Hperm. apply elem_of_app. now left. }
  split; [exact Hperm|].
  split; [now apply (group_files_NoDup dir)|].
  split; [|split; [|split; [exact Hkept|split]]].
  - intros Hlen.
    assert (Hdel : deleted = []).
    { subst deleted. apply drop_ge. now rewrite sorted_desc_length. }
    split; [exact Hdel|].
    intros e He. apply Hkept. rewrite <- Hperm, Hdel, app_nil_r in He.
    exact He.
  - intros Hlen. subst kept deleted.
    rewrite length_drop, length_take, sorted_desc_length. lia.
  - intros e He Hin. apply list_elem_of_filter in Hin as [Hin _].
    apply Hin. apply (planned_of_group keep dir g _ Hg).
    apply list_elem_of_In, in_map. now apply list_elem_of_In.
  - intros k d Hk Hd.
    apply (kept_ge_dropped keep g k d); now apply list_elem_of_In.
Qed.

Lemma retention_keeps_greatest_versions_witness :
  exists st,
    run 3 example_mirror ["README.txt"] = Ok (tt, st)
    /\ forall g : list entry,
        g ∈ retention_groups example_mirror ->
        let kept := firstn 3 (sorted_desc g) in
        let deleted := skipn 3 (sorted_desc g) in
        kept ++ deleted ≡ₚ g
        /\ NoDup (map snd g)
        /\ (length g <= 3 ->
            deleted = [] /\ forall e, e ∈ g -> snd e ∈ listing st)
        /\ (3 < length g ->
            length deleted = length g - 3 /\ length kept = 3)
        /\ (forall e, e ∈ kept -> snd e ∈ listing st)
        /\ (forall e, e ∈ deleted -> snd e ∉ listing st)
        /\ (forall k d, k ∈ kept -> d ∈ deleted ->
                        String.leb (fst d) (fst k) = true).
Proof.
  eexists. split; [vm_compute; reflexivity|].
  apply (retention_keeps_greatest_versions 3 example_mirror ["README.txt"]).
  - apply (bool_decide_unpack _). vm_compute. exact I.
  - vm_compute. reflexivity.
Defined.

(** C5: after a run that completes, from a directory of distinct names, a
    second run on what is left, with the same retention count, in whatever
    order the directory is then listed and whatever can then be deleted,
    plans no deletion and completes with the directory unchanged. *)
Theorem pruning_is_idempotent
        (keep : nat) (dir und : list string) (st : state) :
  NoDup dir ->
  run keep dir und = Ok (tt, st) ->
  forall dir' und' : list string,
    dir' ≡ₚ listing st ->
    planned_deletions keep dir' = []
    /\ exists out',
        run keep dir' und'
        = Ok (tt, {| listing := dir'; undeletable := und'; stdout := out' |}).
Proof.
  intros Hnd Hrun dir' und' Hperm.
  rewrite (run_listing keep dir und st Hrun) in Hperm.
  pose proof (rerun_plans_nothing keep dir dir' Hnd Hperm) as Hnone.
  split; [exact Hnone|].
  assert (Hnd' : NoDup dir').
  { rewrite Hperm. now apply NoDup_filter. }
  destruct (run_ok keep dir' und' Hnd') as [st' Hrun'].
  { rewrite Hnone. intros f Hf. now apply elem_of_nil in Hf. }
  exists (stdout st'). rewrite Hrun'.
  apply run_inv in Hrun' as [-> _]. simpl. now rewrite Hnone, filter_none.
Qed.

Lemma pruning_is_idempotent_witness :
  exists st,
    run 3 example_mirror ["README.txt"] = Ok (tt, st)
    /\ forall dir' und' : list string,
        dir' ≡ₚ listing st ->
        planned_deletions 3 dir' = []
        /\ exists out',
            run 3 dir' und'
            = Ok (tt, {| listing := dir'; undeletable := und';
                         stdout := out' |}).
Proof.
  eexists. split; [vm_compute; reflexivity|].
  apply (pruning_is_idempotent 3 example_mirror ["README.txt"]).
  - apply (bool_decide_unpack _). vm_compute. exact I.
  - vm_compute. reflexivity.
Defined.

(** C6: a file whose name matches neither pattern is in no retention group
    and is not counted in any (the groups are those of the directory without
    it), is never planned for deletion, and is still there after every run
    that completes; [README.txt] is such a file. *)
Theorem unmatched_file_is_untouched
        (keep : nat) (dir : list string) (name : string) :
  match_groups wheel_pattern name = None ->
  match_groups sdist_pattern name = None ->
  (forall g, g ∈ retention_groups dir -> name ∉ map snd g)
  /\ retention_groups (filter (fun f => f <> name) dir) = retention_groups dir
  /\ (name ∉ planned_deletions keep dir)
  /\ (forall (und : list string) (st : state),
        run keep dir und = Ok (tt, st) -> name ∈ dir -> name ∈ listing st)
  /\ match_groups wheel_pattern "README.txt" = None
  /\ match_groups sdist_pattern "README.txt" = None.
Proof.
  intros Hw Hs.
  pose proof (unmatched_not_grouped dir name Hw Hs) as Hno.
  assert (Hpl : name ∉ planned_deletions keep dir).
  { intros Hin. now apply Hno, (planned_elem keep). }
  split; [|split; [|split; [exact Hpl|split; [|split]]]].
  - intros g Hg Hin. apply Hno.
    apply list_elem_of_In, in_map_iff in Hin as (e & <- & He).
    apply (group_files_elem dir g); [exact Hg|now apply list_elem_of_In].
  - now apply unmatched_not_counted.
  - intros und st Hrun Hin. rewrite (run_listing keep dir und st Hrun).
    now apply list_elem_of_filter.
  - vm_compute. reflexivity.
  - vm_compute. reflexivity.
Qed.

Lemma unmatched_file_is_untouched_witness :
  exists st,
    run 3 example_mirror ["README.txt"] = Ok (tt, st)
    /\ "README.txt" ∈ listing st.
Proof.
  destruct (unmatched_file_is_untouched 3 example_mirror "README.txt"
              eq_refl eq_refl) as (_ & _ & _ & Hrun & _).
  eexists. split; [vm_compute; reflexivity|].
  apply (Hrun ["README.txt"]); [vm_compute; reflexivity|].
  apply (bool_decide_unpack _). vm_compute. exact I.
Defined.

(** ** The filename patterns *)

Section Patterns.
Local Open Scope string_scope.

Lemma star_lazy_sound {A : Type} (p : ascii -> bool) (s : string)
      (cont : string -> option A) (x : A) :
  star_lazy p s cont = Some x ->
  exists c s',
    s = c ++ s'
    /\ (forall k, p = in_class k -> all_in k c = true)
    /\ cont s' = Some x.
Proof.
  induction s as [|a s IH]; simpl.
  - destruct (cont "") eqn:E; [|discriminate]. intros [= ->].
    exists "", "". now repeat split.
  - destruct (cont (String a s)) eqn:E.
    + intros [= ->]. exists "", (String a s). now repeat split.
    + destruct (p a) eqn:Ha; [|discriminate]. intros H.
      destruct (IH H) as (c & s' & -> & Hc & Hx).
      exists (String a c), s'. repeat split; [|exact Hx].
      intros k ->. simpl. rewrite Ha. now apply Hc.
Qed.

Lemma star_greedy_sound {A : Type} (p : ascii -> bool) (s : string)
      (cont : string -> option A) (x : A) :
  star_greedy p s cont = Some x ->
  exists c s',
    s = c ++ s'
    /\ (forall k, p = in_class k -> all_in k c = true)
    /\ cont s' = Some x.
Proof.
  induction s as [|a s IH]; simpl.
  - intros H. exists "", "". now repeat split.
  - destruct (p a) eqn:Ha.
    + destruct (star_greedy p s cont) eqn:E.
      * intros [= ->]. destruct (IH eq_refl) as (c & s' & -> & Hc & Hx).
        exists (String a c), s'. repeat split; [|exact Hx].
        intros k ->. simpl. rewrite Ha. now apply Hc.
      * intros H. exists "", (String a s). now repeat split.
    + intros H. exists "", (String a s). now repeat split.
Qed.

Lemma lit_sound {A : Type} (t s : string) (cont : string -> option A) (x : A) :
  lit t s cont = Some x -> exists s', s = t ++ s' /\ cont s' = Some x.
Proof.
  revert s. induction t as [|a t IH]; intros s; simpl.
  - intros H. now exists s.
  - destruct s as [|c s]; [discriminate|].
    destruct (Ascii.eqb_spec a c) as [->|]; [|discriminate].
    intros H. destruct (IH s H) as (s' & -> & Hx). now exists s'.
Qed.

Lemma plus_sound {A : Type} (k : cclass) (s : string)
      (star : (ascii -> bool) -> string -> (string -> option A) -> option A)
      (cont : string -> option A) (x : A) :
  (forall s0, star (in_class k) s0 cont = Some x ->
     exists c s', s0 = c ++ s'
       /\ (forall k', in_class k = in_class k' -> all_in k' c = true)
       /\ cont s' = Some x) ->
  one (in_class k) s (fun s1 => star (in_class k) s1 cont) = Some x ->
  exists c s',
    s = c ++ s' /\ c <> "" /\ all_in k c = true /\ cont s' = Some x.
Proof.
  intros Hstar. unfold one. destruct s as [|a s]; [discriminate|].
  destruct (in_class k a) eqn:Ha; [|discriminate]. intros H.
  destruct (Hstar s H) as (c & s' & -> & Hc & Hx).
  exists (String a c), s'. repeat split; [discriminate| |exact Hx].
  simpl. rewrite Ha. now apply Hc.
Qed.

(** The matcher only finds matches. *)
Lemma exec_sound {A : Type} (input : string) (r : regex) :
  forall (s : string) (g : groups) (cont : string -> groups -> option A)
         (x : A),
    exec input r s g cont = Some x ->
    exists s' g', matches input r s g s' g' /\ cont s' g' = Some x.
Proof.
  induction r as [| |t|k|k|k|r1 IH1 r2 IH2|r1 IH1 r2 IH2|n r IH];
    intros s g cont x; simpl.
  - destruct (Nat.eqb_spec (String.length s) (String.length input));
      [|discriminate].
    intros H. now exists s, g.
  - destruct s as [|a s]; [intros H; exists "", g; now auto|].
    destruct a as [[] [] [] [] [] [] [] []]; try discriminate.
    destruct s; [|discriminate].
    intros H. eexists _, g. split; [|exact H]. now auto.
  - intros H. apply lit_sound in H as (s' & -> & Hx). now exists s', g.
  - intros H.
    apply (plus_sound k s star_greedy) in H as (c & s' & -> & Hne & Hc & Hx);
      [|intros s0; apply star_greedy_sound].
    exists s', g. split; [now exists c|exact Hx].
  - intros H.
    apply (plus_sound k s star_lazy) in H as (c & s' & -> & Hne & Hc & Hx);
      [|intros s0; apply star_lazy_sound].
    exists s', g. split; [now exists c|exact Hx].
  - intros H. apply star_lazy_sound in H as (c & s' & -> & Hc & Hx).
    exists s', g. split; [|exact Hx]. exists c. now auto.
  - intros H. apply IH1 in H as (s1 & g1 & H1 & H).
    apply IH2 in H as (s' & g' & H2 & Hx).
    exists s', g'. split; [now exists s1, g1|exact Hx].
  - destruct (exec input r1 s g cont) eqn:E.
    + intros [= ->]. apply IH1 in E as (s' & g' & H1 & Hx).
      exists s', g'. now auto.
    + intros H. apply IH2 in H as (s' & g' & H2 & Hx).
      exists s', g'. now auto.
  - intros H. apply IH in H as (s' & g1 & H1 & Hx).
    eexists s', _. split; [|exact Hx]. now exists g1.
Qed.

Lemma rmatch_sound (r : regex) (input : string) (m : groups) :
  rmatch r input = Some m -> exists s', matches input r input [] s' m.
Proof.
  unfold rmatch. intros H.
  apply exec_sound in H as (s' & g' & Hm & [= ->]). now exists s'.
Qed.

End Patterns.

Section Versions.
Local Open Scope string_scope.

Lemma substring_prefix (c post : string) :
  substring 0 (String.length c) (c ++ post) = c.
Proof.
  induction c as [|a c IH].
  - now destruct post.
  - rewrite append_cons. simpl. now rewrite IH.
Qed.

Lemma substring_mid (pre c post : string) :
  substring (String.length pre) (String.length c) (pre ++ c ++ post) = c.
Proof.
  induction pre as [|a pre IH].
  - exact (substring_prefix c post).
  - rewrite append_cons. simpl. exact IH.
Qed.

(** The text a group captures is the text its body matched. *)
Lemma captured (pre c post : string) :
  substring (String.length (pre ++ c ++ post) - String.length (c ++ post))
            (String.length (c ++ post) - String.length post)
            (pre ++ c ++ post) = c.
Proof.
  rewrite !length_append.
  replace (String.length pre + (String.length c + String.length post)
           - (String.length c + String.length post))
    with (String.length pre) by lia.
  replace (String.length c + String.length post - String.length post)
    with (String.length c) by lia.
  apply substring_mid.
Qed.

Lemma skip_digits_dot (d t : string) :
  all_in Digit d = true -> skip_digits (d ++ String "." t) = String "." t.
Proof.
  induction d as [|a d IH]; [reflexivity|].
  rewrite append_cons. cbn [skip_digits all_in]. unfold is_digit.
  intros H. apply andb_true_iff in H as [Ha Hd]. rewrite Ha. now apply IH.
Qed.

Lemma digits_then_dot (d t : string) :
  d <> "" -> all_in Digit d = true ->
  digits_then (d ++ String "." t) = Some (String "." t).
Proof.
  destruct d as [|a d]; [congruence|]. intros _ H.
  rewrite append_cons. cbn [digits_then all_in] in *. unfold is_digit.
  apply andb_true_iff in H as [Ha Hd]. rewrite Ha.
  now rewrite skip_digits_dot.
Qed.

Lemma digits_then_some (d t : string) :
  d <> "" -> all_in Digit d = true -> exists u, digits_then (d ++ t) = Some u.
Proof.
  destruct d as [|a d]; [congruence|]. intros _ H.
  rewrite append_cons. cbn [digits_then all_in] in *. unfold is_digit.
  apply andb_true_iff in H as [Ha Hd]. rewrite Ha. eauto.
Qed.

Lemma three_numeric_shape (d1 d2 d3 rest : string) :
  d1 <> "" -> all_in Digit d1 = true ->
  d2 <> "" -> all_in Digit d2 = true ->
  d3 <> "" -> all_in Digit d3 = true ->
  three_numeric (d1 ++ "." ++ d2 ++ "." ++ d3 ++ rest) = true.
Proof.
  intros H1 A1 H2 A2 H3 A3. unfold three_numeric.
  change ("." ++ d2 ++ "." ++ d3 ++ rest)
    with (String "." (d2 ++ "." ++ d3 ++ rest)).
  rewrite digits_then_dot by assumption.
  change ("." ++ d3 ++ rest) with (String "." (d3 ++ rest)).
  rewrite digits_then_dot by assumption.
  destruct (digits_then_some d3 rest H3 A3) as [u ->]. reflexivity.
Qed.

(** [\d+\.\d+\.\d+.*?] matches only text that begins with three numeric
    components, and sets no group. *)
Lemma version_body (input s s' : string) (g g' : groups) :
  matches input
          (cat [Plus Digit; Lit "."; Plus Digit; Lit "."; Plus Digit;
                StarLazy Dot]) s g s' g' ->
  exists c, s = c ++ s' /\ three_numeric c = true /\ g' = g.
Proof.
  simpl.
  intros (s1 & g1 & (d1 & -> & N1 & A1 & ->)
          & s2 & g2 & (-> & ->)
          & s3 & g3 & (d2 & -> & N2 & A2 & ->)
          & s4 & g4 & (-> & ->)
          & s5 & g5 & (d3 & -> & N3 & A3 & ->)
          & rest & -> & _ & ->).
  exists (d1 ++ "." ++ d2 ++ "." ++ d3 ++ rest).
  split; [|split; [|reflexivity]].
  - now rewrite !append_assoc.
  - apply (three_numeric_shape d1 d2 d3 rest); assumption.
Qed.

Lemma match_groups_some (r : regex) (name a v t : string) :
  match_groups r name = Some (a, v, t) ->
  exists m,
    rmatch r name = Some m
    /\ group 1 m = Some a /\ group 2 m = Some v /\ group 3 m = Some t.
Proof.
  unfold match_groups. destruct (rmatch r name) as [m|]; [|discriminate].
  destruct (group 1 m) eqn:E1, (group 2 m) eqn:E2, (group 3 m) eqn:E3;
    try discriminate.
  intros [= -> -> ->]. now exists m.
Qed.

Lemma group_set_eq (n : nat) (c : string) (g : groups) :
  group n (set_group n c g) = Some c.
Proof. unfold set_group. simpl. now rewrite Nat.eqb_refl. Qed.

Lemma group_filter_ne (n k : nat) (g : list (nat * string)) :
  k <> n ->
  group n (filter (fun p : nat * string => negb (Nat.eqb (fst p) k)) g)
  = group n g.
Proof.
  intros Hne. induction g as [|[j u] g IH]; [reflexivity|].
  rewrite filter_cons. destruct (decide _) as [Hj|Hj]; simpl in Hj.
  - simpl. now rewrite IH.
  - rewrite IH. simpl.
    destruct (Nat.eqb_spec j k) as [->|]; [|simpl in Hj; tauto].
    now destruct (Nat.eqb_spec k n).
Qed.

Lemma group_set_ne (n k : nat) (c : string) (g : groups) :
  k <> n -> group n (set_group k c g) = group n g.
Proof.
  intros Hne. unfold set_group, groups. cbn [group].
  destruct (Nat.eqb_spec k n) as [|_]; [contradiction|].
  now apply group_filter_ne.
Qed.

(** The version group of the wheel pattern. *)
Lemma wheel_version (name a v t : string) :
  match_groups wheel_pattern name = Some (a, v, t) ->
  three_numeric v = true.
Proof.
  intros H. apply match_groups_some in H as (m & Hm & _ & Hv & _).
  apply rmatch_sound in Hm as [s' Hm]. unfold wheel_pattern in Hm.
  remember (cat [Plus Digit; Lit "."; Plus Digit; Lit "."; Plus Digit;
                 StarLazy Dot]) as V eqn:HV.
  simpl in Hm.
  destruct Hm as (s0 & g0 & (-> & -> & _)
                  & s1 & g1 & (g1' & (c1 & Hname & _ & _ & ->) & ->)
                  & s2 & g2 & (-> & ->)
                  & s3 & g3 & (g3' & HmV & ->)
                  & s4 & g4 & (-> & ->)
                  & s5 & g5 & (g5' & HT & ->)
                  & s6 & g6 & (-> & ->)
                  & s7 & g7 & (c7 & -> & _ & _ & ->)
                  & s8 & g8 & (-> & ->)
                  & -> & -> & _).
  assert (Hg5 : g5' = set_group 2
            (substring (String.length name - String.length s2)
                       (String.length s2 - String.length ("-" ++ s4)) name)
            g3').
  { destruct HT as [(? & ? & (_ & ->) & ? & _ & _ & _ & ->)
                   |[(? & ? & (_ & ->) & ? & _ & _ & _ & ->)|[_ ->]]];
      reflexivity. }
  subst g5'. rewrite group_set_ne, group_set_eq in Hv by discriminate.
  subst V. apply version_body in HmV as (c & -> & Hc & _).
  injection Hv as <-. rewrite Hname.
  change (c1 ++ "-" ++ c ++ "-" ++ s4) with (c1 ++ "-" ++ (c ++ "-" ++ s4)).
  rewrite <- (append_assoc c1 "-"). now rewrite captured.
Qed.

(** The version group of the sdist pattern. *)
Lemma sdist_version (name a v t : string) :
  match_groups sdist_pattern name = Some (a, v, t) ->
  three_numeric v = true.
Proof.
  intros H. apply match_groups_some in H as (m & Hm & _ & Hv & _).
  apply rmatch_sound in Hm as [s' Hm]. unfold sdist_pattern in Hm.
  remember (cat [Plus Digit; Lit "."; Plus Digit; Lit "."; Plus Digit;
                 StarLazy Dot]) as V eqn:HV.
  simpl in Hm.
  destruct Hm as (s0 & g0 & (-> & -> & _)
                  & s1 & g1 & (g1' & (c1 & Hname & _ & _ & ->) & ->)
                  & s2 & g2 & (-> & ->)
                  & s3 & g3 & (g3' & HmV & ->)
                  & s4 & g4 & (-> & ->)
                  & s5 & g5 & (g5' & HT & ->)
                  & -> & -> & _).
  assert (Hg5 : g5' = set_group 2
            (substring (String.length name - String.length s2)
                       (String.length s2 - String.length ("." ++ s4)) name)
            g3').
  { destruct HT as [[_ ->]|[[_ ->]|[_ ->]]]; reflexivity. }
  subst g5'. rewrite group_set_ne, group_set_eq in Hv by discriminate.
  subst V. apply version_body in HmV as (c & -> & Hc & _).
  injection Hv as <-. rewrite Hname.
  change (c1 ++ "-" ++ c ++ "." ++ s4) with (c1 ++ "-" ++ (c ++ "." ++ s4)).
  rewrite <- (append_assoc c1 "-"). now rewrite captured.
Qed.

End Versions.

(** C9: whenever the wheel pattern or the sdist pattern matches a name, the
    version it captures begins with three runs of digits separated by dots;
    [foo-1.0.tar.gz] and [foo-2.1-py3-none-any.whl], whose versions have two
    components, match neither pattern, so they are in no retention group,
    are never planned for deletion and are still there after every run that
    completes. *)
Theorem patterns_need_three_components :
  (forall name a v t,
      match_groups wheel_pattern name = Some (a, v, t) ->
      three_numeric v = true)
  /\ (forall name a v t,
         match_groups sdist_pattern name = Some (a, v, t) ->
         three_numeric v = true)
  /\ forall name,
      name ∈ ["foo-1.0.tar.gz"; "foo-2.1-py3-none-any.whl"] ->
      match_groups wheel_pattern name = None
      /\ match_groups sdist_pattern name = None
      /\ forall (keep : nat) (dir : list string),
          (name ∉ all_files dir)
          /\ (name ∉ planned_deletions keep dir)
          /\ (forall (und : list string) (st : state),
                run keep dir und = Ok (tt, st) ->
                name ∈ dir -> name ∈ listing st).
Proof.
  split; [exact wheel_version|split; [exact sdist_version|]].
  intros name Hname.
  assert (Hnone : match_groups wheel_pattern name = None
                  /\ match_groups sdist_pattern name = None).
  { apply elem_of_cons in Hname as [->|Hname];
      [split; vm_compute; reflexivity|].
    apply elem_of_cons in Hname as [->|Hname];
      [split; vm_compute; reflexivity|].
    now apply elem_of_nil in Hname. }
  destruct Hnone as [Hw Hs].
  split; [exact Hw|split; [exact Hs|]].
  intros keep dir.
  pose proof (unmatched_not_grouped dir name Hw Hs) as Hno.
  assert (Hpl : name ∉ planned_deletions keep dir).
  { intros Hin. now apply Hno, (planned_elem keep). }
  split; [exact Hno|split; [exact Hpl|]].
  intros und st Hrun Hin. rewrite (run_listing keep dir und st Hrun).
  now apply list_elem_of_filter.
Qed.

Lemma patterns_need_three_components_witness :
  three_numeric "1.24.3" = true.
Proof.
  apply (proj1 patterns_need_three_components
               "numpy-1.24.3-cp313-cp313-win_amd64.whl" "numpy" "1.24.3"
               "cp313").
  vm_compute. reflexivity.
Defined.

(** * Further properties of the pruner *)

Section GroupingFacts.

Lemma dict_append_nonempty {K V : Type} `{EqDecision K} (k : K) (v : V)
      (d : list (K * list V)) :
  Forall (fun kv => snd kv <> []) d ->
  Forall (fun kv => snd kv <> []) (dict_append k v d).
Proof.
  induction 1 as [|[k' vs] d Hkv Hd IH]; simpl.
  - constructor; [discriminate|constructor].
  - destruct (decide (k' = k)); constructor; simpl in *; auto.
    now destruct vs.
Qed.

Lemma group_nonempty {K : Type} `{EqDecision K}
      (classify : string -> option (K * entry)) (l : list string)
      (d : list (K * list entry)) :
  Forall (fun kv => snd kv <> []) d ->
  Forall (fun kv => snd kv <> []) (fold_left (group_step classify) l d).
Proof.
  revert d. induction l as [|x l IH]; intros d Hd; simpl; [exact Hd|].
  apply IH. unfold group_step.
  destruct (classify x) as [[k e]|]; [now apply dict_append_nonempty|exact Hd].
Qed.

Lemma select_some {K : Type} `{EqDecision K}
      (classify : string -> option (K * entry)) (k : K) (x : string)
      (e : entry) :
  select classify k x = Some e <-> classify x = Some (k, e).
Proof.
  unfold select. destruct (classify x) as [[k' e']|]; [|easy].
  destruct (decide (k' = k)) as [->|Hne]; split; intros [=]; subst; try easy.
Qed.

Lemma endswith_elem (p : string) (dir : list string) (f : string) :
  f ∈ globbed p dir <-> f ∈ dir /\ Py.endswith p (Py.lower f) = true.
Proof.
  unfold globbed. rewrite list_elem_of_filter, Is_true_true. tauto.
Qed.

End GroupingFacts.

(** X1: the wheel groups partition the matching wheels by (package name,
    interpreter tag): the keys are distinct, no group is empty, a group holds
    exactly the (version, file) entries of the [.whl] files of the directory
    that the wheel pattern splits into its key, and every such file is in the
    group of its key. *)
Theorem wheel_groups_partition (dir : list string) :
  NoDup (map fst (wheel_groups dir))
  /\ (forall k g, (k, g) ∈ wheel_groups dir ->
        g <> []
        /\ forall v f,
            (v, f) ∈ g <->
            f ∈ dir /\ Py.endswith ".whl" (Py.lower f) = true
            /\ match_groups wheel_pattern f = Some (fst k, v, snd k))
  /\ (forall f a v t,
        f ∈ dir -> Py.endswith ".whl" (Py.lower f) = true ->
        match_groups wheel_pattern f = Some (a, v, t) ->
        exists g, ((a, t), g) ∈ wheel_groups dir /\ (v, f) ∈ g).
Proof.
  assert (Hmem : forall k v f,
    (v, f) ∈ omap (select classify_wheel k) (globbed ".whl" dir) <->
    f ∈ dir /\ Py.endswith ".whl" (Py.lower f) = true
    /\ match_groups wheel_pattern f = Some (fst k, v, snd k)).
  { intros [a t] v f. rewrite list_elem_of_omap. split.
    - intros (x & Hx & Hsel). apply select_some in Hsel.
      pose proof (classify_wheel_file _ _ _ Hsel) as Hf. simpl in Hf. subst x.
      apply endswith_elem in Hx as [Hd He].
      split; [exact Hd|split; [exact He|]].
      unfold classify_wheel in Hsel.
      destruct (match_groups wheel_pattern f) as [[[a' v'] t']|];
        [|discriminate].
      now injection Hsel as -> -> ->.
    - intros (Hd & He & Hm). exists f. split; [now apply endswith_elem|].
      apply select_some. unfold classify_wheel. now rewrite Hm. }
  rewrite wheel_groups_step. split; [|split].
  - apply group_keys. apply NoDup_nil_2.
  - intros k g Hg. split.
    + pose proof (group_nonempty classify_wheel (globbed ".whl" dir) []
                    (Forall_nil_2 _)) as Hne.
      rewrite List.Forall_forall in Hne.
      apply (Hne (k, g)). now apply list_elem_of_In.
    + apply group_elem in Hg. subst g. apply Hmem.
  - intros f a v t Hd He Hm.
    exists (dict_get (a, t)
              (fold_left (group_step classify_wheel) (globbed ".whl" dir) [])).
    assert (Hin : (v, f) ∈ dict_get (a, t)
              (fold_left (group_step classify_wheel) (globbed ".whl" dir) [])).
    { rewrite group_get. simpl. now apply (Hmem (a, t)). }
    split; [|exact Hin].
    apply dict_get_elem. intros Hnil. rewrite Hnil in Hin.
    now apply elem_of_nil in Hin.
Qed.

Lemma wheel_groups_partition_witness :
  exists g,
    (("foo", "cp311"), g) ∈ wheel_groups example_mirror
    /\ ("1.1.0", "foo-1.1.0-cp311-cp311-win_amd64.whl") ∈ g.
Proof.
  apply (proj2 (proj2 (wheel_groups_partition example_mirror))
           "foo-1.1.0-cp311-cp311-win_amd64.whl" "foo" "1.1.0" "cp311").
  - apply (bool_decide_unpack _). vm_compute. exact I.
  - vm_compute. reflexivity.
  - vm_compute. reflexivity.
Defined.

(** X2: the sdist groups partition the matching source archives by package
    name alone: the keys are distinct, no group is empty, and a group holds
    exactly the (version, file) entries of the [.tar.gz], [.tar.bz2] and
    [.zip] files of the directory that the sdist pattern splits into its
    key, whatever the archive extension. *)
Theorem sdist_groups_partition (dir : list string) :
  NoDup (map fst (sdist_groups dir))
  /\ (forall k g, (k, g) ∈ sdist_groups dir ->
        g <> []
        /\ forall v f,
            (v, f) ∈ g <->
            f ∈ sdist_candidates dir
            /\ exists t, match_groups sdist_pattern f = Some (k, v, t))
  /\ (forall f a v t,
        f ∈ sdist_candidates dir ->
        match_groups sdist_pattern f = Some (a, v, t) ->
        exists g, (a, g) ∈ sdist_groups dir /\ (v, f) ∈ g)
  /\ (forall f,
        f ∈ sdist_candidates dir <->
        f ∈ dir
        /\ (Py.endswith ".tar.gz" (Py.lower f) = true
            \/ Py.endswith ".tar.bz2" (Py.lower f) = true
            \/ Py.endswith ".zip" (Py.lower f) = true)).
Proof.
  assert (Hmem : forall k v f,
    (v, f) ∈ omap (select classify_sdist k) (sdist_candidates dir) <->
    f ∈ sdist_candidates dir
    /\ exists t, match_groups sdist_pattern f = Some (k, v, t)).
  { intros a v f. rewrite list_elem_of_omap. split.
    - intros (x & Hx & Hsel). apply select_some in Hsel.
      pose proof (classify_sdist_file _ _ _ Hsel) as Hf. simpl in Hf. subst x.
      split; [exact Hx|].
      unfold classify_sdist in Hsel.
      destruct (match_groups sdist_pattern f) as [[[a' v'] t']|];
        [|discriminate].
      injection Hsel as -> ->. now exists t'.
    - intros (Hd & t & Hm). exists f. split; [exact Hd|].
      apply select_some. unfold classify_sdist. now rewrite Hm. }
  rewrite sdist_groups_step. split; [|split; [|split]].
  - apply group_keys. apply NoDup_nil_2.
  - intros k g Hg. split.
    + pose proof (group_nonempty classify_sdist (sdist_candidates dir) []
                    (Forall_nil_2 _)) as Hne.
      rewrite List.Forall_forall in Hne.
      apply (Hne (k, g)). now apply list_elem_of_In.
    + apply group_elem in Hg. subst g. apply Hmem.
  - intros f a v t Hd Hm.
    exists (dict_get a
              (fold_left (group_step classify_sdist) (sdist_candidates dir) [])).
    assert (Hin : (v, f) ∈ dict_get a
              (fold_left (group_step classify_sdist) (sdist_candidates dir) [])).
    { rewrite group_get. simpl. apply Hmem. split; [exact Hd|now exists t]. }
    split; [|exact Hin].
    apply dict_get_elem. intros Hnil. rewrite Hnil in Hin.
    now apply elem_of_nil in Hin.
  - intros f. unfold sdist_candidates.
    rewrite !elem_of_app, !endswith_elem. tauto.
Qed.

Lemma sdist_groups_partition_witness :
  exists g,
    ("a", g) ∈ sdist_groups ["a-1.0.0.zip"; "a-1.0.1.tar.gz"]
    /\ ("1.0.0", "a-1.0.0.zip") ∈ g.
Proof.
  apply (proj1 (proj2 (proj2 (sdist_groups_partition
                                ["a-1.0.0.zip"; "a-1.0.1.tar.gz"])))
           "a-1.0.0.zip" "a" "1.0.0" "zip").
  - apply (bool_decide_unpack _). vm_compute. exact I.
  - vm_compute. reflexivity.
Defined.

Section Counting.

Lemma planned_length (keep : nat) (dir : list string) :
  length (planned_deletions keep dir)
  = list_sum (map (fun g : list entry => length g - keep)
                  (retention_groups dir)).
Proof.
  unfold planned_deletions.
  induction (retention_groups dir) as [|g gs IH]; [reflexivity|].
  simpl. rewrite length_app, IH, length_map, length_drop, sorted_desc_length.
  reflexivity.
Qed.

Lemma filter_out_length (dir pl : list string) :
  NoDup dir -> NoDup pl -> (forall x, x ∈ pl -> x ∈ dir) ->
  length (filter (fun f => f ∉ pl) dir) = length dir - length pl.
Proof.
  intros Hd Hp Hsub.
  pose proof (filter_app_complement (fun f => f ∈ pl) dir) as Hperm.
  apply Permutation_length in Hperm. rewrite length_app in Hperm.
  assert (Hin : filter (fun f => f ∈ pl) dir ≡ₚ pl).
  { apply NoDup_Permutation; [now apply NoDup_filter|exact Hp|].
    intros x. rewrite list_elem_of_filter. split; [tauto|]. auto. }
  apply Permutation_length in Hin. lia.
Qed.



End Counting.

(** X3: from a directory of distinct names a run completes exactly when
    none of the planned deletions is undeletable; and a run that completes
    only removes files: what is left is the directory without the planned
    deletions, in the same order, and the number of files removed is the sum
    over the retention groups of the group size minus the retention count
    (nothing for a group that is not larger). *)
Theorem run_removes_excess_only (keep : nat) (dir und : list string) :
  NoDup dir ->
  ((exists st, run keep dir und = Ok (tt, st))
   <-> forall f, f ∈ planned_deletions keep dir -> f ∉ und)
  /\ (forall st,
        run keep dir und = Ok (tt, st) ->
        listing st `sublist_of` dir
        /\ (forall f, f ∈ listing st <->
                      f ∈ dir /\ f ∉ planned_deletions keep dir)
        /\ length (listing st)
           = length dir - length (planned_deletions keep dir))
  /\ length (planned_deletions keep dir)
     = list_sum (map (fun g : list entry => length g - keep)
                     (retention_groups dir)).
Proof.
  intros Hnd. split; [|split; [|apply planned_length]].
  - split.
    + intros [st Hrun]. now apply run_inv in Hrun as [_ Hun].
    + now apply run_ok.
  - intros st Hrun. rewrite (run_listing keep dir und st Hrun).
    split; [apply sublist_filter|].
    split; [intros f; rewrite list_elem_of_filter; tauto|].
    apply filter_out_length; [exact Hnd|now apply planned_NoDup|].
    intros x Hx. now apply planned_elem, all_files_elem in Hx as [Hx _].
Qed.

Lemma run_removes_excess_only_witness :
  ((exists st, run 3 example_mirror ["README.txt"] = Ok (tt, st))
   <-> forall f, f ∈ planned_deletions 3 example_mirror ->
                 f ∉ ["README.txt"])
  /\ (forall st,
        run 3 example_mirror ["README.txt"] = Ok (tt, st) ->
        listing st `sublist_of` example_mirror
        /\ (forall f, f ∈ listing st <->
                      f ∈ example_mirror
                      /\ f ∉ planned_deletions 3 example_mirror)
        /\ length (listing st)
           = length example_mirror
             - length (planned_deletions 3 example_mirror))
  /\ length (planned_deletions 3 example_mirror)
     = list_sum (map (fun g : list entry => length g - 3)
                     (retention_groups example_mirror)).
Proof.
  apply (run_removes_excess_only 3 example_mirror ["README.txt"]).
  apply (bool_decide_unpack _). vm_compute. exact I.
Defined.


(** X5: the retention count at its bounds.  With a count of zero every
    matched archive is planned for deletion; a count not smaller than any
    group plans none and the run leaves the directory as it is, whatever
    can be deleted; and raising the count never adds a deletion. *)
Theorem retention_count_bounds (dir : list string) :
  planned_deletions 0 dir ≡ₚ all_files dir
  /\ (forall keep,
        (forall g, g ∈ retention_groups dir -> length g <= keep) ->
        planned_deletions keep dir = []
        /\ (NoDup dir ->
            forall und,
            exists out,
              run keep dir und
              = Ok (tt, {| listing := dir; undeletable := und;
                           stdout := out |})))
  /\ (forall keep keep' f,
        keep <= keep' ->
        f ∈ planned_deletions keep' dir -> f ∈ planned_deletions keep dir).
Proof.
  split; [|split].
  - rewrite <- (kept_planned_perm 0 dir). unfold kept_files.
    rewrite concat_map_nil; [reflexivity|]. intros g _. reflexivity.
  - intros keep Hsmall.
    assert (Hnone : planned_deletions keep dir = []).
    { unfold planned_deletions. apply concat_map_nil. intros g Hg.
      rewrite drop_ge; [reflexivity|].
      rewrite sorted_desc_length. now apply Hsmall. }
    split; [exact Hnone|].
    intros Hnd und. destruct (run_ok keep dir und Hnd) as [st Hrun].
    { rewrite Hnone. intros f Hf. now apply elem_of_nil in Hf. }
    exists (stdout st). rewrite Hrun.
    apply run_inv in Hrun as [-> _]. simpl. now rewrite Hnone, filter_none.
  - intros keep keep' f Hle Hf. unfold planned_deletions in *.
    apply list_elem_of_In, in_concat in Hf as (l & Hl & Hf).
    apply in_map_iff in Hl as (g & <- & Hg).
    apply list_elem_of_In, in_concat.
    exists (map snd (skipn keep (sorted_desc g))). split.
    + apply (in_map (fun files => map snd (skipn keep (sorted_desc files)))).
      exact Hg.
    + apply in_map_iff in Hf as (e & <- & He). apply in_map.
      replace keep' with (keep + (keep' - keep)) in He by lia.
      rewrite <- drop_drop in He.
      apply list_elem_of_In. apply list_elem_of_In in He.
      eapply subseteq_drop. exact He.
Qed.

Lemma retention_count_bounds_witness :
  planned_deletions 4 example_mirror = []
  /\ (NoDup example_mirror ->
      forall und,
      exists out,
        run 4 example_mirror und
        = Ok (tt, {| listing := example_mirror; undeletable := und;
                     stdout := out |})).
Proof.
  apply (proj1 (proj2 (retention_count_bounds example_mirror)) 4).
  intros g Hg.
  repeat (apply elem_of_cons in Hg as [->|Hg]; [vm_compute; lia|]).
  now apply elem_of_nil in Hg.
Defined.

(** X6: what a run that completes has printed: for each wheel group, in the
    order in which the groups first appeared and numbered from 1, a progress
    line and then one [Deleting] line per file removed, greatest version
    first; the line that closes the wheels; the same for the sdist groups;
    and the closing line.  So there is one progress line per group and one
    [Deleting] line per deleted file. *)
Theorem run_prints_progress (keep : nat) (dir und : list string) (st : state) :
  run keep dir und = Ok (tt, st) ->
  stdout st = expected_stdout keep dir
  /\ length (expected_stdout keep dir)
     = length (retention_groups dir)
       + length (planned_deletions keep dir) + 2.
Proof.
  intros Hrun. split.
  - now apply run_inv in Hrun as [-> _].
  - unfold expected_stdout.
    assert (Hlen : forall {X : Type} (hdr : nat * (X * list entry) -> string)
                     (gs : list (X * list entry)),
      length (concat (map (fun it => hdr it
                                     :: deleting_lines keep (snd (snd it)))
                          (enumerate1 gs)))
      = length gs
        + length (concat (map (fun g => map snd
                                          (skipn keep (sorted_desc g)))
                              (map snd gs)))).
    { intros X hdr gs. unfold enumerate1. generalize 1.
      induction gs as [|[k g] gs IH]; intros n; [reflexivity|].
      simpl. rewrite !length_app, (IH (S n)).
      unfold deleting_lines. rewrite !length_map. simpl. lia. }
    rewrite !length_app, !Hlen. simpl.
    unfold planned_deletions, retention_groups.
    rewrite map_app, concat_app, !length_app, !length_map. lia.
Qed.

Lemma run_prints_progress_witness :
  exists st,
    run 3 example_mirror ["README.txt"] = Ok (tt, st)
    /\ stdout st = expected_stdout 3 example_mirror
    /\ length (expected_stdout 3 example_mirror)
       = length (retention_groups example_mirror)
         + length (planned_deletions 3 example_mirror) + 2.
Proof.
  eexists. split; [vm_compute; reflexivity|].
  apply (run_prints_progress 3 example_mirror ["README.txt"]).
  vm_compute. reflexivity.
Defined.

(** * Further properties of the filename patterns *)

Section Shapes.
Local Open Scope string_scope.

Lemma captured_first (c post : string) :
  substring (String.length (c ++ post) - String.length (c ++ post))
            (String.length (c ++ post) - String.length post)
            (c ++ post) = c.
Proof. exact (captured "" c post). Qed.

Lemma all_in_app (k : cclass) (s t : string) :
  all_in k (s ++ t) = all_in k s && all_in k t.
Proof.
  induction s as [|a s IH]; [reflexivity|].
  rewrite append_cons. cbn [all_in]. now rewrite IH, andb_assoc.
Qed.

(** [(cp\d+|py\d+|py2\.py3)] matches an interpreter tag and sets no group. *)
Lemma tag_body (input s s' : string) (g g' : groups) :
  matches input
          (Alt (Seq (Lit "cp") (Plus Digit))
               (Alt (Seq (Lit "py") (Plus Digit)) (Lit "py2.py3")))
          s g s' g' ->
  exists c, s = c ++ s' /\ is_interp_tag c = true /\ g' = g.
Proof.
  simpl.
  intros [(s1 & g1 & (-> & ->) & d & -> & Hne & Hd & ->)
         |[(s1 & g1 & (-> & ->) & d & -> & Hne & Hd & ->)|[-> ->]]].
  - exists ("cp" ++ d). repeat split.
    destruct d as [|x d]; [congruence|].
    change (is_interp_tag ("cp" ++ String x d))
      with (all_in Digit (String x d)). exact Hd.
  - exists ("py" ++ d). repeat split.
    destruct d as [|x d]; [congruence|].
    unfold is_interp_tag. apply orb_true_iff. right.
    change (all_in Digit (String x d) = true). exact Hd.
  - exists "py2.py3". now repeat split.
Qed.

(** [(tar\.gz|tar\.bz2|zip)] matches an archive extension. *)
Lemma ext_body (input s s' : string) (g g' : groups) :
  matches input (Alt (Lit "tar.gz") (Alt (Lit "tar.bz2") (Lit "zip")))
          s g s' g' ->
  exists c, s = c ++ s' /\ is_sdist_ext c = true /\ g' = g.
Proof.
  simpl. intros [[-> ->]|[[-> ->]|[-> ->]]];
    [exists "tar.gz"|exists "tar.bz2"|exists "zip"]; now repeat split.
Qed.

Lemma wheel_parts (name a v t : string) :
  match_groups wheel_pattern name = Some (a, v, t) ->
  exists rest tail,
    name = a ++ "-" ++ v ++ "-" ++ t ++ "-" ++ rest ++ ".whl" ++ tail
    /\ is_tail tail = true
    /\ a <> "" /\ all_in Dot a = true
    /\ is_interp_tag t = true
    /\ rest <> "" /\ all_in Dot rest = true.
Proof.
  intros H. apply match_groups_some in H as (m & Hm & Ha & Hv & Ht).
  apply rmatch_sound in Hm as [s' Hm]. unfold wheel_pattern in Hm.
  remember (cat [Plus Digit; Lit "."; Plus Digit; Lit "."; Plus Digit;
                 StarLazy Dot]) as V eqn:HV.
  remember (Alt (Seq (Lit "cp") (Plus Digit))
                (Alt (Seq (Lit "py") (Plus Digit)) (Lit "py2.py3")))
    as T eqn:HT.
  simpl in Hm.
  destruct Hm as (s0 & g0 & (-> & -> & _)
                  & s1 & g1 & (g1' & (c1 & Hname & Hc1 & Ac1 & ->) & ->)
                  & s2 & g2 & (-> & ->)
                  & s3 & g3 & (g3' & HmV & ->)
                  & s4 & g4 & (-> & ->)
                  & s5 & g5 & (g5' & HmT & ->)
                  & s6 & g6 & (-> & ->)
                  & s7 & g7 & (c7 & -> & Hc7 & Ac7 & ->)
                  & s8 & g8 & (-> & ->)
                  & -> & -> & Htail).
  subst V T.
  apply version_body in HmV as (cv & -> & _ & ->).
  apply tag_body in HmT as (ct & -> & Htag & ->).
  rewrite group_set_eq in Ht.
  rewrite group_set_ne, group_set_eq in Hv by discriminate.
  rewrite !group_set_ne, group_set_eq in Ha by discriminate.
  assert (Ea : substring (String.length name - String.length name)
                 (String.length name - String.length ("-" ++ cv ++ "-" ++ ct ++ "-" ++ c7 ++ ".whl" ++ s8))
                 name = c1).
  { rewrite Hname at 1 2 3 4. apply captured_first. }
  assert (Ev : substring
                 (String.length name
                  - String.length (cv ++ "-" ++ ct ++ "-" ++ c7 ++ ".whl" ++ s8))
                 (String.length (cv ++ "-" ++ ct ++ "-" ++ c7 ++ ".whl" ++ s8)
                  - String.length ("-" ++ ct ++ "-" ++ c7 ++ ".whl" ++ s8))
                 name = cv).
  { rewrite Hname.
    change (c1 ++ "-" ++ cv ++ "-" ++ ct ++ "-" ++ c7 ++ ".whl" ++ s8)
      with (c1 ++ "-" ++ (cv ++ "-" ++ ct ++ "-" ++ c7 ++ ".whl" ++ s8)).
    rewrite <- (append_assoc c1 "-"). apply captured. }
  assert (Et : substring
                 (String.length name
                  - String.length (ct ++ "-" ++ c7 ++ ".whl" ++ s8))
                 (String.length (ct ++ "-" ++ c7 ++ ".whl" ++ s8)
                  - String.length ("-" ++ c7 ++ ".whl" ++ s8))
                 name = ct).
  { replace name
      with ((c1 ++ "-" ++ cv ++ "-") ++ ct ++ "-" ++ c7 ++ ".whl" ++ s8)
      by (rewrite Hname; now rewrite !append_assoc).
    apply captured. }
  assert (a = c1) as -> by (injection Ha as <-; exact Ea).
  assert (v = cv) as -> by (injection Hv as <-; exact Ev).
  assert (t = ct) as -> by (injection Ht as <-; exact Et).
  exists c7, s8. repeat split; try assumption.
  destruct Htail as [->| ->]; reflexivity.
Qed.

Lemma sdist_parts (name a v t : string) :
  match_groups sdist_pattern name = Some (a, v, t) ->
  exists tail,
    name = a ++ "-" ++ v ++ "." ++ t ++ tail
    /\ is_tail tail = true
    /\ a <> "" /\ all_in Dot a = true
    /\ is_sdist_ext t = true.
Proof.
  intros H. apply match_groups_some in H as (m & Hm & Ha & Hv & Ht).
  apply rmatch_sound in Hm as [s' Hm]. unfold sdist_pattern in Hm.
  remember (cat [Plus Digit; Lit "."; Plus Digit; Lit "."; Plus Digit;
                 StarLazy Dot]) as V eqn:HV.
  remember (Alt (Lit "tar.gz") (Alt (Lit "tar.bz2") (Lit "zip")))
    as T eqn:HT.
  simpl in Hm.
  destruct Hm as (s0 & g0 & (-> & -> & _)
                  & s1 & g1 & (g1' & (c1 & Hname & Hc1 & Ac1 & ->) & ->)
                  & s2 & g2 & (-> & ->)
                  & s3 & g3 & (g3' & HmV & ->)
                  & s4 & g4 & (-> & ->)
                  & s5 & g5 & (g5' & HmT & ->)
                  & -> & -> & Htail).
  subst V T.
  apply version_body in HmV as (cv & -> & _ & ->).
  apply ext_body in HmT as (ct & -> & Hext & ->).
  rewrite group_set_eq in Ht.
  rewrite group_set_ne, group_set_eq in Hv by discriminate.
  rewrite !group_set_ne, group_set_eq in Ha by discriminate.
  assert (Ea : substring (String.length name - String.length name)
                 (String.length name
                  - String.length ("-" ++ cv ++ "." ++ ct ++ s5))
                 name = c1).
  { rewrite Hname at 1 2 3 4. apply captured_first. }
  assert (Ev : substring
                 (String.length name
                  - String.length (cv ++ "." ++ ct ++ s5))
                 (String.length (cv ++ "." ++ ct ++ s5)
                  - String.length ("." ++ ct ++ s5))
                 name = cv).
  { rewrite Hname.
    change (c1 ++ "-" ++ cv ++ "." ++ ct ++ s5)
      with (c1 ++ "-" ++ (cv ++ "." ++ ct ++ s5)).
    rewrite <- (append_assoc c1 "-"). apply captured. }
  assert (Et : substring
                 (String.length name - String.length (ct ++ s5))
                 (String.length (ct ++ s5) - String.length s5)
                 name = ct).
  { replace name with ((c1 ++ "-" ++ cv ++ ".") ++ ct ++ s5)
      by (rewrite Hname; now rewrite !append_assoc).
    apply captured. }
  assert (a = c1) as -> by (injection Ha as <-; exact Ea).
  assert (v = cv) as -> by (injection Hv as <-; exact Ev).
  assert (t = ct) as -> by (injection Ht as <-; exact Et).
  exists s5. repeat split; try assumption.
  destruct Htail as [->| ->]; reflexivity.
Qed.

End Shapes.

Section Suffixes.
Local Open Scope string_scope.

Lemma endswith_refl (p : string) : Py.endswith p p = true.
Proof.
  destruct p as [|a p]; [reflexivity|].
  cbn [Py.endswith]. now rewrite String.eqb_refl.
Qed.

Lemma endswith_app (x p : string) : Py.endswith p (x ++ p) = true.
Proof.
  induction x as [|a x IH]; [apply endswith_refl|].
  rewrite append_cons. cbn [Py.endswith]. rewrite IH. apply orb_true_r.
Qed.

(** Of two suffixes of a text, one is a suffix of the other. *)
Lemma endswith_both (p q s : string) :
  Py.endswith p s = true -> Py.endswith q s = true ->
  Py.endswith p q = true \/ Py.endswith q p = true.
Proof.
  induction s as [|a s IH]; cbn [Py.endswith]; intros Hp Hq.
  - rewrite orb_false_r in Hp, Hq.
    apply String.eqb_eq in Hp, Hq. subst. left. reflexivity.
  - apply orb_true_iff in Hp as [Hp|Hp].
    + apply String.eqb_eq in Hp. subst p. right.
      cbn [Py.endswith]. exact Hq.
    + apply orb_true_iff in Hq as [Hq|Hq].
      * apply String.eqb_eq in Hq. subst q. left.
        cbn [Py.endswith]. rewrite Hp. apply orb_true_r.
      * now apply IH.
Qed.

Lemma lower_app (s t : string) :
  Py.lower (s ++ t) = Py.lower s ++ Py.lower t.
Proof.
  induction s as [|a s IH]; [reflexivity|].
  rewrite append_cons. simpl. now rewrite IH, append_cons.
Qed.

Lemma tail_cases (tail : string) :
  is_tail tail = true -> tail = "" \/ tail = String "010" "".
Proof.
  unfold is_tail. intros H. apply orb_true_iff in H as [H|H];
    apply String.eqb_eq in H; auto.
Qed.

(** A name that ends in [ext] and then a tail, and that the glob for [ext']
    selects, has no tail when neither extension with a newline is a suffix
    of the other. *)
Lemma glob_excludes_newline (x ext ext' tail name : string) :
  name = x ++ ext ++ tail ->
  is_tail tail = true ->
  Py.lower ext = ext ->
  Py.endswith ext' (Py.lower name) = true ->
  Py.endswith ext' (ext ++ String "010" "") = false ->
  Py.endswith (ext ++ String "010" "") ext' = false ->
  tail = "".
Proof.
  intros -> Htail Hext Hglob H1 H2.
  apply tail_cases in Htail as [->| ->]; [reflexivity|]. exfalso.
  rewrite <- append_assoc, lower_app in Hglob.
  assert (Hend : Py.endswith (ext ++ String "010" "")
                   (Py.lower (x ++ ext)
                    ++ Py.lower (String "010" "")) = true).
  { rewrite lower_app, Hext, append_assoc. apply endswith_app. }
  destruct (endswith_both _ _ _ Hglob Hend) as [H|H]; congruence.
Qed.

End Suffixes.

(** X7: a name the wheel pattern matches reassembles from its groups: it is
    name, version, interpreter tag and a non-empty remainder joined by
    hyphens, then [.whl], then at most one final newline; the package name
    is not empty, neither it nor the remainder holds a newline, and the tag
    is [cp] or [py] with digits or [py2.py3].  A name that the [*.whl] glob
    selects has no final newline. *)
Theorem wheel_name_reassembles (name a v t : string) :
  match_groups wheel_pattern name = Some (a, v, t) ->
  exists rest tail,
    name = a +:+ "-" +:+ v +:+ "-" +:+ t +:+ "-" +:+ rest +:+ ".whl" +:+ tail
    /\ is_tail tail = true
    /\ a <> "" /\ all_in Dot a = true
    /\ is_interp_tag t = true
    /\ rest <> "" /\ all_in Dot rest = true
    /\ (Py.endswith ".whl" (Py.lower name) = true -> tail = "").
Proof.
  intros H. apply wheel_parts in H
    as (rest & tail & Hname & Htail & Ha & Aa & Ht & Hr & Ar).
  exists rest, tail. repeat split; try assumption.
  intros Hglob.
  apply (glob_excludes_newline
           (a +:+ "-" +:+ v +:+ "-" +:+ t +:+ "-" +:+ rest)
           ".whl" ".whl" tail name); try assumption; try reflexivity.
  rewrite Hname. now rewrite !append_assoc.
Qed.

Lemma wheel_name_reassembles_witness :
  exists rest tail,
    "numpy-1.24.3-cp313-cp313-win_amd64.whl"
    = "numpy" +:+ "-" +:+ "1.24.3" +:+ "-" +:+ "cp313" +:+ "-" +:+ rest
      +:+ ".whl" +:+ tail
    /\ is_tail tail = true
    /\ "numpy" <> "" /\ all_in Dot "numpy" = true
    /\ is_interp_tag "cp313" = true
    /\ rest <> "" /\ all_in Dot rest = true
    /\ (Py.endswith ".whl" (Py.lower "numpy-1.24.3-cp313-cp313-win_amd64.whl")
        = true -> tail = "").
Proof.
  apply (wheel_name_reassembles "numpy-1.24.3-cp313-cp313-win_amd64.whl").
  vm_compute. reflexivity.
Defined.

(** X8: a name the sdist pattern matches reassembles from its groups: name,
    a hyphen, version, a dot, one of the extensions [tar.gz], [tar.bz2] and
    [zip], then at most one final newline; the package name is not empty
    and holds no newline.  A name that one of the three globs selects has
    no final newline. *)
Theorem sdist_name_reassembles (name a v t : string) :
  match_groups sdist_pattern name = Some (a, v, t) ->
  exists tail,
    name = a +:+ "-" +:+ v +:+ "." +:+ t +:+ tail
    /\ is_tail tail = true
    /\ a <> "" /\ all_in Dot a = true
    /\ is_sdist_ext t = true
    /\ (Py.endswith ".tar.gz" (Py.lower name) = true
        \/ Py.endswith ".tar.bz2" (Py.lower name) = true
        \/ Py.endswith ".zip" (Py.lower name) = true -> tail = "").
Proof.
  intros H. apply sdist_parts in H as (tail & Hname & Htail & Ha & Aa & Ht).
  exists tail. repeat split; try assumption.
  assert (Hname' : name = (a +:+ "-" +:+ v) +:+ ("." +:+ t) +:+ tail).
  { rewrite Hname. now rewrite !append_assoc. }
  unfold is_sdist_ext in Ht.
  apply orb_true_iff in Ht as [Ht|Ht];
    [apply orb_true_iff in Ht as [Ht|Ht]|];
    apply String.eqb_eq in Ht; subst t;
    (intros [Hg|[Hg|Hg]];
     [ apply (glob_excludes_newline _ _ ".tar.gz" tail name Hname' Htail)
     | apply (glob_excludes_newline _ _ ".tar.bz2" tail name Hname' Htail)
     | apply (glob_excludes_newline _ _ ".zip" tail name Hname' Htail) ];
     try assumption; reflexivity).
Qed.

Lemma sdist_name_reassembles_witness :
  exists tail,
    "numpy-1.24.3.tar.gz" = "numpy" +:+ "-" +:+ "1.24.3" +:+ "." +:+ "tar.gz"
                            +:+ tail
    /\ is_tail tail = true
    /\ "numpy" <> "" /\ all_in Dot "numpy" = true
    /\ is_sdist_ext "tar.gz" = true
    /\ (Py.endswith ".tar.gz" (Py.lower "numpy-1.24.3.tar.gz") = true
        \/ Py.endswith ".tar.bz2" (Py.lower "numpy-1.24.3.tar.gz") = true
        \/ Py.endswith ".zip" (Py.lower "numpy-1.24.3.tar.gz") = true ->
        tail = "").
Proof.
  apply (sdist_name_reassembles "numpy-1.24.3.tar.gz").
  vm_compute. reflexivity.
Defined.

(** X9: no name matches both patterns, so no archive can enter a wheel
    group and an sdist group. *)
Theorem patterns_are_exclusive (name : string) :
  is_Some (match_groups wheel_pattern name) ->
  match_groups sdist_pattern name = None.
Proof.
  intros [[[a v] t] Hw].
  destruct (match_groups sdist_pattern name) as [[[a' v'] t']|] eqn:Hs;
    [exfalso|reflexivity].
  apply wheel_parts in Hw as (rest & tail & Hname & Htail & _).
  apply sdist_parts in Hs as (tail' & Hname' & Htail' & _ & _ & Hext).
  assert (Hw : Py.endswith (".whl" +:+ tail) name = true).
  { rewrite Hname.
    replace (a +:+ "-" +:+ v +:+ "-" +:+ t +:+ "-" +:+ rest +:+ ".whl" +:+ tail)
      with ((a +:+ "-" +:+ v +:+ "-" +:+ t +:+ "-" +:+ rest)
            +:+ ".whl" +:+ tail)
      by (now rewrite !append_assoc).
    apply endswith_app. }
  assert (Hs : Py.endswith ("." +:+ t' +:+ tail') name = true).
  { rewrite Hname'.
    replace (a' +:+ "-" +:+ v' +:+ "." +:+ t' +:+ tail')
      with ((a' +:+ "-" +:+ v') +:+ "." +:+ t' +:+ tail')
      by (now rewrite !append_assoc).
    apply endswith_app. }
  pose proof (endswith_both _ _ _ Hw Hs) as Hboth.
  apply tail_cases in Htail, Htail'.
  unfold is_sdist_ext in Hext.
  apply orb_true_iff in Hext as [Hext|Hext];
    [apply orb_true_iff in Hext as [Hext|Hext]|];
    apply String.eqb_eq in Hext; subst t';
    destruct Htail as [->| ->], Htail' as [->| ->];
    vm_compute in Hboth; destruct Hboth; discriminate.
Qed.

Lemma patterns_are_exclusive_witness :
  match_groups sdist_pattern "numpy-1.24.3-cp313-cp313-win_amd64.whl" = None.
Proof.
  apply (patterns_are_exclusive "numpy-1.24.3-cp313-cp313-win_amd64.whl").
  vm_compute. eexists. reflexivity.
Defined.

(** * Further properties of the reporter *)

Section Walk.

Lemma tree_induction (P : tree -> Prop) :
  (forall files dirs,
      List.Forall (fun d => P (snd d)) dirs -> P (Dir files dirs)) ->
  forall t, P t.
Proof.
  intros H. fix IH 1. intros [files dirs]. apply H.
  induction dirs as [|[d sub] dirs IHd]; constructor;
    [apply IH|exact IHd].
Qed.

Lemma scan_dir (root : path) (files : list (string * file))
      (dirs : list (string * tree)) :
  scan_ado_files root (Dir files dirs)
  = map (fun nf => (joinpath root (fst nf), snd nf))
        (filter (fun nf : string * file => is_ado (fst nf)) files)
    ++ concat (map (fun ds => scan_ado_files (joinpath root (fst ds)) (snd ds))
                   dirs).
Proof.
  simpl. f_equal.
  induction dirs as [|[d sub] dirs IH]; [reflexivity|].
  simpl. now rewrite IH.
Qed.

Lemma tree_ok_dir (files : list (string * file))
      (dirs : list (string * tree)) :
  tree_ok (Dir files dirs) <->
  NoDup (map fst files) /\ NoDup (map fst dirs)
  /\ List.Forall (fun d => tree_ok (snd d)) dirs.
Proof.
  simpl. split; intros (Hf & Hd & Hsub); (split; [exact Hf|split; [exact Hd|]]).
  - induction dirs as [|[d sub] dirs IH]; constructor.
    + apply Hsub.
    + apply IH; [|apply Hsub]. simpl in Hd. now apply NoDup_cons in Hd.
  - induction Hsub as [|[d sub] dirs Hs Hsub IH]; [exact I|].
    split; [exact Hs|]. apply IH. simpl in Hd. now apply NoDup_cons in Hd.
Qed.

Lemma file_at_nonempty (t : tree) (comps : list string) (f : file) :
  file_at t comps f -> comps <> [].
Proof. now destruct 1. Qed.

Lemma below_join (root : path) (d : string) (comps : list string) :
  below (joinpath root d) comps = below root (d :: comps).
Proof. unfold below, joinpath. simpl. now rewrite <- app_assoc. Qed.

Lemma scan_elem (t : tree) :
  forall (root p : path) (f : file),
    In (p, f) (scan_ado_files root t) <->
    exists comps,
      p = below root comps /\ file_at t comps f
      /\ is_ado (List.last comps "") = true.
Proof.
  induction t as [files dirs IH] using tree_induction.
  intros root p f. rewrite scan_dir, in_app_iff. split.
  - intros [Hin|Hin].
    + apply in_map_iff in Hin as ([nm f'] & [= <- <-] & Hin).
      apply list_elem_of_In, list_elem_of_filter in Hin as [Hado Hin].
      exists [nm]. split; [reflexivity|split].
      * constructor. now apply list_elem_of_In.
      * now apply Is_true_true.
    + apply in_concat in Hin as (l & Hl & Hin).
      apply in_map_iff in Hl as ([d sub] & <- & Hd).
      rewrite List.Forall_forall in IH.
      apply (IH (d, sub) Hd) in Hin as (comps & -> & Hat & Hado).
      exists (d :: comps). split; [apply below_join|split].
      * now apply (file_below files dirs d sub).
      * pose proof (file_at_nonempty _ _ _ Hat).
        destruct comps; [congruence|exact Hado].
  - intros (comps & -> & Hat & Hado).
    inversion Hat as [? ? nm ? Hin|? ? d sub comps' ? Hd Hsub]; subst.
    + left. apply in_map_iff. exists (nm, f). split; [reflexivity|].
      apply list_elem_of_In, list_elem_of_filter. split.
      * now apply Is_true_true.
      * now apply list_elem_of_In.
    + right. apply in_concat.
      exists (scan_ado_files (joinpath root d) sub). split.
      * apply in_map_iff. now exists (d, sub).
      * rewrite List.Forall_forall in IH. apply (IH (d, sub) Hd).
        exists comps'. split; [symmetry; apply below_join|split].
        -- exact Hsub.
        -- pose proof (file_at_nonempty _ _ _ Hsub).
           destruct comps'; [congruence|exact Hado].
Qed.

Lemma below_inj (root : path) (c1 c2 : list string) :
  below root c1 = below root c2 -> c1 = c2.
Proof. unfold below. intros [= H]. now apply app_inv_head in H. Qed.

Lemma scan_NoDup (t : tree) :
  forall root : path, tree_ok t -> NoDup (map fst (scan_ado_files root t)).
Proof.
  induction t as [files dirs IH] using tree_induction.
  intros root Hok. apply tree_ok_dir in Hok as (Hf & Hd & Hsub).
  rewrite scan_dir, map_app. apply NoDup_app. split; [|split].
  - rewrite map_map. simpl.
    assert (Hnd : NoDup (map fst (filter (fun nf : string * file =>
                                            is_ado (fst nf)) files))).
    { eapply sublist_NoDup; [exact Hf|].
      apply (fmap_sublist fst), sublist_filter. }
    rewrite <- (map_map fst (joinpath root)).
    apply (NoDup_fmap_2_strong (joinpath root)); [|exact Hnd].
    intros x y _ _ Hxy. apply (below_inj root [x] [y]) in Hxy.
    congruence.
  - intros p Hp Hp'.
    apply list_elem_of_In, in_map_iff in Hp as ([p1 f1] & <- & Hp).
    apply in_map_iff in Hp as ([nm f] & [= <- <-] & _).
    apply list_elem_of_In, in_map_iff in Hp' as ([p2 f2] & Heq & Hp').
    simpl in Heq. subst p2.
    apply in_concat in Hp' as (l & Hl & Hin).
    apply in_map_iff in Hl as ([d sub] & <- & Hdin).
    apply scan_elem in Hin as (comps & Heq & Hat & _).
    rewrite below_join in Heq. apply (below_inj root [nm]) in Heq.
    injection Heq as _ <-. now apply file_at_nonempty in Hat.
  - clear Hf. induction dirs as [|[d sub] dirs IHd]; [apply NoDup_nil_2|].
    simpl. rewrite map_app. simpl in Hd.
    apply NoDup_cons in Hd as [Hd Hds].
    inversion Hsub as [|? ? Hs Hsubs]; subst.
    inversion IH as [|? ? IHs IHs']; subst.
    apply NoDup_app. split; [now apply IHs|split; [|now apply IHd]].
    intros p Hp Hp'.
    apply list_elem_of_In, in_map_iff in Hp as ([p1 f1] & <- & Hp).
    apply scan_elem in Hp as (c1 & -> & Hat1 & _).
    apply list_elem_of_In, in_map_iff in Hp' as ([p2 f2] & Heq & Hp').
    simpl in Heq. subst p2.
    apply in_concat in Hp' as (l & Hl & Hin).
    apply in_map_iff in Hl as ([d' sub'] & <- & Hdin).
    apply scan_elem in Hin as (c2 & Heq & Hat2 & _).
    rewrite !below_join in Heq. apply below_inj in Heq.
    injection Heq as <- _. apply Hd.
    apply list_elem_of_In. apply (in_map fst _ (d, sub')). exact Hdin.
Qed.

End Walk.

(** X10: the walk finds every ado file, at any depth: a path is scanned
    with a file exactly when directory names and a file name lead from the
    root to that file in the tree and the file name ends in [.ado], in any
    letter case; when the names listed in each directory are distinct, no
    path is scanned twice, so the report has exactly one row per ado file. *)
Theorem walk_finds_every_ado_file (h : host) (shared_root : path) (t : tree) :
  (forall p f,
      In (p, f) (scan_ado_files shared_root t) <->
      exists comps,
        p = below shared_root comps /\ file_at t comps f
        /\ Py.endswith ".ado" (Py.lower (List.last comps "")) = true)
  /\ (tree_ok t -> NoDup (map fst (scan_ado_files shared_root t)))
  /\ (forall hash_root hashes,
        os_name h = "nt" -> shared_ado h = Some t ->
        load_hash_index h shared_root = Ok (hash_root, hashes) ->
        exists rows,
          print_report h shared_root = Ok rows
          /\ length rows = length (scan_ado_files shared_root t)).
Proof.
  split; [|split].
  - intros p f. apply scan_elem.
  - apply scan_NoDup.
  - intros hash_root hashes Hos Ht Hload. eexists.
    split; [now apply (print_report_rows h _ hash_root hashes t)|].
    now rewrite length_map.
Qed.

Lemma walk_finds_every_ado_file_witness :
  NoDup (map fst (scan_ado_files DEFAULT_SHARED_ADO
                    (Dir [("a.ado", Unreadable); ("b.txt", Content "")]
                         [("sub", Dir [("a.ADO", Content "* x")] [])]))).
Proof.
  apply (proj1 (proj2 (walk_finds_every_ado_file
           {| os_name := "nt"; shared_ado := None; baseline := Missing;
              py_repr := fun _ => "" |} DEFAULT_SHARED_ADO
           (Dir [("a.ado", Unreadable); ("b.txt", Content "")]
                [("sub", Dir [("a.ADO", Content "* x")] [])])))).
  simpl. repeat split; repeat constructor; try (intros H; inversion H; subst;
    match goal with H' : _ ∈ _ |- _ => inversion H' end);
    try (intros H; inversion H).
Defined.

Section Header.

Lemma scan_line_eq (line : string) (md : metadata) :
  scan_line line md
  = {| version := match version_of line with
                  | Some v => Some v
                  | None => version md
                  end;
       description := if Py.truthy (description md) then description md
                      else match comment_text line with
                           | Some d => Some d
                           | None => description md
                           end |}.
Proof.
  destruct md as [ver desc]. unfold scan_line, version_of, comment_text.
  simpl version. simpl description.
  destruct (Py.startswith "*" (Py.strip line)) eqn:Hs; simpl.
  - rewrite andb_false_r. now destruct (Py.truthy desc).
  - destruct (Py.contains "version" (Py.lower (Py.strip line))); simpl.
    + destruct (find_version _); now destruct (Py.truthy desc).
    + now destruct (Py.truthy desc).
Qed.

Lemma scan_line_description (line : string) (md : metadata) :
  description (scan_line line md)
  = if Py.truthy (description md) then description md
    else match comment_text line with
         | Some d => Some d
         | None => description md
         end.
Proof. now rewrite scan_line_eq. Qed.

Lemma scan_line_version_eq (line : string) (md : metadata) :
  version (scan_line line md)
  = match version_of line with
    | Some v => Some v
    | None => version md
    end.
Proof. now rewrite scan_line_eq. Qed.

Lemma scan_lines_description (lines : list string) (md : metadata) :
  Py.or_empty (description (scan_lines lines md))
  = if Py.truthy (description md) then Py.or_empty (description md)
    else first_text lines.
Proof.
  revert md. induction lines as [|line rest IH]; intros md.
  - simpl. unfold Py.or_empty. now destruct (Py.truthy (description md)).
  - cbn [scan_lines first_text].
    pose proof (scan_line_description line md) as Hd.
    specialize (IH (scan_line line md)).
    destruct (Py.truthy (description md)) eqn:E.
    + destruct (_ && _); [now rewrite Hd|].
      rewrite IH, Hd, E. reflexivity.
    + destruct (comment_text line) as [[|c d]|].
      * rewrite Hd in IH. simpl in IH.
        replace (Py.truthy (version (scan_line line md))
                 && Py.truthy (description (scan_line line md)))
          with false; [exact IH|].
        rewrite Hd. simpl. now rewrite andb_false_r.
      * destruct (_ && _); [now rewrite Hd|].
        rewrite IH, Hd. reflexivity.
      * rewrite Hd, E in IH.
        replace (Py.truthy (version (scan_line line md))
                 && Py.truthy (description (scan_line line md)))
          with false; [exact IH|].
        rewrite Hd, E. now rewrite andb_false_r.
Qed.

Lemma split_from_nonempty (s : string) (cur : list ascii) :
  List.Forall (fun t => t <> "") (Py.split_from cur s).
Proof.
  assert (Hflush : forall cur : list ascii,
            List.Forall (fun t => t <> "")
              match cur with
              | [] => []
              | _ => [string_of_list_ascii (rev cur)]
              end).
  { intros [|c l]; constructor; [|constructor].
    simpl. rewrite of_list_app. simpl.
    destruct (string_of_list_ascii (rev l)); discriminate. }
  revert cur. induction s as [|c s IH]; intros cur; simpl.
  - apply Hflush.
  - destruct (Py.isspace c); [|apply IH].
    apply List.Forall_app. split; [apply Hflush|apply IH].
Qed.

Lemma version_of_truthy (line v : string) :
  version_of line = Some v -> Py.truthy (Some v) = true.
Proof.
  unfold version_of. destruct (_ && _); [|discriminate].
  intros H. apply find_version_in in H.
  pose proof (split_from_nonempty (Py.lower (Py.strip line)) []) as Hne.
  rewrite List.Forall_forall in Hne. apply Hne in H.
  now destruct v.
Qed.

(** Lines without a version leave the scan running with no version. *)
Lemma scan_lines_skip (pre rest : list string) (md : metadata) :
  version md = None ->
  (forall l, In l pre -> version_of l = None) ->
  exists md',
    scan_lines (pre ++ rest) md = scan_lines rest md'
    /\ version md' = None
    /\ Py.or_empty (description md')
       = if Py.truthy (description md) then Py.or_empty (description md)
         else first_text pre.
Proof.
  revert md. induction pre as [|line pre IH]; intros md Hv Hpre.
  - exists md. split; [reflexivity|split; [exact Hv|]].
    simpl. unfold Py.or_empty. now destruct (Py.truthy (description md)).
  - assert (Hv' : version (scan_line line md) = None).
    { rewrite scan_line_version_eq, (Hpre line) by now left. exact Hv. }
    destruct (IH (scan_line line md) Hv') as (md' & Hscan & Hver & Hdesc).
    { intros l Hl. apply Hpre. now right. }
    exists md'. split; [|split; [exact Hver|]].
    + simpl. rewrite Hv'. simpl. exact Hscan.
    + rewrite Hdesc, scan_line_description. cbn [first_text].
      destruct (Py.truthy (description md)) eqn:E; [now rewrite E|].
      destruct (comment_text line) as [[|c d]|]; simpl; try reflexivity.
      now rewrite E.
Qed.

Lemma scan_lines_last_version (lines : list string) (md : metadata) :
  Py.truthy (description md) = false ->
  first_text lines = "" ->
  version (scan_lines lines md)
  = match last (omap version_of lines) with
    | Some v => Some v
    | None => version md
    end.
Proof.
  revert md. induction lines as [|line rest IH]; intros md Hd Hnone.
  - reflexivity.
  - cbn [first_text] in Hnone.
    assert (Hd' : Py.truthy (description (scan_line line md)) = false).
    { rewrite scan_line_description, Hd.
      destruct (comment_text line) as [[|c d]|]; try easy. }
    assert (Hrest : first_text rest = "").
    { destruct (comment_text line) as [[|c d]|]; try easy. }
    cbn [scan_lines]. rewrite Hd', andb_false_r.
    rewrite (IH _ Hd' Hrest), scan_line_version_eq.
    cbn [omap list_omap]. destruct (version_of line) as [v|]; [|reflexivity].
    rewrite last_cons. now destruct (last (omap version_of rest)).
Qed.

End Header.

(** X11: the description reported for a file is the text of the first
    comment line, among the first thirty, that has any text once the markers
    and blanks are stripped; a comment line without text does not count; an
    unreadable file, or one without such a line, gets an empty description. *)
Theorem description_is_first_comment_text (f : file) :
  Py.or_empty (description (extract_local_metadata f))
  = match f with
    | Unreadable => ""
    | Content text => first_text (firstn SUMMARY_LINE_LIMIT (readlines text))
    end.
Proof.
  destruct f as [|text]; [reflexivity|].
  unfold extract_local_metadata. now rewrite scan_lines_description.
Qed.

(** X12: when the description comes first, the usual layout, the version
    reported is the one of the first version line: if among the first thirty
    lines the lines before a version line hold no version but a comment
    with text, the scan stops at that line and reports its version. *)
Theorem version_after_description
        (text : string) (pre post : list string) (vline v : string) :
  firstn SUMMARY_LINE_LIMIT (readlines text) = pre ++ vline :: post ->
  (forall l, In l pre -> version_of l = None) ->
  first_text pre <> "" ->
  version_of vline = Some v ->
  version (extract_local_metadata (Content text)) = Some v
  /\ Py.or_empty (description (extract_local_metadata (Content text)))
     = first_text pre.
Proof.
  intros Hlines Hpre Hdesc Hv. unfold extract_local_metadata.
  rewrite Hlines.
  destruct (scan_lines_skip pre (vline :: post)
              {| version := None; description := None |} eq_refl Hpre)
    as (md' & Hscan & Hver & Hd).
  simpl in Hd. rewrite Hscan. cbn [scan_lines].
  assert (Ht : Py.truthy (description md') = true).
  { unfold Py.or_empty in Hd. destruct (Py.truthy (description md'));
      [reflexivity|congruence]. }
  assert (Hv' : version (scan_line vline md') = Some v)
    by (now rewrite scan_line_version_eq, Hv).
  assert (Hd' : description (scan_line vline md') = description md')
    by (now rewrite scan_line_description, Ht).
  rewrite Hv', Hd', Ht, (version_of_truthy vline v Hv). simpl.
  now rewrite Hv', Hd'.
Qed.

Lemma version_after_description_witness :
  version (extract_local_metadata
             (Content ("* Summary" +:+ String "010"
                       ("version 16.0" +:+ String "010"
                        ("version 17" +:+ String "010" "")))))
  = Some "16.0"
  /\ Py.or_empty (description (extract_local_metadata
             (Content ("* Summary" +:+ String "010"
                       ("version 16.0" +:+ String "010"
                        ("version 17" +:+ String "010" ""))))))
     = first_text ["* Summary" +:+ String "010" ""].
Proof.
  apply (version_after_description _
           ["* Summary" +:+ String "010" ""]
           ["version 17" +:+ String "010" ""]
           ("version 16.0" +:+ String "010" "") "16.0").
  - vm_compute. reflexivity.
  - intros l [<-|[]]. vm_compute. reflexivity.
  - vm_compute. discriminate.
  - vm_compute. reflexivity.
Defined.

(** X13: without a description the scan never stops early, and a later
    version line overrides an earlier one: when none of the first thirty
    lines is a comment with text, the version reported is the one of the
    last version line among them, or none. *)
Theorem last_version_wins_without_description (text : string) :
  first_text (firstn SUMMARY_LINE_LIMIT (readlines text)) = "" ->
  version (extract_local_metadata (Content text))
  = last (omap version_of (firstn SUMMARY_LINE_LIMIT (readlines text))).
Proof.
  intros Hnone. unfold extract_local_metadata.
  rewrite scan_lines_last_version by (reflexivity || exact Hnone).
  simpl. now destruct (last _).
Qed.

Lemma last_version_wins_without_description_witness :
  version (extract_local_metadata
             (Content ("version 16.0" +:+ String "010"
                       ("version 17" +:+ String "010" ""))))
  = last (omap version_of
            (firstn SUMMARY_LINE_LIMIT
               (readlines ("version 16.0" +:+ String "010"
                           ("version 17" +:+ String "010" ""))))).
Proof.
  apply last_version_wins_without_description. vm_compute. reflexivity.
Defined.

(** ** The index of hashes *)

Section Index.

Lemma add_entry_inv (index index' : gmap string json) (entry : json) :
  add_entry index entry = Ok index' ->
  (forall k v, index !! k = Some v -> Py.lower k = k /\ is_true v = true) ->
  forall k v, index' !! k = Some v -> Py.lower k = k /\ is_true v = true.
Proof.
  unfold add_entry.
  destruct entry as [| | | | | |fs]; simpl; try discriminate.
  destruct (is_true (default JNull (assoc "RelativePath" fs))) eqn:Hr; simpl;
    [|intros [= <-]; auto].
  destruct (is_true (default JNull (assoc "Hash" fs))) eqn:Hh; simpl;
    [|intros [= <-]; auto].
  destruct (default JNull (assoc "RelativePath" fs)) as [| | | |s| |];
    simpl; try discriminate.
  intros [= <-] Hinv k v.
  destruct (decide (k = Py.lower s)) as [->|Hne].
  - rewrite lookup_insert_eq. intros [= <-].
    split; [apply lower_idem|exact Hh].
  - rewrite lookup_insert_ne by congruence. apply Hinv.
Qed.

Lemma add_entries_inv (entries : list json) (index index' : gmap string json) :
  add_entries index entries = Ok index' ->
  (forall k v, index !! k = Some v -> Py.lower k = k /\ is_true v = true) ->
  forall k v, index' !! k = Some v -> Py.lower k = k /\ is_true v = true.
Proof.
  revert index. induction entries as [|e rest IH]; intros index; simpl.
  - intros [= <-]. auto.
  - destruct (add_entry index e) as [index1|x] eqn:He; simpl; [|discriminate].
    intros Hrest Hinv. apply (IH index1 Hrest).
    now apply (add_entry_inv index index1 e).
Qed.

Lemma add_entry_raises (index : gmap string json) (entry : json) (e : exn) :
  add_entry index entry = Raise e -> e = AttributeError.
Proof.
  unfold add_entry.
  destruct entry as [| | | | | |fs]; simpl; try (now intros [= <-]).
  destruct (is_true (default JNull (assoc "RelativePath" fs))); simpl;
    [|discriminate].
  destruct (is_true (default JNull (assoc "Hash" fs))); simpl; [|discriminate].
  destruct (default JNull (assoc "RelativePath" fs)); simpl;
    try discriminate; now intros [= <-].
Qed.

Lemma add_entries_raises (entries : list json) (index : gmap string json)
      (e : exn) :
  add_entries index entries = Raise e -> e = AttributeError.
Proof.
  revert index. induction entries as [|x rest IH]; intros index; simpl.
  - discriminate.
  - destruct (add_entry index x) as [index1|x'] eqn:He; simpl.
    + apply IH.
    + intros [= <-]. now apply add_entry_raises in He.
Qed.

Lemma py_get_raises (obj : json) (key : string) (e : exn) :
  py_get obj key = Raise e -> e = AttributeError.
Proof. destruct obj; simpl; try discriminate; now intros [= <-]. Qed.

Lemma py_iter_raises (v : json) (e : exn) :
  py_iter v = Raise e -> e = TypeError.
Proof. destruct v; simpl; try discriminate; now intros [= <-]. Qed.

Lemma root_path_cases (mirror : json) (shared_root : path) :
  match root_path mirror shared_root with
  | Ok root =>
      match mirror with
      | JObject fs =>
          match assoc "RootPath" fs with
          | None => root = shared_root
          | Some v => exists s, v = JString s /\ root = Path s
          end
      | _ => False
      end
  | Raise e => e = AttributeError \/ e = TypeError
  end.
Proof.
  destruct mirror as [| | | | | |fs]; simpl; auto.
  destruct (assoc "RootPath" fs) as [[| | | |s| |]|]; eauto.
Qed.

Lemma load_parsed (h : host) (shared_root : path) (manifest : json) :
  baseline h = Parsed manifest ->
  match load_hash_index h shared_root with
  | Ok (root, index) =>
      match declared_root (Parsed manifest) with
      | None => root = shared_root
      | Some v => exists s, v = JString s /\ root = Path s
      end
      /\ forall k v, index !! k = Some v ->
                     Py.lower k = k /\ is_true v = true
  | Raise e => e = AttributeError \/ e = TypeError
  end.
Proof.
  intros Hb. unfold load_hash_index. rewrite Hb.
  remember (declared_root (Parsed manifest)) as decl eqn:Hdecl.
  destruct (py_get manifest "Mirror") as [m|e] eqn:Hm; simpl;
    [|left; now apply py_get_raises in Hm].
  assert (Hdecl' : decl = match py_or m (JObject []) with
                          | JObject mirror => assoc "RootPath" mirror
                          | _ => None
                          end).
  { subst decl. destruct manifest; try discriminate. simpl in Hm.
    injection Hm as <-. reflexivity. }
  rewrite Hdecl'. clear Hdecl Hdecl'.
  pose proof (root_path_cases (py_or m (JObject [])) shared_root) as Hroot.
  destruct (root_path (py_or m (JObject [])) shared_root) as [root|e];
    simpl; [|exact Hroot].
  destruct (py_get (py_or m (JObject [])) "Files") as [fs|e] eqn:Hfs; simpl;
    [|left; now apply py_get_raises in Hfs].
  destruct (py_iter (py_or fs (JArray []))) as [entries|e] eqn:Hit; simpl;
    [|right; now apply py_iter_raises in Hit].
  destruct (add_entries ∅ entries) as [index|e] eqn:Hadd; simpl;
    [|left; now apply add_entries_raises in Hadd].
  split.
  - destruct (py_or m (JObject [])); try contradiction. exact Hroot.
  - apply (add_entries_inv entries ∅ index Hadd).
    intros k v Hk. now rewrite lookup_empty in Hk.
Qed.

End Index.

(** X14: whatever the manifest holds, an index the loader returns has only
    lower-cased keys and only true values (no empty hash); and the root it
    returns is the path written under ["RootPath"] of the mirror object,
    which is then a string, or the shared root when there is none (no
    manifest that loads, no true ["Mirror"], or no ["RootPath"] in it). *)
Theorem index_keys_are_lowered
        (h : host) (shared_root root : path) (index : gmap string json) :
  load_hash_index h shared_root = Ok (root, index) ->
  match declared_root (baseline h) with
  | None => root = shared_root
  | Some v => exists s, v = JString s /\ root = Path s
  end
  /\ forall k v, index !! k = Some v -> Py.lower k = k /\ is_true v = true.
Proof.
  intros Hload.
  destruct (baseline h) as [| | | |manifest|e] eqn:Hb.
  1-4, 6: unfold load_hash_index in Hload; rewrite Hb in Hload;
       try destruct (is_oserror e);
       try discriminate; injection Hload as <- <-;
       (split; [reflexivity|]); intros k v Hk; now rewrite lookup_empty in Hk.
  pose proof (load_parsed h shared_root manifest Hb) as H.
  now rewrite Hload in H.
Qed.

Lemma index_keys_are_lowered_witness :
  match declared_root
          (Parsed (manifest_json "C:/ado"
                     [("Sub\Foo.ado", "abc"); ("x.ado", "")])) with
  | None => Path "C:/ado" = Path "C:\ado"
  | Some v => exists s, v = JString s /\ Path "C:/ado" = Path s
  end
  /\ forall k v,
      (<["sub\foo.ado" := JString "abc"]> ∅ : gmap string json) !! k = Some v ->
      Py.lower k = k /\ is_true v = true.
Proof.
  apply (index_keys_are_lowered
           {| os_name := "nt"; shared_ado := None;
              baseline := Parsed (manifest_json "C:/ado"
                                    [("Sub\Foo.ado", "abc"); ("x.ado", "")]);
              py_repr := fun _ => "" |} (Path "C:\ado")).
  reflexivity.
Defined.



(** ** The lookup key and the stem *)

Section Keys.
Local Open Scope string_scope.

Lemma normparts_plain (acc ps : list string) :
  Forall (fun c => c <> "..") ps -> normparts acc ps = (rev acc ++ ps)%list.
Proof.
  intros H. revert acc.
  induction H as [|p ps Hp Hps IH]; intros acc; simpl.
  - now rewrite app_nil_r.
  - destruct (String.eqb_spec p "..") as [->|_]; [contradiction|].
    rewrite IH. simpl. now rewrite <- app_assoc.
Qed.

Lemma common_prefix (xs ys zs : list string) :
  map Py.lower xs = map Py.lower ys ->
  common xs (ys ++ zs)%list = length xs.
Proof.
  revert ys. induction xs as [|x xs IH]; intros [|y ys]; simpl;
    try discriminate.
  - reflexivity.
  - intros [= Hxy Hrest]. rewrite Hxy, String.eqb_refl. now rewrite IH.
Qed.

Lemma lower_join (sep : string) (l : list string) :
  Py.lower (Py.join sep l) = Py.join (Py.lower sep) (map Py.lower l).
Proof.
  unfold Py.join. induction l as [|x l IH]; [reflexivity|].
  destruct l as [|y l]; [reflexivity|].
  change (String.concat sep (x :: y :: l))
    with (x ++ sep ++ String.concat sep (y :: l)).
  rewrite !lower_app, IH. reflexivity.
Qed.

Lemma endswith_split (p s : string) :
  Py.endswith p s = true -> exists x, s = x ++ p.
Proof.
  induction s as [|a s IH]; cbn [Py.endswith]; intros H.
  - rewrite orb_false_r in H. apply String.eqb_eq in H. subst p.
    now exists "".
  - apply orb_true_iff in H as [H|H].
    + apply String.eqb_eq in H. subst p. now exists "".
    + destruct (IH H) as [x ->]. exists (String a x).
      now rewrite append_cons.
Qed.

Lemma lower_split (s a b : string) :
  Py.lower s = a ++ b ->
  exists a' b', s = a' ++ b' /\ Py.lower a' = a /\ Py.lower b' = b.
Proof.
  revert s. induction a as [|c a IH]; intros s H.
  - exists "", s. now rewrite append_nil_l in *.
  - destruct s as [|d s]; [discriminate|].
    rewrite append_cons in H. simpl in H. injection H as Hc Hs.
    destruct (IH s Hs) as (a' & b' & -> & Ha & Hb).
    exists (String d a'), b'. rewrite append_cons. simpl.
    now rewrite Hc, Ha.
Qed.

Lemma lower_char_dot (c : ascii) :
  Py.lower_char c = "."%char -> c = "."%char.
Proof.
  destruct c as [[] [] [] [] [] [] [] []]; vm_compute;
    intros H; try reflexivity; discriminate H.
Qed.

Lemma rfind_app (c : ascii) (s t : string) (i : nat) :
  rfind c t = Some i -> rfind c (s ++ t) = Some (String.length s + i).
Proof.
  intros H. induction s as [|d s IH]; [exact H|].
  rewrite append_cons. simpl. now rewrite IH.
Qed.

(** The suffix of an ado file name: a dot and three letters, the last dot of
    the name. *)
Lemma ado_suffix (ext : string) :
  Py.lower ext = ".ado" ->
  String.length ext = 4 /\ rfind "." ext = Some 0.
Proof.
  destruct ext as [|c0 [|c1 [|c2 [|c3 [|c4 ext]]]]]; try discriminate.
  simpl. intros [= H0 H1 H2 H3]. split; [reflexivity|].
  apply lower_char_dot in H0. subst c0.
  assert (Hne : forall (c x : ascii),
             Py.lower_char c = x -> x <> "."%char -> Ascii.eqb c "." = false).
  { intros c x Hc Hx. apply Ascii.eqb_neq. intros ->. now apply Hx. }
  rewrite (Hne c3 "o"%char H3), (Hne c2 "d"%char H2), (Hne c1 "a"%char H1)
    by discriminate.
  reflexivity.
Qed.

Lemma sanitize_length (s : string) :
  String.length (sanitize s) = String.length s.
Proof.
  unfold sanitize. induction s as [|c s IH]; simpl; congruence.
Qed.

Lemma sanitize_fixed (s : string) : sanitize s = s <-> count_tabs s = 0.
Proof.
  unfold sanitize. induction s as [|c s IH]; simpl; [tauto|].
  destruct (Ascii.eqb_spec c "009") as [->|Hc]; split.
  - discriminate.
  - discriminate.
  - intros [= H]. apply IH in H. now rewrite H.
  - simpl. intros H. f_equal. now apply IH.
Qed.

End Keys.

(** X16: a file below the shared root is looked up by its path below the
    root: when the manifest root is the shared root up to letter case and
    neither holds [..], the key of the file at components [comps] below the
    root is the lower-cased components joined by backslashes, and the hash
    attached to it is the index value under that key, empty if there is
    none. *)
Theorem key_of_file_below_root
        (hash_root root : path) (comps : list string)
        (hashes : gmap string json) :
  Py.lower (drive hash_root) = Py.lower (drive root) ->
  map Py.lower (parts hash_root) = map Py.lower (parts root) ->
  Forall (fun c => c <> "..") (parts hash_root) ->
  Forall (fun c => c <> "..") (parts root ++ comps) ->
  comps <> [] ->
  relative_key hash_root (below root comps)
  = Py.join "\" (map Py.lower comps)
  /\ hash_value_of hash_root hashes (below root comps)
     = default (JString "") (hashes !! Py.join "\" (map Py.lower comps)).
Proof.
  intros Hdrive Hparts Hhr Hp Hne.
  assert (Hkey : relative_key hash_root (below root comps)
                 = Py.join "\" (map Py.lower comps)).
  { unfold relative_key, relpath, below. cbn [drive parts].
    rewrite Hdrive, String.eqb_refl.
    rewrite !normparts_plain by assumption. cbn [rev app].
    rewrite (common_prefix _ _ _ Hparts), Nat.sub_diag. cbn [repeat app].
    assert (Hlen : length (parts hash_root) = length (parts root)).
    { now rewrite <- (length_map Py.lower), Hparts, length_map. }
    rewrite Hlen, skipn_app, skipn_all, Nat.sub_diag. cbn [skipn app].
    destruct comps as [|c comps]; [contradiction|].
    cbn [skipn]. cbn beta iota. now rewrite lower_join. }
  split; [exact Hkey|]. unfold hash_value_of. now rewrite Hkey.
Qed.

Lemma key_of_file_below_root_witness :
  relative_key (Path "c:/ADO") (below (Path "C:\ado") ["Sub"; "Foo.ado"])
  = Py.join "\" (map Py.lower ["Sub"; "Foo.ado"])
  /\ hash_value_of (Path "c:/ADO") ∅ (below (Path "C:\ado") ["Sub"; "Foo.ado"])
     = default (JString "")
         ((∅ : gmap string json) !! Py.join "\" (map Py.lower ["Sub"; "Foo.ado"])).
Proof.
  apply key_of_file_below_root.
  - reflexivity.
  - reflexivity.
  - vm_compute. repeat constructor; discriminate.
  - vm_compute. repeat constructor; discriminate.
  - discriminate.
Defined.



(** X18: the package name of a row is the file name without its [.ado]
    suffix, letter case kept: a file name the walk accepts is a base and a
    four-character suffix that lowers to [.ado], and the stem of its path is
    the base, or the whole name when the base is empty (a file named just
    [.ado]). *)
Theorem stem_of_ado_file (root : path) (filename : string) :
  is_ado filename = true ->
  exists base ext : string,
    filename = base +:+ ext
    /\ Py.lower ext = ".ado"
    /\ stem (joinpath root filename)
       = if String.eqb base "" then filename else base.
Proof.
  unfold is_ado. intros H.
  apply endswith_split in H as [x Hx].
  apply lower_split in Hx as (base & ext & -> & _ & Hext).
  exists base, ext. split; [reflexivity|split; [exact Hext|]].
  destruct (ado_suffix ext Hext) as [Hlen Hdot].
  unfold stem, name, joinpath. cbn [parts]. rewrite last_last.
  rewrite (rfind_app _ base ext 0 Hdot), length_append, Hlen, Nat.add_0_r.
  destruct base as [|b base]; [reflexivity|].
  replace (0 <? String.length (String b base)) with true by reflexivity.
  replace (String.length (String b base)
           <? String.length (String b base) + 4 - 1) with true
    by (symmetry; apply Nat.ltb_lt; lia).
  cbn [andb String.eqb]. apply substring_prefix.
Qed.

Lemma stem_of_ado_file_witness :
  exists base ext : string,
    "Foo.Bar.ADO" = base +:+ ext
    /\ Py.lower ext = ".ado"
    /\ stem (joinpath DEFAULT_SHARED_ADO "Foo.Bar.ADO")
       = if String.eqb base "" then "Foo.Bar.ADO" else base.
Proof.
  apply (stem_of_ado_file DEFAULT_SHARED_ADO "Foo.Bar.ADO"). reflexivity.
Defined.

(** X19: sanitizing a field changes nothing but its tabs: the length is
    kept, a second pass changes nothing, and a field comes out unchanged
    exactly when it holds no tab. *)
Theorem sanitize_touches_tabs_only (field : string) :
  String.length (sanitize field) = String.length field
  /\ sanitize (sanitize field) = sanitize field
  /\ (sanitize field = field <-> count_tabs field = 0).
Proof.
  split; [apply sanitize_length|split; [|apply sanitize_fixed]].
  apply sanitize_fixed, count_tabs_sanitize.
Qed.

(** ** The rows of a report *)

Section Rows.

Lemma of_list_no_space (l : list ascii) :
  forallb (fun c => negb (Py.isspace c)) l = true ->
  no_space (string_of_list_ascii l) = true.
Proof.
  unfold no_space. now rewrite list_ascii_of_string_of_list_ascii.
Qed.

(** The tokens of [split] are not empty and hold no white space. *)
Lemma split_from_tokens (s : string) (cur : list ascii) :
  forallb (fun c => negb (Py.isspace c)) cur = true ->
  List.Forall (fun t => t <> "" /\ no_space t = true) (Py.split_from cur s).
Proof.
  assert (Hflush : forall cur : list ascii,
            forallb (fun c => negb (Py.isspace c)) cur = true ->
            List.Forall (fun t => t <> "" /\ no_space t = true)
              match cur with
              | [] => []
              | _ => [string_of_list_ascii (rev cur)]
              end).
  { intros [|c l] H; constructor; [|constructor]. split.
    - simpl. rewrite of_list_app. simpl.
      destruct (string_of_list_ascii (rev l)); discriminate.
    - apply of_list_no_space. rewrite forallb_forall in *.
      intros x Hx. apply H. now apply in_rev. }
  revert cur. induction s as [|c s IH]; intros cur Hcur; simpl.
  - now apply Hflush.
  - destruct (Py.isspace c) eqn:Hc.
    + apply List.Forall_app. split; [now apply Hflush|now apply IH].
    + apply IH. simpl. now rewrite Hc.
Qed.

Lemma no_space_no_tab (s : string) : no_space s = true -> count_tabs s = 0.
Proof.
  unfold no_space. induction s as [|c s IH]; simpl; [reflexivity|].
  intros H. apply andb_true_iff in H as [Hc Hs]. rewrite (IH Hs).
  destruct (Ascii.eqb_spec c "009") as [->|_]; [discriminate Hc|reflexivity].
Qed.

End Rows.



(** X21: a version the extractor reports is a token: it is not empty and
    holds no white space, so no tab, and the row carries it unchanged. *)
Theorem version_is_a_token (f : file) (v : string) :
  version (extract_local_metadata f) = Some v ->
  v <> "" /\ no_space v = true /\ sanitize v = v.
Proof.
  intros H.
  apply extract_version_from in H as (text & line & _ & _ & _ & Hv).
  apply find_version_in in Hv.
  pose proof (split_from_tokens (Py.lower (Py.strip line)) [] eq_refl) as Hall.
  rewrite List.Forall_forall in Hall. apply Hall in Hv as [Hne Hsp].
  split; [exact Hne|split; [exact Hsp|]].
  now apply sanitize_fixed, no_space_no_tab.
Qed.

Lemma version_is_a_token_witness :
  "16.0" <> "" /\ no_space "16.0" = true /\ sanitize "16.0" = "16.0".
Proof.
  apply (version_is_a_token
           (Content ("  Version" +:+ String "009" ("16.0  ; x"
                     +:+ String "010" "")))).
  vm_compute. reflexivity.
Defined.

(** ** The line limit *)

Section Lines.
Local Open Scope string_scope.

(** A carriage return ends the line, and takes a line feed that follows. *)
Lemma readlines_cr (cur : list ascii) (s : string) :
  readlines_from cur (String "013" s)
  = string_of_list_ascii (rev ("010"%char :: cur))
    :: readlines_from []
         match s with
         | String d s' => if Ascii.eqb d "010" then s' else s
         | EmptyString => s
         end.
Proof.
  destruct s as [|d s']; [reflexivity|].
  destruct (Ascii.eqb_spec d "010") as [->|Hd]; [reflexivity|].
  destruct d as [[] [] [] [] [] [] [] []]; try reflexivity.
  now contradiction Hd.
Qed.

Lemma readlines_char (cur : list ascii) (c : ascii) (s : string) :
  Ascii.eqb c "010" = false -> Ascii.eqb c "013" = false ->
  readlines_from cur (String c s) = readlines_from (c :: cur) s.
Proof. intros H1 H2. cbn [readlines_from]. now rewrite H1, H2. Qed.

Lemma readlines_lf (cur : list ascii) (s : string) :
  readlines_from cur (String "010" s)
  = string_of_list_ascii (rev ("010"%char :: cur)) :: readlines_from [] s.
Proof. reflexivity. Qed.

(** What follows a complete line is read on its own. *)
Lemma readlines_app (n : nat) :
  forall (head rest : string) (cur : list ascii),
    String.length head <= n ->
    readlines_from cur ((head ++ String "010" "") ++ rest)
    = (readlines_from cur (head ++ String "010" "")
       ++ readlines_from [] rest)%list.
Proof.
  induction n as [|n IH]; intros head rest cur Hn.
  - destruct head; [|simpl in Hn; lia]. reflexivity.
  - destruct head as [|c head]; [reflexivity|].
    simpl in Hn. rewrite !append_cons.
    destruct (Ascii.eqb_spec c "010") as [->|Hlf].
    { rewrite !readlines_lf, IH by lia. reflexivity. }
    destruct (Ascii.eqb_spec c "013") as [->|Hcr].
    + rewrite !readlines_cr.
      destruct head as [|d head].
      * reflexivity.
      * rewrite !append_cons.
        destruct (Ascii.eqb d "010").
        -- simpl in Hn. rewrite IH by lia. reflexivity.
        -- rewrite <- !append_cons. rewrite IH by lia. reflexivity.
    + apply Ascii.eqb_neq in Hlf, Hcr.
      rewrite !readlines_char by assumption. apply IH. lia.
Qed.

End Lines.

(** X22: only the first thirty lines of a file are looked at: once a text
    ends a line and holds thirty lines or more, whatever follows it changes
    neither the version nor the description. *)
Theorem text_after_thirty_lines_is_ignored (head rest : string) :
  SUMMARY_LINE_LIMIT <= length (readlines (head +:+ String "010" "")) ->
  extract_local_metadata (Content ((head +:+ String "010" "") +:+ rest))
  = extract_local_metadata (Content (head +:+ String "010" "")).
Proof.
  intros Hlen. unfold extract_local_metadata, readlines in *.
  rewrite (readlines_app (String.length head)) by lia.
  now rewrite take_app_le by exact Hlen.
Qed.

Lemma text_after_thirty_lines_is_ignored_witness :
  extract_local_metadata
    (Content ((string_of_list_ascii (repeat "010"%char 29) +:+ String "010" "")
              +:+ "* Summary"))
  = extract_local_metadata
      (Content (string_of_list_ascii (repeat "010"%char 29)
                +:+ String "010" "")).
Proof.
  apply text_after_thirty_lines_is_ignored. vm_compute. lia.
Defined.
